(** * Lender qualification tool: a shallow embedding of [app.js]

    The development follows the source file top to bottom: the host
    language's strings and numbers as far as the program uses them, the
    state tables and the state normaliser, the CSV parser, the rule
    checks, and the classification pass [processLenders].

    Conventions of the embedding.
    - A string is a sequence of code units; the model carries the code
      units U+0000..U+00FF ([ascii]), on which [trim], [toLowerCase] and
      the regular-expression classes [\s] and [\d] are closed.
    - A number is NaN, an infinity, or a finite binary64 value, carried
      as the rational it is.  A numeral and the result of a subtraction
      stand for the binary64 value nearest to the exact one, ties to
      even; beyond the binary64 range they stand for an infinity.  A
      number is printed as the shortest decimal that reads back as it.
      The sign of a zero is not kept: the program does not observe it.
    - A property read on an object literal or on [{}] sees the properties
      inherited from [Object.prototype]. *)

From Stdlib Require Import ZArith QArith Qabs Qcanon Ascii String List Bool Lia.
From Stdlib Require Import DecimalString.
From stdpp Require Import base option list gmap strings.

Local Open Scope string_scope.
Local Open Scope bool_scope.

(** ** Code units *)

Module Char.

Definition code (c : ascii) : N := N_of_ascii c.

Definition between (lo hi : N) (c : ascii) : bool :=
  ((lo <=? code c) && (code c <=? hi))%N.

Definition quote : ascii := ascii_of_N 34.
Definition comma : ascii := ascii_of_N 44.
Definition LF : ascii := ascii_of_N 10.
Definition CR : ascii := ascii_of_N 13.

(** [\s] of a regular expression, and the white space of [trim]:
    TAB, LF, VT, FF, CR, SP and NBSP. *)
Definition isWhiteSpace (c : ascii) : bool :=
  between 9 13 c || (code c =? 32)%N || (code c =? 160)%N.

(** [\d]. *)
Definition isDigit (c : ascii) : bool := between 48 57 c.


Definition toLower (c : ascii) : ascii :=
  if between 65 90 c || between 192 214 c || between 216 222 c
  then ascii_of_N (code c + 32) else c.

(** Upper-casing of one code unit; the source applies it to the first
    letter of the words of a state name only. *)
Definition toUpper (c : ascii) : ascii :=
  if between 97 122 c || between 224 246 c || between 248 254 c
  then ascii_of_N (code c - 32) else c.

Definition eqb (a b : ascii) : bool := Ascii.eqb a b.

End Char.

(** ** Strings *)

Module Str.

Definition isEmpty (s : string) : bool :=
  match s with EmptyString => true | String _ _ => false end.

(** A string is truthy when it is not empty. *)
Definition truthy (s : string) : bool := negb (isEmpty s).

Definition snoc (s : string) (c : ascii) : string := s +:+ String c EmptyString.

Fixpoint map (f : ascii -> ascii) (s : string) : string :=
  match s with
  | EmptyString => EmptyString
  | String c t => String (f c) (map f t)
  end.

Definition toLowerCase (s : string) : string := map Char.toLower s.

Fixpoint trimStart (s : string) : string :=
  match s with
  | EmptyString => EmptyString
  | String c t => if Char.isWhiteSpace c then trimStart t else s
  end.

Fixpoint trimEnd (s : string) : string :=
  match s with
  | EmptyString => EmptyString
  | String c t =>
      let t' := trimEnd t in
      if Char.isWhiteSpace c && isEmpty t' then EmptyString else String c t'
  end.

Definition trim (s : string) : string := trimEnd (trimStart s).

(** [s.includes(sub)]. *)
Fixpoint includes (s sub : string) : bool :=
  String.prefix sub s ||
  match s with
  | EmptyString => false
  | String _ t => includes t sub
  end.

Fixpoint all (p : ascii -> bool) (s : string) : bool :=
  match s with
  | EmptyString => true
  | String c t => p c && all p t
  end.


(** [s.match(/^\d+$/)] as a condition. *)
Definition allDigits (s : string) : bool := truthy s && all Char.isDigit s.

(** [s.split(c)] for a one-character separator. *)
Fixpoint splitAt (sep : ascii -> bool) (s : string) (current : string) : list string :=
  match s with
  | EmptyString => [current]
  | String c t =>
      if sep c then current :: splitAt sep t EmptyString
      else splitAt sep t (snoc current c)
  end.

(** [s.split(/[...]+/)]: a maximal run of separators splits once. *)
Fixpoint splitRuns (sep : ascii -> bool) (s : string) (current : string)
    (inRun : bool) : list string :=
  match s with
  | EmptyString => [current]
  | String c t =>
      if sep c then
        if inRun then splitRuns sep t current true
        else current :: splitRuns sep t EmptyString true
      else splitRuns sep t (snoc current c) false
  end.

(** [s.split(/\r?\n/)]. *)
Fixpoint splitLines (s : string) (current : string) : list string :=
  match s with
  | EmptyString => [current]
  | String c t =>
      if Char.eqb c Char.LF then current :: splitLines t EmptyString
      else
        match t with
        | String c2 t2 =>
            if Char.eqb c Char.CR && Char.eqb c2 Char.LF
            then current :: splitLines t2 EmptyString
            else splitLines t (snoc current c)
        | EmptyString => splitLines t (snoc current c)
        end
  end.

(** [words.join(sep)]. *)
Fixpoint join (sep : string) (l : list string) : string :=
  match l with
  | [] => EmptyString
  | [w] => w
  | w :: rest => w +:+ sep +:+ join sep rest
  end.

Definition length (s : string) : nat := String.length s.

End Str.

(** ** Numbers *)

Inductive number : Type :=
  | NaN
  | PosInf
  | NegInf
  | Finite (q : Q).

Module Num.

Definition zero : number := Finite 0.

Definition ofZ (z : Z) : number := Finite (inject_Z z).

Definition isNaN (n : number) : bool :=
  match n with NaN => true | _ => false end.

Definition isFinite (n : number) : bool :=
  match n with Finite _ => true | _ => false end.

Definition isZero (n : number) : bool :=
  match n with Finite q => Qeq_bool q 0 | _ => false end.

(** A number is truthy unless it is zero or NaN. *)
Definition truthy (n : number) : bool :=
  match n with
  | NaN => false
  | Finite q => negb (Qeq_bool q 0)
  | _ => true
  end.

(** [a < b]; false as soon as one side is NaN. *)
Definition lt (a b : number) : bool :=
  match a, b with
  | NaN, _ | _, NaN => false
  | PosInf, _ => false
  | _, NegInf => false
  | NegInf, _ => true
  | _, PosInf => true
  | Finite x, Finite y => negb (Qle_bool y x)
  end.

(** [a > b]. *)
Definition gt (a b : number) : bool := lt b a.

(** *** Numeric literals *)

Definition digitValue (c : ascii) : Z :=
  if Char.isDigit c then Z.of_N (Char.code c - 48)
  else if Char.between 97 102 c then Z.of_N (Char.code c - 87)
  else if Char.between 65 70 c then Z.of_N (Char.code c - 55)
  else 0.

Fixpoint digitsValue (radix : Z) (s : string) (acc : Z) : Z :=
  match s with
  | EmptyString => acc
  | String c t => digitsValue radix t (acc * radix + digitValue c)
  end.

(** The longest prefix of characters satisfying [p], and the rest. *)
Fixpoint span (p : ascii -> bool) (s : string) : string * string :=
  match s with
  | EmptyString => (EmptyString, EmptyString)
  | String c t =>
      if p c then let '(d, r) := span p t in (String c d, r)
      else (EmptyString, s)
  end.

(** *** Rounding to binary64

    A finite number of the program is a binary64 value: a numeral and
    the result of an operation stand for the binary64 value nearest to
    the exact one, the one with an even significand of two that are
    equally near. *)

(** [floor (log2 (p / d))] for positive [p] and [d]. *)
Definition floorLog2 (p d : Z) : Z :=
  let e := (Z.log2 p - Z.log2 d)%Z in
  if (0 <=? e)%Z
  then (if (p <? d * 2 ^ e)%Z then e - 1 else e)%Z
  else (if (p * 2 ^ (- e) <? d)%Z then e - 1 else e)%Z.

(** The integer nearest to [n / d] for positive [d], the even one of two
    that are equally near. *)
Definition roundHalfEven (n d : Z) : Z :=
  let m := (n / d)%Z in
  let r := (n mod d)%Z in
  if (2 * r <? d)%Z then m
  else if (d <? 2 * r)%Z then (m + 1)%Z
  else if Z.even m then m else (m + 1)%Z.

(** The exponent [E] of the spacing [2^E] of binary64 at [p / d]: 53
    significant bits in the normal range, [2^-1074] below it. *)
Definition spacing (p d : Z) : Z := Z.max (floorLog2 p d - 52) (-1074).

(** The multiple of the spacing nearest to [p / d]. *)
Definition roundPos (p d : Z) : Q :=
  let E := spacing p d in
  if (0 <=? E)%Z
  then inject_Z (roundHalfEven p (d * 2 ^ E) * 2 ^ E)
  else roundHalfEven (p * 2 ^ (- E)) d # Z.to_pos (2 ^ (- E)).

Definition round64 (q : Q) : Q :=
  match Qnum q with
  | Z0 => 0
  | Zpos p => roundPos (Zpos p) (Zpos (Qden q))
  | Zneg p => - roundPos (Zpos p) (Zpos (Qden q))
  end.

(** The binary64 range: a value at or beyond [overflowBound] in magnitude
    rounds to an infinity, one at or below [underflowBound] rounds to
    zero. *)
Definition overflowBound : Q := inject_Z (2 ^ 1024 - 2 ^ 970).
Definition underflowBound : Q := 1 # (2 ^ 1075).

(** What every rounded value is: a whole number, or a fraction with a
    power of two [2^k] as denominator and a numerator of magnitude at
    most [2^53]. *)
Definition grid (m : Q) : Prop :=
  Zpos (Qden m) = 1%Z
  \/ exists k, (0 <= k)%Z /\ (Zpos (Qden m) | 2 ^ k)%Z
       /\ (Z.abs (Qnum m) * 2 ^ k <= 2 ^ 53 * Zpos (Qden m))%Z.

(** The number that stands for the exact value [q]. *)
Definition ofExact (q : Q) : number :=
  if Qle_bool overflowBound (Qabs q) then
    (if Qle_bool 0 q then PosInf else NegInf)
  else if Qle_bool (Qabs q) underflowBound then zero
  else Finite (Qred (round64 q)).

(** [a - b]. *)
Definition sub (a b : number) : number :=
  match a, b with
  | NaN, _ | _, NaN => NaN
  | PosInf, PosInf | NegInf, NegInf => NaN
  | PosInf, _ => PosInf
  | NegInf, _ => NegInf
  | Finite _, PosInf => NegInf
  | Finite _, NegInf => PosInf
  | Finite x, Finite y => ofExact (x - y)
  end.

(** [m * 10^k]. *)
Definition scale10 (m k : Z) : Q :=
  if (0 <=? k)%Z then inject_Z (m * 10 ^ k)
  else m # Z.to_pos (10 ^ (- k)).

Definition applySign (negative : bool) (n : number) : number :=
  if negative then
    match n with
    | PosInf => NegInf
    | NegInf => PosInf
    | Finite q => Finite (Qred (- q))
    | NaN => NaN
    end
  else n.

Definition isChar (n : N) (c : ascii) : bool := (Char.code c =? n)%N.

(** An optional sign. *)
Definition parseSign (s : string) : bool * string :=
  match s with
  | String c t =>
      if isChar 45 c then (true, t)
      else if isChar 43 c then (false, t)
      else (false, s)
  | EmptyString => (false, s)
  end.

(** An optional exponent part [e|E, sign, digits]; when it is absent or
    incomplete nothing is consumed. *)
Definition parseExponent (s : string) : Z * string :=
  match s with
  | String c t =>
      if isChar 101 c || isChar 69 c then
        let '(negative, t1) := parseSign t in
        let '(ds, rest) := span Char.isDigit t1 in
        if Str.isEmpty ds then (0%Z, s)
        else ((if negative then - digitsValue 10 ds 0 else digitsValue 10 ds 0)%Z, rest)
      else (0%Z, s)
  | EmptyString => (0%Z, s)
  end.

Definition decimalValue (intPart fracPart : string) (exponent : Z) : number :=
  ofExact (scale10 (digitsValue 10 (intPart +:+ fracPart) 0)
                   (exponent - Z.of_nat (String.length fracPart))).

(** The longest prefix of [s] that is an unsigned decimal literal
    ([Infinity], [digits . digits? exp?], [. digits exp?], [digits exp?]),
    with its value and the rest of [s]. *)
Definition parseUnsignedDecimal (s : string) : option (number * string) :=
  if String.prefix "Infinity" s then
    Some (PosInf, String.substring 8 (String.length s - 8) s)
  else
    let '(intPart, r1) := span Char.isDigit s in
    match r1 with
    | String c r2 =>
        if isChar 46 c then
          let '(fracPart, r3) := span Char.isDigit r2 in
          if Str.isEmpty intPart && Str.isEmpty fracPart then None
          else
            let '(e, r4) := parseExponent r3 in
            Some (decimalValue intPart fracPart e, r4)
        else if Str.isEmpty intPart then None
        else
          let '(e, r4) := parseExponent r1 in
          Some (decimalValue intPart EmptyString e, r4)
    | EmptyString =>
        if Str.isEmpty intPart then None
        else Some (decimalValue intPart EmptyString 0, EmptyString)
    end.

(** The longest prefix of [s] that is a signed decimal literal. *)
Definition parseDecimalPrefix (s : string) : option (number * string) :=
  let '(negative, t) := parseSign s in
  match parseUnsignedDecimal t with
  | Some (n, rest) => Some (applySign negative n, rest)
  | None => None
  end.

(** [parseFloat(s)] for a string [s]. *)
Definition parseFloat (s : string) : number :=
  match parseDecimalPrefix (Str.trimStart s) with
  | Some (n, _) => n
  | None => NaN
  end.

Definition isHexDigit (c : ascii) : bool :=
  Char.isDigit c || Char.between 97 102 c || Char.between 65 70 c.

(** A literal [0x..], [0o..] or [0b..] (prefix letter in either case,
    no sign, at least one digit, nothing after the digits). *)
Definition parseRadix (s : string) : option number :=
  match s with
  | String z (String r ds) =>
      if isChar 48 z && negb (Str.isEmpty ds) then
        if (isChar 120 r || isChar 88 r) && Str.all isHexDigit ds
        then Some (ofExact (inject_Z (digitsValue 16 ds 0)))
        else if (isChar 111 r || isChar 79 r) && Str.all (Char.between 48 55) ds
        then Some (ofExact (inject_Z (digitsValue 8 ds 0)))
        else if (isChar 98 r || isChar 66 r) && Str.all (Char.between 48 49) ds
        then Some (ofExact (inject_Z (digitsValue 2 ds 0)))
        else None
      else None
  | _ => None
  end.

(** The conversion of a string to a number ([Number(s)], and the
    coercion inside [isNaN(s)]). *)
Definition ofString (s : string) : number :=
  let t := Str.trim s in
  if Str.isEmpty t then zero
  else
    match parseRadix t with
    | Some n => n
    | None =>
        match parseDecimalPrefix t with
        | Some (n, rest) => if Str.isEmpty rest then n else NaN
        | None => NaN
        end
    end.

(** *** Printing *)

Definition digitsOfZ (z : Z) : string :=
  NilZero.string_of_uint (N.to_uint (Z.to_N z)).

Fixpoint zeros (n : nat) : string :=
  match n with
  | O => EmptyString
  | S k => String (ascii_of_N 48) (zeros k)
  end.

(** Trailing zeros removed, with their count. *)
Fixpoint stripZeros (s : string) : string * Z :=
  match s with
  | EmptyString => (EmptyString, 0%Z)
  | String c t =>
      let '(t', z) := stripZeros t in
      if isChar 48 c && Str.isEmpty t' then (EmptyString, (z + 1)%Z)
      else (String c t', z)
  end.

(** The digits [s] of a positive value and the exponent [n] with
    value = 0.s * 10^n, printed as [Number.prototype.toString] does. *)
Definition printDigits (s : string) (n : Z) : string :=
  let k := Z.of_nat (String.length s) in
  let expo :=
    String (ascii_of_N 101)
      ((if (0 <? n - 1)%Z then "+" else "-") +:+ digitsOfZ (Z.abs (n - 1))) in
  if ((k <=? n) && (n <=? 21))%Z then s +:+ zeros (Z.to_nat (n - k))
  else if ((0 <? n) && (n <=? 21))%Z then
    String.substring 0 (Z.to_nat n) s +:+ "." +:+
    String.substring (Z.to_nat n) (Z.to_nat (k - n)) s
  else if ((-6 <? n) && (n <=? 0))%Z then
    "0." +:+ zeros (Z.to_nat (- n)) +:+ s
  else if (k =? 1)%Z then s +:+ expo
  else
    String.substring 0 1 s +:+ "." +:+
    String.substring 1 (Z.to_nat (k - 1)) s +:+ expo.

(** The least [t] from [t0] on with [d <= p * 10^t], searched up to
    [fuel]. *)
Fixpoint leastScale (fuel : nat) (p d t : Z) : Z :=
  match fuel with
  | O => t
  | S f => if (d <=? p * 10 ^ t)%Z then t else leastScale f p d (t + 1)%Z
  end.

(** The [n] with [10^(n-1) <= p / d < 10^n], for positive [p] and [d]. *)
Definition decimalExponent (p d : Z) : Z :=
  if (d <=? p)%Z then Z.of_nat (String.length (digitsOfZ (p / d)))
  else (1 - leastScale (String.length (digitsOfZ d)) p d 1)%Z.

(** [s * 10^j]. *)
Definition decimal (s j : Z) : Q :=
  if (0 <=? j)%Z then inject_Z (s * 10 ^ j) else s # Z.to_pos (10 ^ (- j)).

(** The decimals [s * 10^j] next to [p / d] from below and from above
    that binary64 reads as [p / d], the nearer one if both do, the even
    one if they are equally near. *)
Definition candidate (p d j : Z) : option Z :=
  let lo := (if 0 <=? j then p / (d * 10 ^ j) else (p * 10 ^ (- j)) / d)%Z in
  let hi := (lo + 1)%Z in
  let x := p # Z.to_pos d in
  let reads s := Qeq_bool (round64 (decimal s j)) x in
  match reads lo, reads hi with
  | true, false => Some lo
  | false, true => Some hi
  | false, false => None
  | true, true =>
      match (Qmult (2 # 1) x ?= decimal (lo + hi)%Z j)%Q with
      | Lt => Some lo
      | Gt => Some hi
      | Eq => Some (if Z.even lo then lo else hi)
      end
  end.

(** The shortest decimal that binary64 reads as [p / d]: its digits as
    an integer [s] and the exponent [j] with value [s * 10^j], with
    [k] digits tried from [k] on and up to [fuel] more. *)
Fixpoint shortest (fuel : nat) (p d n k : Z) : Z * Z :=
  match fuel with
  | O => (roundHalfEven (if 0 <=? n - k then p else p * 10 ^ (k - n))%Z
                        (if 0 <=? n - k then d * 10 ^ (n - k) else d)%Z,
          (n - k)%Z)
  | S f =>
      match candidate p d (n - k)%Z with
      | Some s => (s, (n - k)%Z)
      | None => shortest f p d n (k + 1)%Z
      end
  end.

(** [String(n)] for a number: the shortest decimal that reads as [n].
    A whole number up to 2^53 is read from its own numeral and from no
    shorter one, so that numeral is printed. *)
Definition toString (n : number) : string :=
  match n with
  | NaN => "NaN"
  | PosInf => "Infinity"
  | NegInf => "-Infinity"
  | Finite q0 =>
      let q := Qred q0 in
      if Qeq_bool q 0 then "0"
      else
        let sign := if Qle_bool 0 q then EmptyString else "-" in
        let p := Z.abs (Qnum q) in
        let d := Zpos (Qden q) in
        if ((d =? 1) && (p <=? 2 ^ 53))%Z then sign +:+ digitsOfZ p
        else
          let '(s, j) := shortest 16 p d (decimalExponent p d) 1 in
          let digits := digitsOfZ s in
          let '(s', _) := stripZeros digits in
          sign +:+ printDigits s' (Z.of_nat (String.length digits) + j)
  end.


End Num.

(** ** Values, exceptions and objects *)

(** The value of a cell of a lender row: a number or a string;
    [VUndefined] is what reading an absent property gives. *)
Inductive value : Type :=
  | VUndefined
  | VNumber (n : number)
  | VString (s : string).

Module Val.

Definition truthy (v : value) : bool :=
  match v with
  | VUndefined => false
  | VNumber n => Num.truthy n
  | VString s => Str.truthy s
  end.

(** [String(v)], also the conversion inside a template literal. *)
Definition toString (v : value) : string :=
  match v with
  | VUndefined => "undefined"
  | VNumber n => Num.toString n
  | VString s => s
  end.

(** [a || b]. *)
Definition orElse (a b : value) : value := if truthy a then a else b.

(** [parseFloat(v)]: the argument is converted to a string first. *)
Definition parseFloat (v : value) : number := Num.parseFloat (toString v).

End Val.

Inductive exn : Type :=
  | Error (message : string)
  | TypeError (message : string).

Definition message (e : exn) : string :=
  match e with Error m => m | TypeError m => m end.

(** The outcome of a computation that may throw. *)
Inductive result (A : Type) : Type :=
  | Ok (a : A)
  | Throw (e : exn).
Arguments Ok {A} a.
Arguments Throw {A} e.

(** A lender row: the object built by the parser, column name to cell.
    The program reads it under fixed keys, none of which is inherited. *)
Abbreviation lender := (gmap string value).

(** [lender[key]]. *)
Definition getProp (o : lender) (key : string) : value :=
  default VUndefined (o !! key).

(** The number of a row in [csvData]; the pass hands rows on by reference. *)
Definition ref := nat.

(** ** State tables *)

(** The properties every plain object inherits from [Object.prototype]. *)
Definition objectPrototypeNames : list string :=
  [ "constructor"; "__defineGetter__"; "__defineSetter__"; "hasOwnProperty";
    "__lookupGetter__"; "__lookupSetter__"; "isPrototypeOf";
    "propertyIsEnumerable"; "toString"; "valueOf"; "__proto__";
    "toLocaleString" ].

(** What [table[key]] gives on a plain object with string values: an own
    string, an inherited function or object, or [undefined]. *)
Inductive entry : Type :=
  | Own (s : string)
  | Inherited
  | Missing.

Definition tableGet (table : gmap string string) (key : string) : entry :=
  match table !! key with
  | Some s => Own s
  | None =>
      if bool_decide (key ∈ objectPrototypeNames) then Inherited else Missing
  end.

Definition stateList : list (string * string) :=
  [ ("alabama", "al"); ("alaska", "ak"); ("arizona", "az"); ("arkansas", "ar"); ("california", "ca");
    ("colorado", "co"); ("connecticut", "ct"); ("delaware", "de"); ("florida", "fl"); ("georgia", "ga");
    ("hawaii", "hi"); ("idaho", "id"); ("illinois", "il"); ("indiana", "in"); ("iowa", "ia");
    ("kansas", "ks"); ("kentucky", "ky"); ("louisiana", "la"); ("maine", "me"); ("maryland", "md");
    ("massachusetts", "ma"); ("michigan", "mi"); ("minnesota", "mn"); ("mississippi", "ms"); ("missouri", "mo");
    ("montana", "mt"); ("nebraska", "ne"); ("nevada", "nv"); ("new hampshire", "nh"); ("new jersey", "nj");
    ("new mexico", "nm"); ("new york", "ny"); ("north carolina", "nc"); ("north dakota", "nd"); ("ohio", "oh");
    ("oklahoma", "ok"); ("oregon", "or"); ("pennsylvania", "pa"); ("rhode island", "ri"); ("south carolina", "sc");
    ("south dakota", "sd"); ("tennessee", "tn"); ("texas", "tx"); ("utah", "ut"); ("vermont", "vt");
    ("virginia", "va"); ("washington", "wa"); ("west virginia", "wv"); ("wisconsin", "wi"); ("wyoming", "wy") ].

(** The object literal, its properties entered in source order. *)
Definition stateAbbreviations : gmap string string :=
  foldl (fun o '(name, abbrev) => <[name := abbrev]> o) ∅ stateList.

(** [Object.keys(stateAbbreviations).forEach(name => ...)]. *)
Definition reverseStateMap : gmap string string :=
  foldl (fun o name =>
           match stateAbbreviations !! name with
           | Some abbrev => <[abbrev := name]> o
           | None => o
           end)
        ∅ (stateList.*1).

(** The known two-letter codes. *)
Definition stateCodes : list string := stateList.*2.

(** What [normalizeState] returns: a string, or for a key that hits an
    inherited property the function or object found there. *)
Inductive normalized : Type :=
  | NString (s : string)
  | NInherited.

(** [n === s] for a string [s]. *)
Definition strictEq (n : normalized) (s : string) : bool :=
  match n with
  | NString t => String.eqb t s
  | NInherited => false
  end.

Definition normalizeState (state : string) : normalized :=
  if negb (Str.truthy state) then NString EmptyString
  else
    let lower := Str.trim (Str.toLowerCase state) in
    match tableGet stateAbbreviations lower with
    | Own abbrev => if Str.truthy abbrev then NString abbrev else NString lower
    | Inherited => NInherited
    | Missing => NString lower
    end.

(** [word.charAt(0).toUpperCase() + word.slice(1)]. *)
Definition capitalize (word : string) : string :=
  match word with
  | EmptyString => EmptyString
  | String c t => String (Char.toUpper c) t
  end.

Definition isSpace (c : ascii) : bool := (Char.code c =? 32)%N.

Definition getFullStateName (state : string) : result string :=
  if negb (Str.truthy state) then Ok EmptyString
  else
    let lower := Str.trim (Str.toLowerCase state) in
    match tableGet reverseStateMap lower with
    | Own name =>
        if Str.truthy name then
          Ok (Str.join " " (List.map capitalize (Str.splitAt isSpace name EmptyString)))
        else Ok state
    | Inherited =>
        Throw (TypeError "reverseStateMap[lower].split is not a function")
    | Missing => Ok state
    end.

(** ** The CSV parser *)

(** The scan of one line: the loop over [i] with [char = line[i]] and
    [nextChar = line[i + 1]].  [row] holds the fields pushed so far;
    the last field is pushed when the line ends. *)
Fixpoint parseLine (line : string) (row : list string) (current : string)
    (inQuotes : bool) : list string :=
  match line with
  | EmptyString => row ++ [Str.trim current]
  | String char rest =>
      if Char.eqb char Char.quote then
        match rest with
        | String nextChar rest' =>
            if inQuotes && Char.eqb nextChar Char.quote
            then parseLine rest' row (Str.snoc current Char.quote) inQuotes
            else parseLine rest row current (negb inQuotes)
        | EmptyString => parseLine rest row current (negb inQuotes)
        end
      else if Char.eqb char Char.comma && negb inQuotes then
        parseLine rest (row ++ [Str.trim current]) EmptyString inQuotes
      else parseLine rest row (Str.snoc current char) inQuotes
  end.

(** The fields of a line. *)
Definition fields (line : string) : list string :=
  parseLine line [] EmptyString false.

(** The value stored for the cell [result[i][index]], which is
    [undefined] past the end of a short row. *)
Definition convertCell (cell : option string) : value :=
  let value :=
    match cell with
    | Some s => if Str.truthy s then s else EmptyString
    | None => EmptyString
    end in
  let value := Str.trim value in
  if Str.truthy value && negb (Num.isNaN (Num.ofString value))
     && negb (String.eqb value EmptyString)
  then
    let num := Num.parseFloat value in
    if negb (Num.isNaN num) && Num.isFinite num
    then VNumber num
    else VString value
  else VString value.

(** [headers.forEach((header, index) => { ... row[header] = value })]:
    a later column of the same name overwrites an earlier one.  The
    assignment under a column named [__proto__] sets no property in the
    host; the row keeps it as an entry here all the same, the program
    reads no such key, and what is stated of the keys of a row leaves
    that column out. *)
Fixpoint buildRow (headers : list string) (index : nat) (cells : list string)
    (row : lender) : lender :=
  match headers with
  | [] => row
  | header :: rest =>
      buildRow rest (S index) cells (<[header := convertCell (cells !! index)]> row)
  end.

(** The test that keeps a row: [row['Lender Name'] &&
    String(row['Lender Name']).trim()]. *)
Definition hasLenderName (row : lender) : bool :=
  Val.truthy (getProp row "Lender Name")
  && Str.truthy (Str.trim (Val.toString (getProp row "Lender Name"))).

(** The loop over the data lines. *)
Fixpoint buildData (headers : list string) (rows : list (list string)) : list lender :=
  match rows with
  | [] => []
  | cells :: rest =>
      let row := buildRow headers 0 cells ∅ in
      if hasLenderName row then row :: buildData headers rest
      else buildData headers rest
  end.

(** [text.split(/\r?\n/).filter(line => line.trim())]. *)
Definition nonBlankLines (text : string) : list string :=
  List.filter (fun line => Str.truthy (Str.trim line))
              (Str.splitLines text EmptyString).

(** The body of the [try] block. *)
Definition parseBody (text : string) : result (list lender) :=
  let lines := nonBlankLines text in
  if (List.length lines <? 2)%nat then
    Throw (Error "CSV must have at least a header row and one data row")
  else
    let result := List.map fields lines in
    match result with
    | header :: rows =>
        let headers := List.map Str.trim header in
        Ok (buildData headers rows)
    | [] => Ok []
    end.

Definition parseCSV (text : string) : result (list lender) :=
  match parseBody text with
  | Ok data => Ok data
  | Throw error => Throw (Error ("CSV parsing failed: " +:+ message error))
  end.

(** ** Merchant criteria *)

(** The click handler builds the criteria with [parseInt] and rejects NaN
    before it starts the pass, so the four numeric fields are integers. *)
Record criteria : Type := {
  requestedPosition : Z;
  tib : Z;
  monthlyRevenue : Z;
  fico : Z;
  state : string;
  industry : string;
  isSoleProp : bool
}.

(** What the host leaves open: the default-locale rendering of a number. *)
Class Host : Type := {
  toLocaleString : number -> string
}.

(** ** Rule checks

    A check returns a blocking reason or [null]; [None] stands for [null]. *)

(** [!blockingRule] is a truthiness test on a string or [null]. *)
Definition truthyRule (blockingRule : option string) : bool :=
  match blockingRule with
  | Some s => Str.truthy s
  | None => false
  end.

Definition isTrucking (merchantIndustry : string) : bool :=
  Str.includes merchantIndustry "truck" || Str.includes merchantIndustry "transport".

Definition checkCustomRestrictions (l : lender) (c : criteria) : option string :=
  let lenderName :=
    Str.toLowerCase
      (Val.toString (Val.orElse (getProp l "Lender Name") (VString EmptyString))) in
  let merchantIndustry := Str.toLowerCase (industry c) in
  if Str.includes lenderName "lexio" && isTrucking merchantIndustry
     && (3 <=? requestedPosition c)%Z
  then Some "Industry - Trucking 1st-2nd position only"
  else if Str.includes lenderName "fyncap" && isTrucking merchantIndustry
     && strictEq (normalizeState (state c)) "il"
  then Some "Industry - Trucking not accepted in IL"
  else if Str.includes lenderName "blackbridge" && isTrucking merchantIndustry
     && strictEq (normalizeState (state c)) "il"
  then Some "Industry - Trucking not accepted in IL"
  else if Str.includes lenderName "smarter merchant" && isSoleProp c
     && existsb (strictEq (normalizeState (state c))) ["il"; "ar"; "ny"]
  then Some ("Industry - Sole props not accepted in " +:+ state c)
  else if Str.includes lenderName "idea financial"
     && Str.includes merchantIndustry "construction"
     && (tib c <? 84)%Z
  then Some "Industry - Construction requires 7+ years TIB"
  else None.

Definition checkStateRestrictions (l : lender) (c : criteria) : result (option string) :=
  let stateRestrictions :=
    Val.toString (Val.orElse (getProp l "State_Restrictions") (VString EmptyString)) in
  if negb (Str.truthy stateRestrictions) then Ok None
  else
    let merchantState := Str.trim (state c) in
    match getFullStateName merchantState with
    | Throw e => Throw e
    | Ok fullStateName =>
        if Str.includes stateRestrictions merchantState
           || Str.includes stateRestrictions fullStateName
        then Ok (Some ("State - " +:+ stateRestrictions))
        else Ok None
    end.

Definition checkSolePropRestrictions (l : lender) : option string :=
  let requirements :=
    Str.toLowerCase
      (Val.toString (Val.orElse (getProp l "Other_Key_Requirements") (VString EmptyString))) in
  let prohibited :=
    Str.toLowerCase
      (Val.toString (Val.orElse (getProp l "Prohibited_Industries") (VString EmptyString))) in
  let allText := requirements +:+ " " +:+ prohibited in
  if Str.includes allText "no sole prop"
     || Str.includes allText "corp only"
     || Str.includes allText "sole props"
  then Some "Sole Prop - Not accepted"
  else None.

(** The separators of [/[\s\/,]+/]. *)
Definition isKeywordSeparator (c : ascii) : bool :=
  Char.isWhiteSpace c || (Char.code c =? 47)%N || (Char.code c =? 44)%N.

(** The [for ... of] loop over the keywords. *)
Fixpoint firstKeywordHit (industryKeywords : list string) (prohibited : string) : bool :=
  match industryKeywords with
  | [] => false
  | keyword :: rest =>
      if (3 <? Str.length keyword)%nat && Str.includes prohibited keyword
         && negb (Str.includes prohibited "case by case")
      then true
      else firstKeywordHit rest prohibited
  end.

Definition checkIndustryRestrictions (l : lender) (c : criteria) : option string :=
  let prohibited :=
    Str.toLowerCase
      (Val.toString (Val.orElse (getProp l "Prohibited_Industries") (VString EmptyString))) in
  if negb (Str.truthy prohibited) then None
  else
    let merchantIndustry := Str.toLowerCase (industry c) in
    let industryKeywords :=
      Str.splitRuns isKeywordSeparator merchantIndustry EmptyString false in
    if firstKeywordHit industryKeywords prohibited
    then Some ("Industry - " +:+ Val.toString (getProp l "Prohibited_Industries"))
    else None.

Section Engine.

Context `{Host}.

(** The three clauses of [checkMinimumRequirements], in source order. *)
Definition checkMinTib (l : lender) (c : criteria) : option string :=
  let minTib := Val.parseFloat (getProp l "Min_TIB_Months") in
  if negb (Num.isNaN minTib) && Num.lt (Num.ofZ (tib c)) minTib
  then Some ("TIB - Min " +:+ Num.toString minTib +:+ " months")
  else None.

Definition checkMinRevenue (l : lender) (c : criteria) : option string :=
  let minRevenue := Val.parseFloat (getProp l "Min_Monthly_Revenue") in
  if negb (Num.isNaN minRevenue) && Num.lt (Num.ofZ (monthlyRevenue c)) minRevenue
  then Some ("Revenue - Min $" +:+ toLocaleString minRevenue)
  else None.

Definition checkMinFico (l : lender) (c : criteria) : option string :=
  let minFico := Val.parseFloat (getProp l "Min_FICO") in
  if negb (Num.isNaN minFico)
     && Num.lt (Num.ofZ (fico c)) (Num.sub minFico (Num.ofZ 20))
  then Some ("FICO - Min " +:+ Num.toString minFico +:+ " (with 20pt tolerance)")
  else None.

Definition checkMinimumRequirements (l : lender) (c : criteria) : option string :=
  match checkMinTib l c with
  | Some reason => Some reason
  | None =>
      match checkMinRevenue l c with
      | Some reason => Some reason
      | None => checkMinFico l c
      end
  end.

End Engine.

(** ** The classification pass *)

(** An entry of [nonQualifiedLenders]: [{ lender: lenderName, blockingRule }]. *)
Module NonQualified.
Record t : Type := make { lender : string; blockingRule : string }.
End NonQualified.

(** The store of one pass: the row objects of [csvData] and the four
    accumulators declared at the top of [processLenders].
    [qualifiedLenders] receives the row object itself, that is a
    reference into [rows], not a copy. *)
Record pass : Type := {
  rows : list lender;
  qualifiedLenders : list ref;
  nonQualifiedLenders : list NonQualified.t;
  autoDroppedCount : nat;
  processingErrors : list string
}.

(** A statement of the callback: it may throw, and it updates the store. *)
Definition M (A : Type) : Type := pass -> result A * pass.

Definition ret {A} (a : A) : M A := fun st => (Ok a, st).

Definition bind {A B} (m : M A) (k : A -> M B) : M B :=
  fun st =>
    match m st with
    | (Ok a, st') => k a st'
    | (Throw e, st') => (Throw e, st')
    end.

#[global] Instance M_ret : MRet M := @ret.
#[global] Instance M_bind : MBind M := fun A B k m => bind m k.

(** A call that may throw. *)
Definition call {A} (r : result A) : M A := fun st => (r, st).

(** [autoDroppedCount++]. *)
Definition incAutoDropped : M unit := fun st =>
  (Ok tt,
   {| rows := rows st;
      qualifiedLenders := qualifiedLenders st;
      nonQualifiedLenders := nonQualifiedLenders st;
      autoDroppedCount := S (autoDroppedCount st);
      processingErrors := processingErrors st |}).

(** [qualifiedLenders.push(lender)]. *)
Definition pushQualified (r : ref) : M unit := fun st =>
  (Ok tt,
   {| rows := rows st;
      qualifiedLenders := qualifiedLenders st ++ [r];
      nonQualifiedLenders := nonQualifiedLenders st;
      autoDroppedCount := autoDroppedCount st;
      processingErrors := processingErrors st |}).

(** [nonQualifiedLenders.push({ lender: lenderName, blockingRule })]. *)
Definition pushNonQualified (lenderName blockingRule : string) : M unit := fun st =>
  (Ok tt,
   {| rows := rows st;
      qualifiedLenders := qualifiedLenders st;
      nonQualifiedLenders :=
        nonQualifiedLenders st ++ [NonQualified.make lenderName blockingRule];
      autoDroppedCount := autoDroppedCount st;
      processingErrors := processingErrors st |}).

(** [processingErrors.push(text)]. *)
Definition pushError (text : string) : M unit := fun st =>
  (Ok tt,
   {| rows := rows st;
      qualifiedLenders := qualifiedLenders st;
      nonQualifiedLenders := nonQualifiedLenders st;
      autoDroppedCount := autoDroppedCount st;
      processingErrors := processingErrors st ++ [text] |}).

(** The lender name as the pass reads it. *)
Definition lenderNameOf (l : lender) : string :=
  Str.trim (Val.toString (Val.orElse (getProp l "Lender Name") (VString EmptyString))).

(** The position test and its reason. *)
Definition positionRule (posMin posMax : number) (c : criteria) : option string :=
  if Num.lt (Num.ofZ (requestedPosition c)) posMin
     || Num.gt (Num.ofZ (requestedPosition c)) posMax
  then
    let positionInfo :=
      "Positions " +:+ Num.toString posMin +:+ "-" +:+ Num.toString posMax in
    Some ("Position - " +:+ positionInfo)
  else None.

Section Pass.

Context `{Host}.

(** The body of the [try] block of the callback, for the row [l] that
    [index] refers to. *)
Definition tryBlock (c : criteria) (l : lender) (index : ref) : M unit :=
  let lenderName := lenderNameOf l in
  if negb (Str.truthy lenderName) || (Str.length lenderName <? 2)%nat
  then incAutoDropped
  else if Str.includes lenderName "$" || Str.allDigits lenderName
          || Str.includes (Str.toLowerCase lenderName) "total"
          || Str.includes (Str.toLowerCase lenderName) "summary"
  then incAutoDropped
  else
    let posMin := Val.parseFloat (getProp l "pos_min") in
    let posMax := Val.parseFloat (getProp l "pos_max") in
    if Num.isNaN posMin || Num.isNaN posMax then incAutoDropped
    else
      let blockingRule := positionRule posMin posMax c in
      let blockingRule :=
        if negb (truthyRule blockingRule)
        then checkCustomRestrictions l c else blockingRule in
      blockingRule ←
        (if negb (truthyRule blockingRule)
         then call (checkStateRestrictions l c) else ret blockingRule);
      let blockingRule :=
        if negb (truthyRule blockingRule) && isSoleProp c
        then checkSolePropRestrictions l else blockingRule in
      let blockingRule :=
        if negb (truthyRule blockingRule)
        then checkIndustryRestrictions l c else blockingRule in
      let blockingRule :=
        if negb (truthyRule blockingRule)
        then checkMinimumRequirements l c else blockingRule in
      match blockingRule with
      | Some rule =>
          if Str.truthy rule then pushNonQualified lenderName rule
          else pushQualified index
      | None => pushQualified index
      end.

(** The callback of [csvData.forEach]: the [try] block and its [catch]. *)
Definition callback (c : criteria) (l : lender) (index : ref) (st : pass) : pass :=
  match tryBlock c l index st with
  | (Ok _, st') => st'
  | (Throw error, st') =>
      snd ((pushError ("Row " +:+ Num.toString (Num.ofZ (Z.of_nat index + 1))
                       +:+ ": " +:+ message error) ;;
            incAutoDropped) st')
  end.

(** [csvData.forEach(f)], from [index] on, for [len] more indices: the
    length is read once at the start, each element is read from the
    array as it is when its turn comes, and an absent index is skipped. *)
Fixpoint forEach (f : lender -> ref -> pass -> pass) (len : nat)
    (index : ref) (st : pass) : pass :=
  match len with
  | O => st
  | S n =>
      match rows st !! index with
      | Some l => forEach f n (S index) (f l index st)
      | None => forEach f n (S index) st
      end
  end.

(** The two globals of the program. *)
Record globals : Type := {
  csvData : option (list lender);
  debugMode : bool
}.

(** What the pass hands to the presenter: a call of [displayError] or of
    [displayResults]. *)
Inductive display : Type :=
  | DisplayError (text : string)
  | DisplayResults (qualified : list ref) (nonQualified : list NonQualified.t)
      (autoDropped : nat) (errors : list string).

Definition initial (data : list lender) : pass :=
  {| rows := data;
     qualifiedLenders := [];
     nonQualifiedLenders := [];
     autoDroppedCount := 0;
     processingErrors := [] |}.

(** [processLenders(criteria)]: the globals after the call, and the call
    made to the presenter.  The console warning of debug mode is left
    out. *)
Definition processLenders (c : criteria) (g : globals) : globals * display :=
  match csvData g with
  | None => (g, DisplayError "No CSV data loaded")
  | Some data =>
      if (List.length data =? 0)%nat then (g, DisplayError "No CSV data loaded")
      else
        let st := forEach (callback c) (List.length data) 0 (initial data) in
        ({| csvData := Some (rows st); debugMode := debugMode g |},
         DisplayResults (qualifiedLenders st) (nonQualifiedLenders st)
                        (autoDroppedCount st) (processingErrors st))
  end.

End Pass.

(** ** The classification as the specification words it

    The definitions of this part follow the specification, not the
    source: a row is first validated, then the six checks are tried in a
    fixed order and the first objection wins.  The theorems below compare
    them with [callback]. *)

Inductive classification : Type :=
  | Qualified
  | NonQualified (lenderName blockingRule : string)
  | AutoDropped (fault : option exn).

(** The name is blank or shorter than 2 characters, contains the dollar
    sign, is purely numeric, or contains "total" or "summary" in any
    letter case. *)
Definition invalidName (lenderName : string) : bool :=
  Str.isEmpty lenderName
  || (Str.length lenderName <? 2)%nat
  || Str.includes lenderName "$"
  || Str.allDigits lenderName
  || Str.includes (Str.toLowerCase lenderName) "total"
  || Str.includes (Str.toLowerCase lenderName) "summary".

(** [pos_min] or [pos_max] is missing or does not parse as a number. *)
Definition missingPosition (l : lender) : bool :=
  Num.isNaN (Val.parseFloat (getProp l "pos_min"))
  || Num.isNaN (Val.parseFloat (getProp l "pos_max")).

Definition structurallyInvalid (l : lender) : bool :=
  invalidName (lenderNameOf l) || missingPosition l.




(** The restriction text of a row and the key under which the state
    tables are read for a merchant. *)
Definition restrictionText (l : lender) : string :=
  Val.toString (Val.orElse (getProp l "State_Restrictions") (VString EmptyString)).

Definition stateKey (c : criteria) : string :=
  Str.trim (Str.toLowerCase (Str.trim (state c))).

(** A rule check: no objection, a blocking reason, or a fault. *)
Definition check : Type := lender -> criteria -> result (option string).

Definition pureCheck (f : lender -> criteria -> option string) : check :=
  fun l c => Ok (f l c).

Definition positionCheck : check :=
  fun l c =>
    Ok (positionRule (Val.parseFloat (getProp l "pos_min"))
                     (Val.parseFloat (getProp l "pos_max")) c).

Definition solePropCheck : check :=
  fun l c => Ok (if isSoleProp c then checkSolePropRestrictions l else None).

(** The first objection of a chain of checks, tried in order; a fault
    in a check that is reached ends the evaluation. *)
Fixpoint firstObjection (chain : list check) (l : lender) (c : criteria)
    : result (option string) :=
  match chain with
  | [] => Ok None
  | chk :: rest =>
      match chk l c with
      | Throw e => Throw e
      | Ok (Some reason) => Ok (Some reason)
      | Ok None => firstObjection rest l c
      end
  end.

(** The diagnostic pushed for a fault at row [index]. *)
Definition diagnostic (index : ref) (e : exn) : string :=
  "Row " +:+ Num.toString (Num.ofZ (Z.of_nat index + 1)) +:+ ": " +:+ message e.

(** The effect of a classification on the store. *)
Definition record (k : classification) (index : ref) (st : pass) : pass :=
  match k with
  | Qualified => snd (pushQualified index st)
  | NonQualified lenderName blockingRule =>
      snd (pushNonQualified lenderName blockingRule st)
  | AutoDropped None => snd (incAutoDropped st)
  | AutoDropped (Some e) =>
      snd (incAutoDropped (snd (pushError (diagnostic index e) st)))
  end.

(** The pass as a fold over a list of rows, numbered from [index] on. *)
Fixpoint visitAll (f : lender -> ref -> pass -> pass) (array : list lender)
    (index : ref) (st : pass) : pass :=
  match array with
  | [] => st
  | l :: rest => visitAll f rest (S index) (f l index st)
  end.

(** The sum of the three buckets. *)
Definition bucketTotal (st : pass) : nat :=
  List.length (qualifiedLenders st) + List.length (nonQualifiedLenders st)
  + autoDroppedCount st.

Section Specification.

Context `{Host}.

(** The six checks in the order of the specification. *)
Definition ruleChain : list check :=
  [ positionCheck;
    pureCheck checkCustomRestrictions;
    checkStateRestrictions;
    solePropCheck;
    pureCheck checkIndustryRestrictions;
    pureCheck checkMinimumRequirements ].

Definition classify (c : criteria) (l : lender) : classification :=
  if structurallyInvalid l then AutoDropped None
  else
    match firstObjection ruleChain l c with
    | Ok (Some reason) => NonQualified (lenderNameOf l) reason
    | Ok None => Qualified
    | Throw e => AutoDropped (Some e)
    end.

End Specification.

(** ** The parser as the specification words it *)

(** A blank line holds white space only. *)
Definition isBlank (line : string) : bool := Str.all Char.isWhiteSpace line.

(** The non-blank lines of a text whose lines end at LF or at CR LF,
    the two line ends the parser splits at. *)
Definition meaningfulLines (text : string) : list string :=
  List.filter (fun line => negb (isBlank line)) (Str.splitLines text EmptyString).

(** The lines of a text under any line-ending style: a line ends at LF,
    at CR LF or at a lone CR. *)
Fixpoint splitAnyStyle (s : string) (current : string) : list string :=
  match s with
  | EmptyString => [current]
  | String c t =>
      if Char.eqb c Char.LF then current :: splitAnyStyle t EmptyString
      else if Char.eqb c Char.CR then
        match t with
        | String c2 t2 =>
            if Char.eqb c2 Char.LF then current :: splitAnyStyle t2 EmptyString
            else current :: splitAnyStyle t EmptyString
        | EmptyString => current :: splitAnyStyle t EmptyString
        end
      else splitAnyStyle t (Str.snoc current c)
  end.

(** The non-blank lines of a text as the specification words them. *)
Definition meaningfulLinesAsWritten (text : string) : list string :=
  List.filter (fun line => negb (isBlank line)) (splitAnyStyle text EmptyString).

(** The text has a CR that no LF follows. *)
Fixpoint loneCR (s : string) : bool :=
  match s with
  | EmptyString => false
  | String c t =>
      if Char.eqb c Char.CR then
        match t with
        | String c2 t2 => if Char.eqb c2 Char.LF then loneCR t2 else true
        | EmptyString => true
        end
      else loneCR t
  end.

(** The error of a text with fewer than two such lines. *)
Definition tooFewLines : exn :=
  Error "CSV parsing failed: CSV must have at least a header row and one data row".

(** The trimmed text of a cell; a cell past the end of its row is empty. *)
Definition cellText (cell : option string) : string :=
  Str.trim (default EmptyString cell).



(** The round trip as a test on one code. *)
Definition roundTrips (code : string) : bool :=
  match getFullStateName code with
  | Ok name =>
      match normalizeState name with
      | NString code' => String.eqb code' code
      | NInherited => false
      end
  | Throw _ => false
  end.


(** ** Sample data *)

Module Sample.

(** A host whose default locale prints a number without digit grouping. *)
Definition host : Host := {| toLocaleString := Num.toString |}.

(** A row with a name, position bounds and further cells. *)
Definition row (name : value) (posMin posMax : Z) (more : list (string * value))
    : lender :=
  foldl (fun o '(k, v) => <[k := v]> o) ∅
    ([("Lender Name", name);
      ("pos_min", VNumber (Num.ofZ posMin));
      ("pos_max", VNumber (Num.ofZ posMax))] ++ more).

Definition merchant (position fico : Z) (state industry : string) : criteria :=
  {| requestedPosition := position;
     tib := 24;
     monthlyRevenue := 20000;
     fico := fico;
     state := state;
     industry := industry;
     isSoleProp := false |}.

Definition acme : lender :=
  row (VString "Acme Capital") 1 5 [("State_Restrictions", VString "CA, NY")].

(** The row named 1234, as the parser stores it and with a text name. *)
Definition numeric : lender := row (VNumber (Num.ofZ 1234)) 1 5 [].

Definition lexio : lender := row (VString "Lexio Capital") 1 4 [].

Definition fico700 : lender :=
  row (VString "Prime Funding") 1 5 [("Min_FICO", VNumber (Num.ofZ 700))].

Definition noFico : lender := row (VString "Prime Funding") 1 5 [].

(** Trucking at position 3, for the named-lender rule of Lexio. *)
Definition trucking3 : criteria := merchant 3 700 "TX" "trucking".

(** A merchant whose state field holds the name of an inherited property. *)
Definition oddState : criteria := merchant 2 700 "constructor" "retail".


(** A table of three lines that end at a lone CR. *)
Definition macText : string :=
  "Lender Name,pos_min,pos_max" +:+ String Char.CR
    ("Acme,1,5" +:+ String Char.CR "Beta,2,4").

Definition q : string := String Char.quote EmptyString.

(** The line of three fields: Acme, then Smith, and Co in quotes, then
    He said hi in quotes with hi between doubled quotes. *)
Definition line : string :=
  "Acme," +:+ q +:+ "Smith, and Co" +:+ q +:+ ","
  +:+ q +:+ "He said " +:+ q +:+ q +:+ "hi" +:+ q +:+ q +:+ q.

(** Its three fields. *)
Definition lineFields : list string :=
  ["Acme"; "Smith, and Co"; "He said " +:+ q +:+ "hi" +:+ q].

(** A table with that line as its only data row. *)
Definition table : string :=
  "Lender Name,Contact,Note" +:+ String Char.LF line.

(** A table of four lenders, the last two of which fail validation. *)
Definition lenders : string :=
  Str.join (String Char.LF EmptyString)
    [ "Lender Name,pos_min,pos_max,Min_FICO,State_Restrictions";
      "Acme Capital,1,5,700,";
      "Lexio Capital,1,4,,";
      "1234,1,5,,";
      "Grand Total,1,5,," ].

(** A table whose data row is named by the text 0. *)
Definition zeroHeaders : list string := ["Lender Name"; "pos_min"; "pos_max"].
Definition zeroCells : list string := ["0"; "1"; "5"].

End Sample.

(** ** The form, the file input and the presenter's tier groups

    The handlers registered on [DOMContentLoaded] and the first loop of
    [displayResults], as functions of the values they read. *)

(** [parseInt(s)] without a radix: leading white space, a sign, the
    prefix [0x] or [0X] for radix 16, then the longest run of digits. *)
Definition parseInt (s : string) : number :=
  let t := Str.trimStart s in
  let '(negative, t1) := Num.parseSign t in
  let '(radix, t2) :=
    match t1 with
    | String z (String x rest) =>
        if Num.isChar 48 z && (Num.isChar 120 x || Num.isChar 88 x)
        then (16%Z, rest) else (10%Z, t1)
    | _ => (10%Z, t1)
    end in
  let '(ds, _) :=
    Num.span (if (radix =? 16)%Z then Num.isHexDigit else Char.isDigit) t2 in
  if Str.isEmpty ds then NaN
  else Num.applySign negative (Num.ofExact (inject_Z (Num.digitsValue radix ds 0))).

(** The values of the form's elements, named by their ids. *)
Module Form.
Record t : Type := make {
  position : string;
  tib : string;
  revenue : string;
  fico : string;
  state : string;
  industry : string;
  soleProp : bool
}.
End Form.

(** The object [merchantCriteria] of the click handler, its numbers as
    [parseInt] returns them. *)
Module Merchant.
Record t : Type := make {
  requestedPosition : number;
  tib : number;
  monthlyRevenue : number;
  fico : number;
  state : string;
  industry : string;
  isSoleProp : bool
}.
End Merchant.

Definition merchantCriteria (f : Form.t) : Merchant.t :=
  {| Merchant.requestedPosition := parseInt (Form.position f);
     Merchant.tib := parseInt (Form.tib f);
     Merchant.monthlyRevenue := parseInt (Form.revenue f);
     Merchant.fico := parseInt (Form.fico f);
     Merchant.state := Str.trim (Form.state f);
     Merchant.industry := Str.trim (Form.industry f);
     Merchant.isSoleProp := Form.soleProp f |}.

(** The four tests under the comment "Validate inputs". *)
Definition validateInputs (m : Merchant.t) : result unit :=
  if Num.isNaN (Merchant.requestedPosition m)
     || Num.lt (Merchant.requestedPosition m) (Num.ofZ 1)
     || Num.gt (Merchant.requestedPosition m) (Num.ofZ 10)
  then Throw (Error "Invalid position selected")
  else if Num.isNaN (Merchant.tib m) || Num.lt (Merchant.tib m) (Num.ofZ 0)
  then Throw (Error "Invalid time in business")
  else if Num.isNaN (Merchant.monthlyRevenue m)
          || Num.lt (Merchant.monthlyRevenue m) (Num.ofZ 0)
  then Throw (Error "Invalid monthly revenue")
  else if Num.isNaN (Merchant.fico m)
          || Num.lt (Merchant.fico m) (Num.ofZ 300)
          || Num.gt (Merchant.fico m) (Num.ofZ 850)
  then Throw (Error "Invalid FICO score (must be 300-850)")
  else Ok tt.

(** What a click on the process button leads to, up to the call of
    [processLenders]: the error shown, or the criteria the pass starts
    with. *)
Inductive clicked : Type :=
  | Rejected (shown : string)
  | Started (m : Merchant.t).

Definition onProcessClick (f : Form.t) : clicked :=
  let m := merchantCriteria f in
  match validateInputs m with
  | Throw error => Rejected ("Processing error: " +:+ message error)
  | Ok _ => Started m
  end.

(** The integer a number is, if it is one. *)
Definition integerOf (n : number) : option Z :=
  match n with
  | Finite q => if (Zpos (Qden q) =? 1)%Z then Some (Qnum q) else None
  | _ => None
  end.

(** The criteria of the pass for the object of the handler; the pass is
    modelled on integers, which the four numbers are unless one of them
    overflowed to an infinity. *)
Definition criteriaOf (m : Merchant.t) : option criteria :=
  match integerOf (Merchant.requestedPosition m), integerOf (Merchant.tib m),
        integerOf (Merchant.monthlyRevenue m), integerOf (Merchant.fico m) with
  | Some p, Some t, Some r, Some f =>
      Some {| requestedPosition := p; tib := t; monthlyRevenue := r; fico := f;
              state := Merchant.state m; industry := Merchant.industry m;
              isSoleProp := Merchant.isSoleProp m |}
  | _, _, _, _ => None
  end.

(** [updateProcessButton]: the value it gives [btn.disabled].  An array,
    even an empty one, is truthy. *)
Definition isFormValid (f : Form.t) : bool :=
  Str.truthy (Form.position f) && Str.truthy (Form.tib f)
  && Str.truthy (Form.revenue f) && Str.truthy (Form.fico f)
  && Str.truthy (Str.trim (Form.state f))
  && Str.truthy (Str.trim (Form.industry f)).

Definition updateProcessButton (g : globals) (f : Form.t) : bool :=
  negb (match csvData g with Some _ => true | None => false end)
  || negb (isFormValid f).

(** [s.endsWith(suffix)]. *)
Fixpoint endsWith (s suffix : string) : bool :=
  String.eqb s suffix ||
  match s with
  | EmptyString => false
  | String _ t => endsWith t suffix
  end.

(** The chosen file: its name and the text the reader loads from it. *)
Record file : Type := { fileName : string; fileText : string }.

(** The pictograph that opens the text of the status line: a check mark
    on success, a cross mark on failure.  Neither is a Latin-1 code
    unit, so it is kept apart from the text that follows it. *)
Inductive pictograph : Type := CheckMark | CrossMark.

(** The status line: [className], and [textContent] as its pictograph
    and the wording after the space that follows it. *)
Record status : Type := {
  className : string;
  mark : pictograph;
  wording : string
}.

(** The change handler of the file input together with the [onload]
    handler it registers, for a file the reader reads successfully: the
    globals once the text is loaded, and the status line if it is set. *)
Definition onFileChange (chosen : option file) (g : globals)
    : globals * option status :=
  match chosen with
  | None => ({| csvData := None; debugMode := debugMode g |}, None)
  | Some f =>
      if negb (endsWith (Str.toLowerCase (fileName f)) ".csv") then
        ({| csvData := None; debugMode := debugMode g |},
         Some {| className := "status error";
                 mark := CrossMark;
                 wording := "Please select a CSV file" |})
      else
        match parseCSV (fileText f) with
        | Ok data =>
            ({| csvData := Some data; debugMode := debugMode g |},
             Some {| className := "status success";
                     mark := CheckMark;
                     wording :=
                       "Loaded "
                       +:+ Num.toString (Num.ofZ (Z.of_nat (List.length data)))
                       +:+ " lenders successfully" |})
        | Throw error =>
            ({| csvData := None; debugMode := debugMode g |},
             Some {| className := "status error";
                     mark := CrossMark;
                     wording := "Error loading file: " +:+ message error |})
        end
  end.

(** The tier label [displayResults] files a lender under. *)
Definition tierOf (l : lender) : string :=
  Str.trim (Val.toString (Val.orElse (getProp l "Tier") (VString "Unknown"))).

(** What [tierGroups[tier]] gives on the object [{}] whose own
    properties are arrays: an array, an inherited function or object, or
    [undefined]. *)
Definition groupGet (tierGroups : gmap string (list ref)) (tier : string)
    : option (option (list ref)) :=
  match tierGroups !! tier with
  | Some group => Some (Some group)
  | None =>
      if bool_decide (tier ∈ objectPrototypeNames) then Some None else None
  end.

(** The loop [qualified.forEach(lender => ...)] that fills [tierGroups];
    [rows] is the store the references of [qualified] point into.  A
    label that names an inherited property finds something truthy that
    has no [push]. *)
Fixpoint groupByTier (rows : list lender) (qualified : list ref)
    (tierGroups : gmap string (list ref)) : result (gmap string (list ref)) :=
  match qualified with
  | [] => Ok tierGroups
  | r :: rest =>
      let tier := tierOf (default ∅ (rows !! r)) in
      match groupGet tierGroups tier with
      | Some (Some group) =>
          groupByTier rows rest (<[tier := (group ++ [r])%list]> tierGroups)
      | Some None =>
          Throw (TypeError "tierGroups[tier].push is not a function")
      | None => groupByTier rows rest (<[tier := [r]]> tierGroups)
      end
  end.

(** ** Notions used to state further properties *)

(** One entry of the state table survives the trip name, code, name. *)
Definition nameRoundTrips (entry : string * string) : bool :=
  match normalizeState (fst entry) with
  | NString code =>
      String.eqb code (snd entry) &&
      match getFullStateName code with
      | Ok name => String.eqb (Str.toLowerCase name) (fst entry)
      | Throw _ => false
      end
  | NInherited => false
  end.

(** The lowercased text of prohibited industries of a row, and the
    keywords of a merchant's industry. *)
Definition prohibitedText (l : lender) : string :=
  Str.toLowerCase
    (Val.toString (Val.orElse (getProp l "Prohibited_Industries") (VString EmptyString))).

Definition industryKeywords (c : criteria) : list string :=
  Str.splitRuns isKeywordSeparator (Str.toLowerCase (industry c)) EmptyString false.

(** Commas, and lines without a quote character. *)
Definition isComma (c : ascii) : bool := Char.eqb c Char.comma.
Definition noQuotes (s : string) : bool :=
  Str.all (fun c => negb (Char.eqb c Char.quote)) s.

(** The column names of a text: the trimmed fields of its first
    non-blank line. *)
Definition headersOf (text : string) : list string :=
  match meaningfulLines text with
  | header :: _ => List.map Str.trim (fields header)
  | [] => []
  end.

(** What a cell may hold: a string or a finite number. *)
Definition storable (v : value) : bool :=
  match v with
  | VString _ => true
  | VNumber n => Num.isFinite n
  | VUndefined => false
  end.

(** An integer between two bounds, and an integer or an infinity from
    a bound on. *)
Definition inRange (lo hi : Z) (n : number) : Prop :=
  exists z, n = Num.ofZ z /\ (lo <= z <= hi)%Z.

Definition atLeast (lo : Z) (n : number) : Prop :=
  n = PosInf \/ exists z, n = Num.ofZ z /\ (lo <= z)%Z.

(** The tier label of the row a reference denotes. *)
Definition tierAt (rows : list lender) (r : ref) : string :=
  tierOf (default ∅ (rows !! r)).

(** A group, if any, with further members. *)
Definition joined (group : option (list ref)) (more : list ref)
    : option (list ref) :=
  match group, more with
  | None, [] => None
  | _, _ => Some (default [] group ++ more)%list
  end.

Section Outcomes.

Context `{Host}.

(** The entry a row contributes to the non-qualified list, if any. *)
Definition blockedEntry (c : criteria) (l : lender) : option NonQualified.t :=
  match classify c l with
  | NonQualified lenderName blockingRule =>
      Some (NonQualified.make lenderName blockingRule)
  | _ => None
  end.

(** The references of the rows classified as qualified, numbered from
    [index] on. *)
Fixpoint qualifiedRefs (c : criteria) (data : list lender) (index : ref) : list ref :=
  match data with
  | [] => []
  | l :: rest =>
      match classify c l with
      | Qualified => index :: qualifiedRefs c rest (S index)
      | _ => qualifiedRefs c rest (S index)
      end
  end.

End Outcomes.

(** ** Further sample data *)

(** The criteria with the sole-proprietor box set to [b]. *)
Definition withSoleProp (b : bool) (c : criteria) : criteria :=
  {| requestedPosition := requestedPosition c;
     tib := tib c;
     monthlyRevenue := monthlyRevenue c;
     fico := fico c;
     state := state c;
     industry := industry c;
     isSoleProp := b |}.

(** A field as a CSV writer quotes it: between quotes, each quote of
    the field doubled. *)
Fixpoint escapeQuotes (s : string) : string :=
  match s with
  | EmptyString => EmptyString
  | String c t =>
      if Char.eqb c Char.quote then String Char.quote (String Char.quote (escapeQuotes t))
      else String c (escapeQuotes t)
  end.

Definition quoteField (s : string) : string :=
  String Char.quote (escapeQuotes s +:+ String Char.quote EmptyString).

(** A line of quoted fields, separated by commas. *)
Definition quoteLine (cells : list string) : string :=
  Str.join (String Char.comma EmptyString) (List.map quoteField cells).

Definition startsWithQuote (s : string) : bool :=
  match s with
  | String c _ => Char.eqb c Char.quote
  | EmptyString => false
  end.

(** The value of a decimal numeral read from the left, on top of [acc]. *)
Fixpoint uval (d : Decimal.uint) (acc : Z) : Z :=
  match d with
  | Decimal.Nil => acc
  | Decimal.D0 d => uval d (acc * 10 + 0)
  | Decimal.D1 d => uval d (acc * 10 + 1)
  | Decimal.D2 d => uval d (acc * 10 + 2)
  | Decimal.D3 d => uval d (acc * 10 + 3)
  | Decimal.D4 d => uval d (acc * 10 + 4)
  | Decimal.D5 d => uval d (acc * 10 + 5)
  | Decimal.D6 d => uval d (acc * 10 + 6)
  | Decimal.D7 d => uval d (acc * 10 + 7)
  | Decimal.D8 d => uval d (acc * 10 + 8)
  | Decimal.D9 d => uval d (acc * 10 + 9)
  end.

Module Cases.

Definition form : Form.t :=
  {| Form.position := "3"; Form.tib := "24"; Form.revenue := "20000";
     Form.fico := "700"; Form.state := " TX "; Form.industry := "trucking";
     Form.soleProp := false |}.

(** A table without a column named "Lender Name". *)
Definition nameless : file :=
  {| fileName := "Lenders.CSV";
     fileText := "Name,pos_min" +:+ String Char.LF "Acme,1" |}.

(** The record of the data row of [Sample.table]. *)
Definition tableRow : lender :=
  buildRow ["Lender Name"; "Contact"; "Note"] 0 Sample.lineFields ∅.

(** A merchant who writes the state name in full. *)
Definition newYork : criteria := Sample.merchant 2 700 "New York" "retail".

(** A sole proprietor in retail. *)
Definition soleProp : criteria :=
  withSoleProp true (Sample.merchant 3 700 "TX" "retail").

(** Three fields: a plain one, one with a comma, one with quotes. *)
Definition cells : list string :=
  [ "Acme"; "Smith, and Co";
    "He said " +:+ Sample.q +:+ "hi" +:+ Sample.q ].

End Cases.

(** * Properties *)

(** ** The currency test *)






(** ** Blocking reasons are never empty *)

Ltac split_ifs :=
  repeat match goal with
         | |- context [if ?b then _ else _] => destruct b
         end.

Ltac reason_nonempty := split_ifs; intros [= <-]; reflexivity.

Lemma positionRule_nonempty posMin posMax c r :
  positionRule posMin posMax c = Some r -> Str.isEmpty r = false.
Proof. unfold positionRule. reason_nonempty. Qed.

Lemma checkCustomRestrictions_nonempty l c r :
  checkCustomRestrictions l c = Some r -> Str.isEmpty r = false.
Proof. unfold checkCustomRestrictions. reason_nonempty. Qed.

Lemma checkStateRestrictions_nonempty l c r :
  checkStateRestrictions l c = Ok (Some r) -> Str.isEmpty r = false.
Proof.
  unfold checkStateRestrictions.
  destruct (getFullStateName _); reason_nonempty.
Qed.

Lemma checkSolePropRestrictions_nonempty l r :
  checkSolePropRestrictions l = Some r -> Str.isEmpty r = false.
Proof. unfold checkSolePropRestrictions. reason_nonempty. Qed.

Lemma checkIndustryRestrictions_nonempty l c r :
  checkIndustryRestrictions l c = Some r -> Str.isEmpty r = false.
Proof. unfold checkIndustryRestrictions. reason_nonempty. Qed.

Lemma checkMinimumRequirements_nonempty `{Host} l c r :
  checkMinimumRequirements l c = Some r -> Str.isEmpty r = false.
Proof.
  unfold checkMinimumRequirements, checkMinTib, checkMinRevenue, checkMinFico.
  reason_nonempty.
Qed.

(** ** The callback refines the classification *)

Ltac settle Hx r :=
  repeat (progress (cbn; unfold Str.truthy; rewrite ?(Hx r eq_refl)));
  reflexivity.

Section PassProperties.

Context `{Host}.

Lemma tryBlock_classify c l index st :
  tryBlock c l index st =
  match classify c l with
  | Qualified => pushQualified index st
  | NonQualified n r => pushNonQualified n r st
  | AutoDropped None => incAutoDropped st
  | AutoDropped (Some e) => (Throw e, st)
  end.
Proof.
  unfold tryBlock, classify, structurallyInvalid, invalidName, missingPosition,
    Str.truthy.
  destruct (Str.isEmpty (lenderNameOf l)); [reflexivity|].
  destruct (Str.length (lenderNameOf l) <? 2)%nat; [reflexivity|].
  destruct (Str.includes (lenderNameOf l) "$"); [reflexivity|].
  destruct (Str.allDigits (lenderNameOf l)); [reflexivity|].
  destruct (Str.includes (Str.toLowerCase (lenderNameOf l)) "total"); [reflexivity|].
  destruct (Str.includes (Str.toLowerCase (lenderNameOf l)) "summary"); [reflexivity|].
  destruct (Num.isNaN (Val.parseFloat (getProp l "pos_min"))); [reflexivity|].
  destruct (Num.isNaN (Val.parseFloat (getProp l "pos_max"))); [reflexivity|].
  cbn [negb orb andb firstObjection ruleChain positionCheck pureCheck solePropCheck].
  unfold mbind, M_bind, bind, call, ret.
  pose proof (positionRule_nonempty (Val.parseFloat (getProp l "pos_min"))
                (Val.parseFloat (getProp l "pos_max")) c) as H1.
  pose proof (checkCustomRestrictions_nonempty l c) as H2.
  pose proof (checkStateRestrictions_nonempty l c) as H3.
  pose proof (checkSolePropRestrictions_nonempty l) as H4.
  pose proof (checkIndustryRestrictions_nonempty l c) as H5.
  pose proof (checkMinimumRequirements_nonempty l c) as H6.
  destruct (positionRule _ _ c) as [r|]; [settle H1 r|].
  destruct (checkCustomRestrictions l c) as [r|]; [settle H2 r|].
  destruct (checkStateRestrictions l c) as [[r|]|e]; [settle H3 r| |reflexivity].
  destruct (isSoleProp c);
    [destruct (checkSolePropRestrictions l) as [r|]; [settle H4 r|]|];
    (destruct (checkIndustryRestrictions l c) as [r|]; [settle H5 r|]);
    (destruct (checkMinimumRequirements l c) as [r|]; [settle H6 r|reflexivity]).
Qed.

Lemma callback_classify c l index st :
  callback c l index st = record (classify c l) index st.
Proof.
  unfold callback. rewrite tryBlock_classify.
  destruct (classify c l) as [| |[e|]]; reflexivity.
Qed.

(** Each classification adds one to exactly one bucket. *)
Lemma record_buckets k index st :
  let st' := record k index st in
  (List.length (qualifiedLenders st') = S (List.length (qualifiedLenders st))
   /\ nonQualifiedLenders st' = nonQualifiedLenders st
   /\ autoDroppedCount st' = autoDroppedCount st)
  \/ (qualifiedLenders st' = qualifiedLenders st
      /\ List.length (nonQualifiedLenders st')
         = S (List.length (nonQualifiedLenders st))
      /\ autoDroppedCount st' = autoDroppedCount st)
  \/ (qualifiedLenders st' = qualifiedLenders st
      /\ nonQualifiedLenders st' = nonQualifiedLenders st
      /\ autoDroppedCount st' = S (autoDroppedCount st)).
Proof.
  destruct k as [|n r|[e|]]; cbn.
  - left. rewrite length_app. cbn. repeat split; lia.
  - right; left. rewrite length_app. cbn. repeat split; lia.
  - right; right. repeat split.
  - right; right. repeat split.
Qed.

Lemma record_bucketTotal k index st :
  bucketTotal (record k index st) = S (bucketTotal st).
Proof.
  unfold bucketTotal.
  destruct (record_buckets k index st) as [(a & b & d)|[(a & b & d)|(a & b & d)]];
    rewrite ?a, ?b, ?d; lia.
Qed.

Lemma record_rows k index st : rows (record k index st) = rows st.
Proof. destruct k as [|n r|[e|]]; reflexivity. Qed.

Lemma visitAll_bucketTotal c data : forall index st,
  bucketTotal (visitAll (callback c) data index st)
  = bucketTotal st + List.length data.
Proof.
  induction data as [|l data IH]; intros index st; cbn [visitAll List.length].
  - lia.
  - rewrite IH, callback_classify, record_bucketTotal. lia.
Qed.

Lemma callback_rows c l index st : rows (callback c l index st) = rows st.
Proof. rewrite callback_classify. apply record_rows. Qed.

Lemma visitAll_rows c data : forall index st,
  rows (visitAll (callback c) data index st) = rows st.
Proof.
  induction data as [|l data IH]; intros index st; cbn [visitAll].
  - reflexivity.
  - rewrite IH. apply callback_rows.
Qed.

(** Since the callback leaves the rows in place, the loop over the live
    array visits the rows it started with. *)
Lemma forEach_visitAll c len : forall index st,
  forEach (callback c) len index st
  = visitAll (callback c) (take len (drop index (rows st))) index st.
Proof.
  induction len as [|n IH]; intros index st; cbn [forEach].
  - rewrite take_0. reflexivity.
  - destruct (rows st !! index) as [l|] eqn:Hl.
    + rewrite (drop_S _ _ _ Hl). cbn [take visitAll].
      rewrite IH, callback_rows. reflexivity.
    + rewrite IH. apply lookup_ge_None in Hl.
      rewrite !drop_ge by lia. rewrite !take_nil. reflexivity.
Qed.

Lemma forEach_whole c data :
  forEach (callback c) (List.length data) 0 (initial data)
  = visitAll (callback c) data 0 (initial data).
Proof.
  rewrite forEach_visitAll. cbn [initial rows]. rewrite drop_0.
  rewrite take_ge by reflexivity. reflexivity.
Qed.

Lemma record_refs k index bound st :
  index < bound ->
  Forall (fun r : ref => r < bound) (qualifiedLenders st) ->
  Forall (fun r : ref => r < bound) (qualifiedLenders (record k index st)).
Proof.
  intros Hi Hst. destruct k as [|n r|[e|]]; cbn; try assumption.
  apply Forall_app. split; [assumption|]. constructor; [exact Hi|constructor].
Qed.

Lemma visitAll_refs c data : forall index st,
  Forall (fun r : ref => r < index) (qualifiedLenders st) ->
  Forall (fun r : ref => r < index + List.length data)
         (qualifiedLenders (visitAll (callback c) data index st)).
Proof.
  induction data as [|l data IH]; intros index st Hst; cbn [visitAll List.length].
  - rewrite Nat.add_0_r. exact Hst.
  - replace (index + S (List.length data)) with (S index + List.length data) by lia.
    apply IH. rewrite callback_classify. apply record_refs; [lia|].
    eapply Forall_impl; [exact Hst|]. cbn. intros; lia.
Qed.

(** C1: one pass of the engine puts every row of the dataset in exactly
    one of the three buckets.  The callback adds one to exactly one of
    qualified, non-qualified and auto-dropped, whatever the row, and when
    [processLenders] hands results to the presenter the three counts sum
    to the number of rows; it reports an error instead only when no data
    is loaded, and then there is no row to route. *)
Theorem partition_completeness (c : criteria) (g : globals) :
  (forall l index st,
     let st' := callback c l index st in
     (List.length (qualifiedLenders st') = S (List.length (qualifiedLenders st))
      /\ nonQualifiedLenders st' = nonQualifiedLenders st
      /\ autoDroppedCount st' = autoDroppedCount st)
     \/ (qualifiedLenders st' = qualifiedLenders st
         /\ List.length (nonQualifiedLenders st')
            = S (List.length (nonQualifiedLenders st))
         /\ autoDroppedCount st' = autoDroppedCount st)
     \/ (qualifiedLenders st' = qualifiedLenders st
         /\ nonQualifiedLenders st' = nonQualifiedLenders st
         /\ autoDroppedCount st' = S (autoDroppedCount st)))
  /\ match snd (processLenders c g) with
     | DisplayResults qualified nonQualified autoDropped _ =>
         exists data,
           csvData g = Some data
           /\ List.length qualified + List.length nonQualified + autoDropped
              = List.length data
     | DisplayError _ => csvData g = None \/ csvData g = Some []
     end.
Proof.
  split.
  - intros l index st. cbn zeta. rewrite callback_classify.
    apply record_buckets.
  - unfold processLenders.
    destruct (csvData g) as [data|]; [|left; reflexivity].
    destruct data as [|l data]; [right; reflexivity|].
    cbn [List.length Nat.eqb snd]. change (S (List.length data)) with
      (List.length (l :: data)). rewrite forEach_whole.
    exists (l :: data). split; [reflexivity|].
    pose proof (visitAll_bucketTotal c (l :: data) 0 (initial (l :: data))) as E.
    unfold bucketTotal in E. cbn [initial qualifiedLenders nonQualifiedLenders
      autoDroppedCount List.length] in E. cbn [List.length]. lia.
Qed.

Lemma firstObjection_Some chain l c reason :
  firstObjection chain l c = Ok (Some reason) <->
  exists pre chk post,
    chain = (pre ++ chk :: post)%list
    /\ Forall (fun p : check => p l c = Ok None) pre
    /\ chk l c = Ok (Some reason).
Proof.
  induction chain as [|chk chain IH]; cbn [firstObjection].
  - split; [discriminate|].
    intros (pre & k & post & E & _). destruct pre; discriminate.
  - split.
    + destruct (chk l c) as [[r|]|e] eqn:Hc.
      * intros [= ->]. exists [], chk, chain. repeat split; [constructor|exact Hc].
      * intros Hrest. apply IH in Hrest as (pre & k & post & -> & Hpre & Hk).
        exists (chk :: pre), k, post. repeat split; [constructor|]; assumption.
      * discriminate.
    + intros (pre & k & post & E & Hpre & Hk).
      destruct pre as [|p pre]; cbn in E; injection E as -> ->.
      * rewrite Hk. reflexivity.
      * inversion Hpre as [|? ? Hp Hpre']; subst. rewrite Hp.
        apply IH. exists pre, k, post. repeat split; assumption.
Qed.

(** C2: a row that passes structural validation is classified by the six
    checks in the fixed order position bounds, named-lender restrictions,
    state restrictions, sole-proprietor restriction (asked only when
    [isSoleProp] holds), industry keywords, minimum requirements.  The
    callback records, at any row number and in any store, the same
    classification, a function of the row and the criteria alone; the
    reason of a non-qualified row is the reason of the first check of
    the chain that objects, all checks before it having passed. *)
Theorem first_objection_wins (c : criteria) (l : lender) :
  structurallyInvalid l = false ->
  (forall index st,
     callback c l index st =
     record (match firstObjection ruleChain l c with
             | Ok (Some reason) => NonQualified (lenderNameOf l) reason
             | Ok None => Qualified
             | Throw e => AutoDropped (Some e)
             end) index st)
  /\ (forall reason,
        firstObjection ruleChain l c = Ok (Some reason) <->
        exists pre chk post,
          ruleChain = (pre ++ chk :: post)%list
          /\ Forall (fun p : check => p l c = Ok None) pre
          /\ chk l c = Ok (Some reason))
  /\ (isSoleProp c = false -> solePropCheck l c = Ok None).
Proof.
  intros Hvalid. split; [|split].
  - intros index st. rewrite callback_classify. unfold classify.
    rewrite Hvalid. reflexivity.
  - intros reason. apply firstObjection_Some.
  - intros Hs. unfold solePropCheck. rewrite Hs. reflexivity.
Qed.

Lemma checkStateRestrictions_throws c l :
  (exists e, checkStateRestrictions l c = Throw e) <->
  Str.truthy (restrictionText l) = true
  /\ Str.truthy (Str.trim (state c)) = true
  /\ tableGet reverseStateMap (stateKey c) = Inherited.
Proof.
  unfold checkStateRestrictions, getFullStateName, restrictionText, stateKey.
  destruct (Str.truthy (Val.toString _)); cbn [negb];
    [|split; [intros [e E]; discriminate|intros (E & _); discriminate]].
  destruct (Str.truthy (Str.trim (state c))); cbn [negb].
  - destruct (tableGet reverseStateMap _) as [name| |].
    + split; [|intros (_ & _ & E); discriminate].
      intros [e E]. exfalso. revert E. split_ifs; discriminate.
    + split; [intros _; repeat split|intros _; eexists; reflexivity].
    + split; [|intros (_ & _ & E); discriminate].
      intros [e E]. exfalso. revert E. split_ifs; discriminate.
  - split; [|intros (_ & E & _); discriminate].
    intros [e E]. exfalso. revert E. split_ifs; discriminate.
Qed.

Lemma checkStateRestrictions_chain c l :
  (exists e, firstObjection ruleChain l c = Throw e) <->
  positionCheck l c = Ok None
  /\ checkCustomRestrictions l c = None
  /\ exists e, checkStateRestrictions l c = Throw e.
Proof.
  cbn [firstObjection ruleChain]. unfold positionCheck, pureCheck, solePropCheck.
  destruct (positionRule _ _ c) as [r|].
  { split; [intros [e E]; discriminate|intros (E & _); discriminate]. }
  destruct (checkCustomRestrictions l c) as [r|].
  { split; [intros [e E]; discriminate|intros (_ & E & _); discriminate]. }
  destruct (checkStateRestrictions l c) as [[r|]|e].
  - split; [intros [e E]; discriminate|intros (_ & _ & e & E); discriminate].
  - split; [|intros (_ & _ & e & E); discriminate].
    intros [e E]. exfalso.
    destruct (if isSoleProp c then checkSolePropRestrictions l else None);
      [discriminate|].
    destruct (checkIndustryRestrictions l c); [discriminate|].
    destruct (checkMinimumRequirements l c); discriminate.
  - split; [intros _; repeat split; exists e; reflexivity|].
    intros _. exists e. reflexivity.
Qed.


(** C9: a pass leaves the rows as they were.  The callback returns the
    store with the same row objects, whatever the row; the loop, which
    reads each row from the store when its turn comes, ends with the rows
    it started with; [processLenders] leaves the globals unchanged, and
    every reference it hands to the presenter denotes a row of the
    unchanged data. *)
Theorem records_unchanged (c : criteria) (g : globals) :
  (forall l index st, rows (callback c l index st) = rows st)
  /\ (forall data,
        rows (forEach (callback c) (List.length data) 0 (initial data)) = data)
  /\ fst (processLenders c g) = g
  /\ match csvData g, snd (processLenders c g) with
     | Some data, DisplayResults qualified _ _ _ =>
         Forall (fun r : ref => r < List.length data) qualified
     | _, _ => True
     end.
Proof.
  split; [|split; [|split]].
  - intros l index st. apply callback_rows.
  - intros data. rewrite forEach_whole, visitAll_rows. reflexivity.
  - unfold processLenders. destruct g as [[data|] debug]; cbn; [|reflexivity].
    destruct data as [|l data]; cbn [List.length Nat.eqb fst]; [reflexivity|].
    change (S (List.length data)) with (List.length (l :: data)).
    rewrite forEach_whole, visitAll_rows. reflexivity.
  - unfold processLenders. destruct (csvData g) as [data|]; [|exact I].
    destruct data as [|l data]; cbn [List.length Nat.eqb snd]; [exact I|].
    change (S (List.length data)) with (List.length (l :: data)).
    rewrite forEach_whole.
    apply (visitAll_refs c (l :: data) 0 (initial (l :: data))). constructor.
Qed.

End PassProperties.

(** C2 at the Lexio scenario: trucking at position 3 is blocked by the
    named-lender rule. *)
Lemma first_objection_wins_witness :
  structurallyInvalid Sample.lexio = false
  /\ callback (H := Sample.host) Sample.trucking3 Sample.lexio 0
       (initial [Sample.lexio])
     = record (NonQualified "Lexio Capital"
                 "Industry - Trucking 1st-2nd position only")
         0 (initial [Sample.lexio]).
Proof.
  split; [reflexivity|].
  rewrite (proj1 (first_objection_wins (H := Sample.host)
                    Sample.trucking3 Sample.lexio eq_refl)).
  reflexivity.
Defined.


(** ** The FICO tolerance *)

Lemma lt_finite (x y : Q) :
  Num.lt (Finite x) (Finite y) = true <-> (x < y)%Q.
Proof.
  cbn. rewrite negb_true_iff. split.
  - intros E. apply Qnot_le_lt. intros Hle.
    apply Qle_bool_iff in Hle. congruence.
  - intros Hlt. destruct (Qle_bool y x) eqn:E; [|reflexivity].
    apply Qle_bool_iff in E. exfalso. exact (Qlt_not_le _ _ Hlt E).
Qed.

(** ** Rounding *)

Lemma roundHalfEven_bounds n d :
  (0 < d)%Z ->
  (2 * n - d <= 2 * Num.roundHalfEven n d * d <= 2 * n + d)%Z.
Proof.
  intros Hd. unfold Num.roundHalfEven.
  pose proof (Z.div_mod n d ltac:(lia)) as Hdm.
  pose proof (Z.mod_pos_bound n d Hd) as Hr.
  destruct (Z.ltb_spec (2 * (n mod d)) d) as [H1|H1]; [nia|].
  destruct (Z.ltb_spec d (2 * (n mod d))) as [H2|H2]; [nia|].
  destruct (Z.even (n / d)); nia.
Qed.

Lemma roundHalfEven_le n d k :
  (0 < d)%Z -> (n <= k * d)%Z -> (Num.roundHalfEven n d <= k)%Z.
Proof. intros Hd Hn. pose proof (roundHalfEven_bounds n d Hd). nia. Qed.

Lemma roundHalfEven_ge n d k :
  (0 < d)%Z -> (k * d <= n)%Z -> (k <= Num.roundHalfEven n d)%Z.
Proof. intros Hd Hn. pose proof (roundHalfEven_bounds n d Hd). nia. Qed.

Lemma roundHalfEven_exact n d k :
  (0 < d)%Z -> n = (k * d)%Z -> Num.roundHalfEven n d = k.
Proof.
  intros Hd ->. apply Z.le_antisymm.
  - apply roundHalfEven_le; lia.
  - apply roundHalfEven_ge; lia.
Qed.

(** [2^e <= p / d < 2^(e+1)] for [e = floorLog2 p d]. *)
Lemma floorLog2_lower p d :
  (0 < p)%Z -> (0 < d)%Z ->
  let e := Num.floorLog2 p d in
  if (0 <=? e)%Z then (d * 2 ^ e <= p)%Z else (d <= p * 2 ^ (- e))%Z.
Proof.
  intros Hp Hd. unfold Num.floorLog2.
  pose proof (Z.log2_spec p Hp) as [Hp1 Hp2].
  pose proof (Z.log2_spec d Hd) as [Hd1 Hd2].
  pose proof (Z.log2_nonneg p) as Hlp. pose proof (Z.log2_nonneg d) as Hld.
  set (lp := Z.log2 p) in *. set (ld := Z.log2 d) in *.
  cbn zeta.
  destruct (Z.leb_spec 0 (lp - ld)) as [He|He].
  - destruct (Z.ltb_spec p (d * 2 ^ (lp - ld))) as [Hc|Hc].
    + destruct (Z.leb_spec 0 (lp - ld - 1)) as [He'|He'].
      * (* d * 2^(e0-1) < 2^(ld+1) * 2^(e0-1) = 2^lp <= p *)
        assert (2 ^ (ld + 1) * 2 ^ (lp - ld - 1) = 2 ^ lp)%Z as E
          by (rewrite <- Z.pow_add_r by lia; f_equal; lia).
        assert (0 < 2 ^ (lp - ld - 1))%Z by (apply Z.pow_pos_nonneg; lia).
        nia.
      * (* e0 = 0: d <= p * 2 *)
        assert (lp = ld) as E by lia. rewrite E in *.
        replace (- (ld - ld - 1))%Z with 1%Z by lia.
        rewrite Z.pow_succ_r in Hd2 by lia. change (2 ^ 1)%Z with 2%Z. lia.
    + destruct (Z.leb_spec 0 (lp - ld)); [exact Hc|lia].
  - destruct (Z.ltb_spec (p * 2 ^ (- (lp - ld))) d) as [Hc|Hc].
    + destruct (Z.leb_spec 0 (lp - ld - 1)); [lia|].
      (* d < 2^(ld+1) = 2^lp * 2^(ld - lp + 1) <= p * 2^(-(e0-1)) *)
      replace (- (lp - ld - 1))%Z with (ld - lp + 1)%Z by lia.
      assert (2 ^ lp * 2 ^ (ld - lp + 1) = 2 ^ (ld + 1))%Z as E
        by (rewrite <- Z.pow_add_r by lia; f_equal; lia).
      assert (0 < 2 ^ (ld - lp + 1))%Z by (apply Z.pow_pos_nonneg; lia).
      nia.
    + destruct (Z.leb_spec 0 (lp - ld)); [lia|exact Hc].
Qed.

Lemma floorLog2_upper p d :
  (0 < p)%Z -> (0 < d)%Z ->
  let e := Num.floorLog2 p d in
  if (0 <=? e + 1)%Z then (p < d * 2 ^ (e + 1))%Z
  else (p * 2 ^ (- (e + 1)) < d)%Z.
Proof.
  intros Hp Hd. unfold Num.floorLog2.
  pose proof (Z.log2_spec p Hp) as [Hp1 Hp2].
  pose proof (Z.log2_spec d Hd) as [Hd1 Hd2].
  pose proof (Z.log2_nonneg p) as Hlp. pose proof (Z.log2_nonneg d) as Hld.
  set (lp := Z.log2 p) in *. set (ld := Z.log2 d) in *.
  cbn zeta.
  destruct (Z.leb_spec 0 (lp - ld)) as [He|He].
  - destruct (Z.ltb_spec p (d * 2 ^ (lp - ld))) as [Hc|Hc].
    + replace (lp - ld - 1 + 1)%Z with (lp - ld)%Z by lia.
      destruct (Z.leb_spec 0 (lp - ld)); [exact Hc|lia].
    + destruct (Z.leb_spec 0 (lp - ld + 1)); [|lia].
      assert (2 ^ ld * 2 ^ (lp - ld + 1) = 2 ^ (lp + 1))%Z as E
        by (rewrite <- Z.pow_add_r by lia; f_equal; lia).
      assert (0 < 2 ^ (lp - ld + 1))%Z by (apply Z.pow_pos_nonneg; lia).
      replace (Z.succ lp) with (lp + 1)%Z in Hp2 by lia. nia.
  - destruct (Z.ltb_spec (p * 2 ^ (- (lp - ld))) d) as [Hc|Hc].
    + replace (lp - ld - 1 + 1)%Z with (lp - ld)%Z by lia.
      destruct (Z.leb_spec 0 (lp - ld)); [lia|].
      replace (- (lp - ld))%Z with (- (lp - ld))%Z by lia. exact Hc.
    + destruct (Z.leb_spec 0 (lp - ld + 1)) as [He'|He'].
      * assert (lp - ld + 1 = 0)%Z as E by lia. rewrite E.
        change (2 ^ 0)%Z with 1%Z.
        (* p < 2^(lp+1) = 2^ld <= d *)
        replace (Z.succ lp) with ld in Hp2 by lia. lia.
      * (* p * 2^(-(e0+1)) < 2^(lp+1) * 2^(ld - lp - 1) = 2^ld <= d *)
        replace (- (lp - ld + 1))%Z with (ld - lp - 1)%Z by lia.
        assert (2 ^ (lp + 1) * 2 ^ (ld - lp - 1) = 2 ^ ld)%Z as E
          by (rewrite <- Z.pow_add_r by lia; f_equal; lia).
        assert (0 < 2 ^ (ld - lp - 1))%Z by (apply Z.pow_pos_nonneg; lia).
        replace (Z.succ lp) with (lp + 1)%Z in Hp2 by lia. nia.
Qed.

Lemma roundPos_fine p d :
  (Num.spacing p d < 0)%Z ->
  Num.roundPos p d
  = Num.roundHalfEven (p * 2 ^ (- Num.spacing p d)) d # Z.to_pos (2 ^ (- Num.spacing p d)).
Proof.
  unfold Num.roundPos. cbn zeta.
  intros H. destruct (Z.leb_spec 0 (Num.spacing p d)); [lia|reflexivity].
Qed.

Lemma roundPos_coarse p d :
  (0 <= Num.spacing p d)%Z ->
  Num.roundPos p d
  = inject_Z (Num.roundHalfEven p (d * 2 ^ Num.spacing p d) * 2 ^ Num.spacing p d).
Proof.
  unfold Num.roundPos. cbn zeta.
  intros H. destruct (Z.leb_spec 0 (Num.spacing p d)); [reflexivity|lia].
Qed.

Lemma to_pos_pow2 k : (0 <= k)%Z -> Zpos (Z.to_pos (2 ^ k)) = (2 ^ k)%Z.
Proof. intros Hk. apply Z2Pos.id. apply Z.pow_pos_nonneg; lia. Qed.

Lemma roundPos_nonneg p d :
  (0 < p)%Z -> (0 < d)%Z -> (0 <= Num.roundPos p d)%Q.
Proof.
  intros Hp Hd. destruct (Z.lt_ge_cases (Num.spacing p d) 0) as [HE|HE].
  - rewrite (roundPos_fine _ _ HE). unfold Qle. cbn [Qnum Qden].
    assert (0 <= Num.roundHalfEven (p * 2 ^ (- Num.spacing p d)) d)%Z.
    { apply roundHalfEven_ge; [exact Hd|].
      assert (0 <= 2 ^ (- Num.spacing p d))%Z by (apply Z.pow_nonneg; lia). nia. }
    lia.
  - rewrite (roundPos_coarse _ _ HE). unfold Qle. cbn [Qnum Qden inject_Z].
    assert (0 < 2 ^ Num.spacing p d)%Z by (apply Z.pow_pos_nonneg; lia).
    assert (0 <= Num.roundHalfEven p (d * 2 ^ Num.spacing p d))%Z.
    { apply roundHalfEven_ge; nia. }
    nia.
Qed.

(** A value at most a whole number below 2^52 is rounded to at most
    that number. *)
Lemma roundPos_le p d f :
  (0 < p)%Z -> (0 < d)%Z -> (0 <= f < 2 ^ 52)%Z -> (p <= f * d)%Z ->
  (Num.roundPos p d <= inject_Z f)%Q.
Proof.
  intros Hp Hd Hf Hle.
  assert (Num.spacing p d < 0)%Z as HE.
  { unfold Num.spacing.
    pose proof (floorLog2_lower p d Hp Hd) as Hl. cbn zeta in Hl.
    destruct (Z.leb_spec 0 (Num.floorLog2 p d)) as [He|He]; [|lia].
    destruct (Z.le_gt_cases 52 (Num.floorLog2 p d)) as [Hbig|]; [|lia].
    exfalso.
    assert (2 ^ 52 <= 2 ^ Num.floorLog2 p d)%Z by (apply Z.pow_le_mono_r; lia).
    nia. }
  rewrite (roundPos_fine _ _ HE). unfold Qle. cbn [Qnum Qden inject_Z].
  rewrite to_pos_pow2 by lia.
  assert (0 < 2 ^ (- Num.spacing p d))%Z by (apply Z.pow_pos_nonneg; lia).
  assert (Num.roundHalfEven (p * 2 ^ (- Num.spacing p d)) d
          <= f * 2 ^ (- Num.spacing p d))%Z.
  { apply roundHalfEven_le; [exact Hd|]. nia. }
  lia.
Qed.

(** From 2^53 on the rounded value is at least 2^52. *)
Lemma roundPos_big p d :
  (0 < p)%Z -> (0 < d)%Z -> (0 <= Num.spacing p d)%Z ->
  (inject_Z (2 ^ 52) <= Num.roundPos p d)%Q.
Proof.
  intros Hp Hd HE. rewrite (roundPos_coarse _ _ HE).
  rewrite <- Zle_Qle.
  assert (Num.floorLog2 p d = Num.spacing p d + 52)%Z as He by (unfold Num.spacing in *; lia).
  pose proof (floorLog2_lower p d Hp Hd) as Hl. cbn zeta in Hl.
  destruct (Z.leb_spec 0 (Num.floorLog2 p d)); [|lia].
  rewrite He, Z.pow_add_r in Hl by lia.
  assert (0 < 2 ^ Num.spacing p d)%Z by (apply Z.pow_pos_nonneg; lia).
  assert (2 ^ 52 <= Num.roundHalfEven p (d * 2 ^ Num.spacing p d))%Z.
  { apply roundHalfEven_ge; nia. }
  nia.
Qed.

(** A value on the Num.grid of its Num.spacing is not changed. *)
Lemma roundPos_exact p d :
  (0 < p)%Z -> (0 < d)%Z -> (Num.spacing p d < 0)%Z ->
  (d | 2 ^ (- Num.spacing p d))%Z ->
  (Num.roundPos p d == p # Z.to_pos d)%Q.
Proof.
  intros Hp Hd HE [c Hc].
  rewrite (roundPos_fine _ _ HE). unfold Qeq. cbn [Qnum Qden].
  rewrite to_pos_pow2 by lia. rewrite Z2Pos.id by exact Hd.
  rewrite (roundHalfEven_exact _ d (p * c)) by (try exact Hd; rewrite Hc; ring).
  rewrite Hc. ring.
Qed.

(** The significand has at most 53 bits. *)
Lemma roundPos_significand p d :
  (0 < p)%Z -> (0 < d)%Z -> (Num.spacing p d < 0)%Z ->
  (0 <= Num.roundHalfEven (p * 2 ^ (- Num.spacing p d)) d <= 2 ^ 53)%Z.
Proof.
  intros Hp Hd HE.
  assert (0 < 2 ^ (- Num.spacing p d))%Z as Hpow by (apply Z.pow_pos_nonneg; lia).
  split; [apply roundHalfEven_ge; nia|].
  apply roundHalfEven_le; [exact Hd|].
  pose proof (floorLog2_upper p d Hp Hd) as Hu. cbn zeta in Hu.
  assert (Num.floorLog2 p d - 52 <= Num.spacing p d)%Z as Hs by (unfold Num.spacing; lia).
  set (e := Num.floorLog2 p d) in *. set (E := Num.spacing p d) in *.
  destruct (Z.leb_spec 0 (e + 1)) as [He|He].
  - (* p < d * 2^(e+1), and 2^(e+1) * 2^(-E) <= 2^53 *)
    assert (2 ^ (e + 1) * 2 ^ (- E) <= 2 ^ 53)%Z.
    { rewrite <- Z.pow_add_r by lia. apply Z.pow_le_mono_r; lia. }
    assert (0 < 2 ^ (e + 1))%Z by (apply Z.pow_pos_nonneg; lia).
    nia.
  - (* p * 2^(-(e+1)) < d, and 2^(-E) <= 2^(-(e+1)) * 2^53 *)
    assert (2 ^ (- E) <= 2 ^ (- (e + 1)) * 2 ^ 53)%Z.
    { rewrite <- Z.pow_add_r by lia. apply Z.pow_le_mono_r; lia. }
    assert (0 < 2 ^ (- (e + 1)))%Z by (apply Z.pow_pos_nonneg; lia).
    nia.
Qed.

(** ** The values of binary64 *)

Lemma Qred_coprime q : Z.gcd (Qnum (Qred q)) (Zpos (Qden (Qred q))) = 1%Z.
Proof. apply Qred_identity2. apply Qred_involutive. Qed.

Lemma Qred_den_divide q : (Zpos (Qden (Qred q)) | Zpos (Qden q))%Z.
Proof.
  pose proof (Qred_correct q) as E. unfold Qeq in E.
  apply (Z.gauss _ (Qnum (Qred q))).
  - exists (Qnum q). rewrite E. ring.
  - rewrite Z.gcd_comm. apply Qred_coprime.
Qed.

Lemma grid_Qred q : Num.grid q -> Num.grid (Qred q).
Proof.
  intros [Hone|(k & Hk & Hdiv & Hle)].
  - left. pose proof (Qred_den_divide q) as Hdiv. rewrite Hone in Hdiv.
    apply Z.divide_1_r_nonneg; [lia|exact Hdiv].
  - right. exists k. split; [exact Hk|]. split.
    + eapply Z.divide_trans; [apply Qred_den_divide|exact Hdiv].
    + pose proof (Qred_correct q) as E. unfold Qeq in E.
      assert (Z.abs (Qnum (Qred q)) * Zpos (Qden q)
              = Z.abs (Qnum q) * Zpos (Qden (Qred q)))%Z as E'.
      { apply (f_equal Z.abs) in E. rewrite !Z.abs_mul in E.
        rewrite (Z.abs_eq (Zpos (Qden q))) in E by lia.
        rewrite (Z.abs_eq (Zpos (Qden (Qred q)))) in E by lia. exact E. }
      assert (0 < Zpos (Qden q))%Z by reflexivity.
      assert (0 < Zpos (Qden (Qred q)))%Z by reflexivity.
      assert (0 <= 2 ^ k)%Z by (apply Z.pow_nonneg; lia).
      nia.
Qed.

Lemma grid_opp q : Num.grid q -> Num.grid (- q).
Proof.
  intros [Hone|(k & Hk & Hdiv & Hle)]; [left; exact Hone|].
  right. exists k. cbn [Qopp Qnum Qden]. rewrite Z.abs_opp. auto.
Qed.

Lemma grid_roundPos p d :
  (0 < p)%Z -> (0 < d)%Z -> Num.grid (Num.roundPos p d).
Proof.
  intros Hp Hd. destruct (Z.lt_ge_cases (Num.spacing p d) 0) as [HE|HE].
  - rewrite (roundPos_fine _ _ HE). right. exists (- Num.spacing p d)%Z.
    cbn [Qnum Qden]. rewrite to_pos_pow2 by lia.
    pose proof (roundPos_significand p d Hp Hd HE) as [H0 H53].
    split; [lia|]. split; [exists 1%Z; ring|].
    rewrite Z.abs_eq by exact H0.
    assert (0 < 2 ^ (- Num.spacing p d))%Z by (apply Z.pow_pos_nonneg; lia). nia.
  - rewrite (roundPos_coarse _ _ HE). left. reflexivity.
Qed.

Lemma grid_round64 q : Num.grid (Num.round64 q).
Proof.
  unfold Num.round64. destruct (Qnum q) as [|p|p].
  - left. reflexivity.
  - apply grid_roundPos; reflexivity.
  - apply grid_opp, grid_roundPos; reflexivity.
Qed.

Lemma ofExact_grid q m : Num.ofExact q = Finite m -> Num.grid m.
Proof.
  unfold Num.ofExact.
  destruct (Qle_bool Num.overflowBound (Qabs q));
    [destruct (Qle_bool 0 q); discriminate|].
  destruct (Qle_bool (Qabs q) Num.underflowBound).
  - intros [= <-]. left. reflexivity.
  - intros [= <-]. apply grid_Qred, grid_round64.
Qed.

Lemma applySign_grid b n m :
  (forall q, n = Finite q -> Num.grid q) ->
  Num.applySign b n = Finite m -> Num.grid m.
Proof.
  intros Hn. destruct b; cbn [Num.applySign]; [|apply Hn].
  destruct n as [| | |q]; try discriminate.
  intros [= <-]. apply grid_Qred, grid_opp, Hn. reflexivity.
Qed.

Lemma parseUnsignedDecimal_grid s n rest m :
  Num.parseUnsignedDecimal s = Some (n, rest) -> n = Finite m -> Num.grid m.
Proof.
  unfold Num.parseUnsignedDecimal, Num.decimalValue.
  destruct (String.prefix "Infinity" s); [intros [= <- _]; discriminate|].
  destruct (Num.span Char.isDigit s) as [intPart r1].
  destruct r1 as [|c r2].
  - destruct (Str.isEmpty intPart); [discriminate|].
    intros [= <- _]. apply ofExact_grid.
  - destruct (Num.isChar 46 c).
    + destruct (Num.span Char.isDigit r2) as [fracPart r3].
      destruct (Str.isEmpty intPart && Str.isEmpty fracPart); [discriminate|].
      destruct (Num.parseExponent r3) as [e r4].
      intros [= <- _]. apply ofExact_grid.
    + destruct (Str.isEmpty intPart); [discriminate|].
      destruct (Num.parseExponent (String c r2)) as [e r4].
      intros [= <- _]. apply ofExact_grid.
Qed.

(** What [parseFloat] reads is a binary64 value. *)
Lemma parseFloat_grid s m : Num.parseFloat s = Finite m -> Num.grid m.
Proof.
  unfold Num.parseFloat, Num.parseDecimalPrefix.
  destruct (Num.parseSign (Str.trimStart s)) as [negative t].
  destruct (Num.parseUnsignedDecimal t) as [[n0 r]|] eqn:E; [|discriminate].
  apply applySign_grid. intros q Hq.
  exact (parseUnsignedDecimal_grid _ _ _ _ E Hq).
Qed.

(** A positive value on the binary64 Num.grid less a positive whole number,
    when above a whole number [f], is rounded to a value above [f]. *)
Lemma roundPos_gt (m : Q) (t f p : Z) :
  Num.grid m -> (0 < t)%Z -> (0 < f < 2 ^ 52)%Z ->
  (0 < p)%Z -> p = (Qnum m - t * Zpos (Qden m))%Z ->
  (f * Zpos (Qden m) < p)%Z ->
  (inject_Z f < Num.roundPos p (Zpos (Qden m)))%Q.
Proof.
  intros Hgrid Ht Hf Hp Hnum Hlt.
  set (d := Zpos (Qden m)) in *.
  assert (0 < d)%Z as Hd by reflexivity.
  destruct (Z.lt_ge_cases (Num.spacing p d) 0) as [HE|HE].
  - assert (d | 2 ^ (- Num.spacing p d))%Z as Hdiv.
    { destruct Hgrid as [Hone|(k & Hk & Hdiv & Hle)].
      - fold d in Hone. rewrite Hone. apply Z.divide_1_l.
      - fold d in Hdiv, Hle.
        assert (0 <= Num.floorLog2 p d)%Z as He.
        { pose proof (floorLog2_upper p d Hp Hd) as Hu. cbn zeta in Hu.
          destruct (Z.le_gt_cases 0 (Num.floorLog2 p d)) as [|Hneg]; [assumption|].
          exfalso. destruct (Z.leb_spec 0 (Num.floorLog2 p d + 1)).
          - assert (Num.floorLog2 p d + 1 = 0)%Z as E0 by lia.
            rewrite E0 in Hu. change (2 ^ 0)%Z with 1%Z in Hu. nia.
          - assert (0 < 2 ^ (- (Num.floorLog2 p d + 1)))%Z
              by (apply Z.pow_pos_nonneg; lia).
            nia. }
        assert (Num.spacing p d = Num.floorLog2 p d - 52)%Z as HsE
          by (unfold Num.spacing; lia).
        assert (k <= - Num.spacing p d)%Z as Hk'.
        { pose proof (floorLog2_lower p d Hp Hd) as Hl. cbn zeta in Hl.
          destruct (Z.leb_spec 0 (Num.floorLog2 p d)); [|lia].
          destruct (Z.le_gt_cases k (- Num.spacing p d)) as [|Hgt]; [assumption|].
          exfalso.
          assert (0 < Qnum m)%Z as Hm by nia.
          rewrite Z.abs_eq in Hle by lia.
          assert (2 ^ 53 <= 2 ^ (Num.floorLog2 p d + k))%Z as Hpow
            by (apply Z.pow_le_mono_r; lia).
          rewrite Z.pow_add_r in Hpow by lia.
          assert (0 < 2 ^ k)%Z by (apply Z.pow_pos_nonneg; lia).
          assert (0 < 2 ^ Num.floorLog2 p d)%Z by (apply Z.pow_pos_nonneg; lia).
          assert (d * 2 ^ Num.floorLog2 p d * 2 ^ k < 2 ^ 53 * d)%Z by nia.
          nia. }
        eapply Z.divide_trans; [exact Hdiv|].
        exists (2 ^ (- Num.spacing p d - k))%Z.
        rewrite <- Z.pow_add_r by lia. f_equal. lia. }
    pose proof (roundPos_exact p d Hp Hd HE Hdiv) as Hx.
    rewrite Hx. unfold Qlt. cbn [Qnum Qden inject_Z].
    rewrite Z2Pos.id by exact Hd. lia.
  - eapply Qlt_le_trans; [|apply (roundPos_big p d Hp Hd HE)].
    rewrite <- Zlt_Qlt. lia.
Qed.

Lemma inject_Z_nonneg f : (0 <= f)%Z -> (0 <= inject_Z f)%Q.
Proof. intros H. unfold Qle. cbn [Qnum Qden inject_Z]. lia. Qed.

Lemma Qminus_whole (m : Q) (t : Z) :
  Qnum (m - inject_Z t) = (Qnum m - t * Zpos (Qden m))%Z
  /\ Zpos (Qden (m - inject_Z t)) = Zpos (Qden m).
Proof.
  unfold Qminus, Qplus, Qopp, inject_Z. cbn [Qnum Qden].
  split; [ring|]. rewrite Pos.mul_1_r. reflexivity.
Qed.

(** The comparison of a whole number with a binary64 value less a whole
    number is the comparison of the exact values. *)
Lemma lt_sub_whole (m : Q) (t f : Z) :
  Num.grid m -> (0 < t)%Z -> (0 < f < 2 ^ 52)%Z ->
  Num.lt (Num.ofZ f) (Num.sub (Finite m) (Num.ofZ t)) = true
  <-> (inject_Z f < m - inject_Z t)%Q.
Proof.
  intros Hgrid Ht Hf. unfold Num.sub, Num.ofZ, Num.ofExact.
  destruct (Qminus_whole m t) as [Hnum Hden].
  set (x := (m - inject_Z t)%Q) in *.
  assert (inject_Z f < inject_Z (2 ^ 52))%Q as Hf52 by (rewrite <- Zlt_Qlt; lia).
  assert (inject_Z (2 ^ 52) < Num.overflowBound)%Q as Hover
    by (unfold Num.overflowBound; rewrite <- Zlt_Qlt; reflexivity).
  destruct (Qle_bool Num.overflowBound (Qabs x)) eqn:Hov.
  { apply Qle_bool_iff in Hov.
    destruct (Qle_bool 0 x) eqn:Hs.
    - apply Qle_bool_iff in Hs. rewrite Qabs_pos in Hov by exact Hs.
      split; [intros _|reflexivity].
      eapply Qlt_le_trans; [|exact Hov]. eapply Qlt_trans; eassumption.
    - split; [discriminate|]. intros Hlt. exfalso.
      assert (0 <= x)%Q as H0.
      { apply Qlt_le_weak. eapply Qle_lt_trans; [|exact Hlt].
        apply inject_Z_nonneg. lia. }
      apply Qle_bool_iff in H0. congruence. }
  destruct (Qle_bool (Qabs x) Num.underflowBound) eqn:Hun.
  { apply Qle_bool_iff in Hun. split.
    - intros E. exfalso. unfold Num.zero in E. apply lt_finite in E.
      revert E. change 0%Q with (inject_Z 0). rewrite <- Zlt_Qlt. lia.
    - intros Hlt. exfalso.
      assert (x <= Num.underflowBound)%Q as Hx
        by (eapply Qle_trans; [apply Qle_Qabs|exact Hun]).
      assert (Num.underflowBound < inject_Z f)%Q as Hu.
      { unfold Num.underflowBound, Qlt. cbn [Qnum Qden inject_Z].
        assert (1 < Zpos (2 ^ 1075))%Z by reflexivity. nia. }
      exact (Qlt_irrefl _ (Qlt_trans _ _ _ Hlt (Qle_lt_trans _ _ _ Hx Hu))). }
  rewrite lt_finite.
  pose proof (Qlt_compat _ _ (Qeq_refl (inject_Z f)) _ _
                (Qred_correct (Num.round64 x))) as R.
  rewrite R. clear R.
  unfold Num.round64.
  destruct (Qnum x) as [|p|p] eqn:Hp.
  - split; intros Hlt; exfalso; revert Hlt; unfold Qlt; cbn [Qnum Qden inject_Z];
      rewrite ?Hp; lia.
  - rewrite Hden.
    assert (x == Zpos p # Z.to_pos (Zpos (Qden m)))%Q as Hx.
    { unfold Qeq. cbn [Qnum Qden]. rewrite Hp, Pos2Z.id, Hden. reflexivity. }
    split.
    + intros Hlt.
      destruct (Z.le_gt_cases (Zpos p) (f * Zpos (Qden m))) as [Hle|Hgt].
      * exfalso. apply (Qlt_irrefl (inject_Z f)).
        eapply Qlt_le_trans; [exact Hlt|].
        apply roundPos_le; [reflexivity|reflexivity|lia|exact Hle].
      * unfold Qlt. cbn [Qnum Qden inject_Z]. rewrite Hp, Hden. lia.
    + intros Hlt. unfold Qlt in Hlt. cbn [Qnum Qden inject_Z] in Hlt.
      rewrite Hp, Hden in Hlt.
      apply (roundPos_gt m t f (Zpos p)); try assumption; try reflexivity; lia.
  - split; intros Hlt; exfalso.
    + pose proof (roundPos_nonneg (Zpos p) (Zpos (Qden x)) eq_refl eq_refl) as Hr.
      apply (Qlt_irrefl (inject_Z f)).
      eapply Qlt_le_trans; [exact Hlt|].
      apply Qle_trans with 0%Q.
      * apply (Qopp_le_compat 0) in Hr. exact Hr.
      * apply inject_Z_nonneg. lia.
    + revert Hlt. unfold Qlt. cbn [Qnum Qden inject_Z]. rewrite Hp. lia.
Qed.

(** ** Whole numbers *)

Lemma Qred_inject z : Qred (inject_Z z) = inject_Z z.
Proof. apply Qred_identity. cbn. apply Z.gcd_1_r. Qed.

Lemma Qred_whole n k : (0 < k)%Z -> Qred (n * k # Z.to_pos k) = inject_Z n.
Proof.
  intros Hk. rewrite <- (Qred_inject n). apply Qred_complete.
  unfold Qeq. cbn [Qnum Qden inject_Z]. rewrite Z2Pos.id by exact Hk. ring.
Qed.

Lemma floorLog2_whole p : (0 < p)%Z -> Num.floorLog2 p 1 = Z.log2 p.
Proof.
  intros Hp. unfold Num.floorLog2. change (Z.log2 1) with 0%Z.
  rewrite Z.sub_0_r. pose proof (Z.log2_nonneg p) as Hl.
  pose proof (Z.log2_spec p Hp) as [Hlo _].
  destruct (Z.leb_spec 0 (Z.log2 p)); [|lia].
  destruct (Z.ltb_spec p (1 * 2 ^ Z.log2 p)); [lia|reflexivity].
Qed.

(** The rounding of a whole number is a whole number. *)
Lemma roundPos_whole p :
  (0 < p)%Z -> exists z, Qred (Num.roundPos p 1) = inject_Z z.
Proof.
  intros Hp. destruct (Z.lt_ge_cases (Num.spacing p 1) 0) as [HE|HE].
  - rewrite (roundPos_fine _ _ HE). exists p.
    rewrite (roundHalfEven_exact _ 1 (p * 2 ^ (- Num.spacing p 1))) by lia.
    apply Qred_whole. apply Z.pow_pos_nonneg; lia.
  - rewrite (roundPos_coarse _ _ HE). eexists. apply Qred_inject.
Qed.

Lemma round64_whole z : exists z', Qred (Num.round64 (inject_Z z)) = inject_Z z'.
Proof.
  unfold Num.round64. cbn [Qnum Qden inject_Z]. destruct z as [|p|p].
  - exists 0%Z. reflexivity.
  - apply roundPos_whole. reflexivity.
  - destruct (roundPos_whole (Zpos p) eq_refl) as [z Hz].
    exists (- z)%Z. rewrite Qred_opp, Hz. reflexivity.
Qed.

(** A whole number up to 2^53 is a binary64 value. *)
Lemma roundPos_safe p :
  (0 < p <= 2 ^ 53)%Z -> Qred (Num.roundPos p 1) = inject_Z p.
Proof.
  intros Hp.
  assert (Z.log2 p <= 53)%Z as Hlog
    by (change 53%Z with (Z.log2 (2 ^ 53)); apply Z.log2_le_mono; lia).
  assert (Num.spacing p 1 = Z.max (Z.log2 p - 52) (-1074)) as Hs
    by (unfold Num.spacing; rewrite floorLog2_whole by lia; reflexivity).
  destruct (Z.lt_ge_cases (Num.spacing p 1) 0) as [HE|HE].
  - rewrite (roundPos_fine _ _ HE).
    rewrite (roundHalfEven_exact _ 1 (p * 2 ^ (- Num.spacing p 1))) by lia.
    apply Qred_whole. apply Z.pow_pos_nonneg; lia.
  - rewrite (roundPos_coarse _ _ HE), Qred_inject. f_equal.
    assert (Num.spacing p 1 = 0 \/ Num.spacing p 1 = 1)%Z as [E|E] by lia;
      rewrite E.
    + rewrite (roundHalfEven_exact _ _ p) by (change (2 ^ 0)%Z with 1%Z; lia).
      change (2 ^ 0)%Z with 1%Z. lia.
    + assert (p = 2 ^ 53)%Z as ->.
      { pose proof (Z.log2_spec p ltac:(lia)) as [Hlo _].
        assert (Z.log2 p = 53)%Z as E53 by lia. rewrite E53 in Hlo. lia. }
      rewrite (roundHalfEven_exact _ _ (2 ^ 52)) by reflexivity. reflexivity.
Qed.

Lemma round64_safe z :
  (- 2 ^ 53 <= z <= 2 ^ 53)%Z -> Qred (Num.round64 (inject_Z z)) = inject_Z z.
Proof.
  intros Hz. unfold Num.round64. cbn [Qnum Qden inject_Z]. destruct z as [|p|p].
  - reflexivity.
  - apply roundPos_safe. lia.
  - rewrite Qred_opp, roundPos_safe by lia. reflexivity.
Qed.

(** C3: with a parseable threshold [m], the binary64 value the code
    reads, the FICO clause blocks a score from 1 up to 2^52, in
    particular one in the validated range 300 to 850, exactly when the
    score is below [m - 20]: the rounding of the subtraction does not
    move the result across a whole number.  It never blocks when
    [Min_FICO] is absent or unparseable.  A threshold of 700 lets 680
    pass and blocks 679, and a row without [Min_FICO] does not block a
    score of 300.  When the two earlier clauses pass, the result of
    [checkMinimumRequirements] is that of the FICO clause. *)
Theorem fico_tolerance `{Host} (l : lender) (c : criteria) :
  match Val.parseFloat (getProp l "Min_FICO") with
  | Finite m =>
      (0 < fico c < 2 ^ 52)%Z ->
      (is_Some (checkMinFico l c) <-> (inject_Z (fico c) < m - 20)%Q)
  | PosInf => is_Some (checkMinFico l c)
  | NegInf => checkMinFico l c = None
  | NaN => checkMinFico l c = None
  end
  /\ (l !! "Min_FICO" = None -> checkMinFico l c = None)
  /\ (checkMinTib l c = None -> checkMinRevenue l c = None ->
      checkMinimumRequirements l c = checkMinFico l c)
  /\ checkMinFico Sample.fico700 (Sample.merchant 2 680 "TX" "retail") = None
  /\ checkMinFico Sample.fico700 (Sample.merchant 2 679 "TX" "retail")
     = Some "FICO - Min 700 (with 20pt tolerance)"
  /\ checkMinFico Sample.noFico (Sample.merchant 2 300 "TX" "retail") = None.
Proof.
  split; [|split; [|split; [|repeat split; vm_compute; reflexivity]]].
  - unfold checkMinFico.
    destruct (Val.parseFloat (getProp l "Min_FICO")) as [| | |m] eqn:Hm;
      try reflexivity; [eexists; reflexivity|].
    intros Hf. cbn [Num.isNaN negb andb].
    apply parseFloat_grid in Hm.
    pose proof (lt_sub_whole m 20 (fico c) Hm ltac:(lia) Hf) as E.
    destruct (Num.lt _ _).
    + split; [intros _; apply E; reflexivity|intros _; eexists; reflexivity].
    + split; [intros [r Hr]; discriminate|].
      intros Hlt. apply E in Hlt. discriminate.
  - intros Habs. unfold checkMinFico, getProp. rewrite Habs. reflexivity.
  - intros Ht Hr. unfold checkMinimumRequirements. rewrite Ht, Hr. reflexivity.
Qed.

(** C3 at the threshold 700 and the score 680. *)
Lemma fico_tolerance_witness :
  Val.parseFloat (getProp Sample.fico700 "Min_FICO") = Finite (inject_Z 700)
  /\ (0 < fico (Sample.merchant 2 680 "TX" "retail") < 2 ^ 52)%Z
  /\ (is_Some (checkMinFico Sample.fico700
                 (Sample.merchant 2 680 "TX" "retail"))
      <-> (inject_Z 680 < inject_Z 700 - 20)%Q).
Proof.
  assert (Val.parseFloat (getProp Sample.fico700 "Min_FICO")
          = Finite (inject_Z 700)) as E by (vm_compute; reflexivity).
  assert (0 < fico (Sample.merchant 2 680 "TX" "retail") < 2 ^ 52)%Z as Hf
    by (cbn; lia).
  destruct (fico_tolerance (H := Sample.host) Sample.fico700
              (Sample.merchant 2 680 "TX" "retail")) as [P _].
  rewrite E in P.
  split; [exact E|]. split; [exact Hf|exact (P Hf)].
Defined.

(** ** Quoted fields *)

(** C5: the line [Sample.line] (Acme, a quoted field with a comma, and a
    quoted field with doubled quotes around hi) has the three fields
    [Acme], [Smith, and Co] and [He said "hi"], and as the data
    row of a table it gives a record with these three strings.  In the
    scan a quote outside quotes opens a quoted part; inside quotes two
    quotes in a row give one quote character and any other quote closes
    the part; a comma splits the field outside quotes only. *)
Theorem quoted_fields :
  fields Sample.line = Sample.lineFields
  /\ (exists row,
        parseCSV Sample.table = Ok [row]
        /\ List.map (getProp row) ["Lender Name"; "Contact"; "Note"]
           = List.map VString Sample.lineFields)
  /\ (forall rest row current,
        parseLine (String Char.quote rest) row current false
        = parseLine rest row current true)
  /\ (forall rest row current,
        parseLine (String Char.quote (String Char.quote rest)) row current true
        = parseLine rest row (Str.snoc current Char.quote) true)
  /\ (forall c rest row current,
        Char.eqb c Char.quote = false ->
        parseLine (String Char.quote (String c rest)) row current true
        = parseLine (String c rest) row current false)
  /\ (forall rest row current,
        parseLine (String Char.comma rest) row current true
        = parseLine rest row (Str.snoc current Char.comma) true)
  /\ (forall rest row current,
        parseLine (String Char.comma rest) row current false
        = parseLine rest (row ++ [Str.trim current])%list EmptyString false).
Proof.
  split; [vm_compute; reflexivity|].
  split; [eexists; split; vm_compute; reflexivity|].
  split; [intros [|c rest] row current; reflexivity|].
  split; [reflexivity|].
  split; [intros c rest row current Hc; cbn [parseLine]; rewrite Hc; reflexivity|].
  split; reflexivity.
Qed.

(** ** State round trip *)

(** C6: there are 50 state codes, all different, and for each of them
    [getFullStateName] returns a name that [normalizeState] maps back to
    the code. *)
Theorem state_round_trip :
  List.length stateCodes = 50
  /\ NoDup stateCodes
  /\ forall code, code ∈ stateCodes ->
       exists name,
         getFullStateName code = Ok name
         /\ normalizeState name = NString code.
Proof.
  split; [reflexivity|]. split.
  - apply (bool_decide_unpack _). vm_compute. exact I.
  - intros code Hin.
    assert (forallb roundTrips stateCodes = true) as Hall
      by (vm_compute; reflexivity).
    rewrite forallb_forall in Hall.
    apply list_elem_of_In in Hin. specialize (Hall code Hin).
    unfold roundTrips in Hall.
    destruct (getFullStateName code) as [name|]; [|discriminate].
    exists name. split; [reflexivity|].
    destruct (normalizeState name) as [code'|]; [|discriminate].
    apply String.eqb_eq in Hall. congruence.
Qed.

(** ** Lines and the parse failure *)

Lemma trimEnd_nonblank c t :
  Char.isWhiteSpace c = false -> Str.isEmpty (Str.trimEnd (String c t)) = false.
Proof. intros Hc. cbn. rewrite Hc. reflexivity. Qed.

Lemma trim_truthy line : Str.truthy (Str.trim line) = negb (isBlank line).
Proof.
  unfold Str.trim, Str.truthy, isBlank.
  induction line as [|c t IH]; [reflexivity|].
  cbn [Str.trimStart Str.all].
  destruct (Char.isWhiteSpace c) eqn:Hc; [exact IH|].
  rewrite trimEnd_nonblank by exact Hc. reflexivity.
Qed.

Lemma nonBlankLines_meaningful text : nonBlankLines text = meaningfulLines text.
Proof.
  unfold nonBlankLines, meaningfulLines.
  induction (Str.splitLines text EmptyString) as [|l ls IH]; [reflexivity|].
  cbn [List.filter]. rewrite trim_truthy, IH. reflexivity.
Qed.

Lemma splitAnyStyle_splitLines s :
  (forall cur, loneCR s = false -> splitAnyStyle s cur = Str.splitLines s cur)
  /\ (forall c cur, loneCR (String c s) = false ->
        splitAnyStyle (String c s) cur = Str.splitLines (String c s) cur).
Proof.
  induction s as [|c2 t2 IH].
  - split; [reflexivity|]. intros c cur. cbn [loneCR splitAnyStyle Str.splitLines].
    destruct (Char.eqb c Char.LF); [reflexivity|].
    destruct (Char.eqb c Char.CR); [discriminate|reflexivity].
  - destruct IH as [IH1 IH2].
    assert (forall c cur, loneCR (String c (String c2 t2)) = false ->
              splitAnyStyle (String c (String c2 t2)) cur
              = Str.splitLines (String c (String c2 t2)) cur) as Hstep.
    { intros c cur. cbn [loneCR].
      change (splitAnyStyle (String c (String c2 t2)) cur)
        with (if Char.eqb c Char.LF
              then cur :: splitAnyStyle (String c2 t2) EmptyString
              else if Char.eqb c Char.CR then
                     if Char.eqb c2 Char.LF
                     then cur :: splitAnyStyle t2 EmptyString
                     else cur :: splitAnyStyle (String c2 t2) EmptyString
                   else splitAnyStyle (String c2 t2) (Str.snoc cur c)).
      change (Str.splitLines (String c (String c2 t2)) cur)
        with (if Char.eqb c Char.LF
              then cur :: Str.splitLines (String c2 t2) EmptyString
              else if Char.eqb c Char.CR && Char.eqb c2 Char.LF
                   then cur :: Str.splitLines t2 EmptyString
                   else Str.splitLines (String c2 t2) (Str.snoc cur c)).
      destruct (Char.eqb c Char.LF) eqn:Hlf.
      - assert (Char.eqb c Char.CR = false) as ->.
        { unfold Char.eqb in *. apply Ascii.eqb_eq in Hlf. subst c. reflexivity. }
        intros E. rewrite (IH2 c2 EmptyString E). reflexivity.
      - destruct (Char.eqb c Char.CR).
        + destruct (Char.eqb c2 Char.LF); [|discriminate].
          intros E. cbn [andb]. rewrite (IH1 EmptyString E). reflexivity.
        + intros E. cbn [andb]. apply IH2. exact E. }
    split; [intros cur; apply IH2|].
    intros c cur. apply Hstep.
Qed.

(** C7, amended: [parseCSV] throws exactly when the text has fewer than
    2 non-blank lines, a line ending at LF or at CR LF, and the error is
    the only thing it gives then; with 2 or more it returns the list of
    records.  For a text without a lone CR these are the lines under
    any line-ending style. *)
Theorem parse_fails_iff (text : string) :
  (parseCSV text = Throw tooFewLines <-> List.length (meaningfulLines text) < 2)
  /\ ((exists data, parseCSV text = Ok data) <-> 2 <= List.length (meaningfulLines text))
  /\ (forall e, parseCSV text = Throw e -> e = tooFewLines)
  /\ (loneCR text = false -> meaningfulLinesAsWritten text = meaningfulLines text).
Proof.
  split; [|split; [|split]]; cycle 3.
  { intros Hcr. unfold meaningfulLinesAsWritten, meaningfulLines.
    rewrite (proj1 (splitAnyStyle_splitLines text) EmptyString Hcr). reflexivity. }
  all: unfold parseCSV, parseBody; rewrite nonBlankLines_meaningful;
    destruct (Nat.ltb_spec (List.length (meaningfulLines text)) 2) as [Hlt|Hge].
  - cbn [message]. split; intros; [assumption|reflexivity].
  - destruct (List.map fields (meaningfulLines text)); split; try discriminate; lia.
  - split; [intros [data E]; discriminate|lia].
  - destruct (List.map fields (meaningfulLines text));
      (split; [intros _; exact Hge|intros _; eexists; reflexivity]).
  - intros e [= <-]. reflexivity.
  - destruct (List.map fields (meaningfulLines text)); intros e; discriminate.
Qed.

(** C7 as stated fails: [Sample.macText] has three non-blank lines that
    end at a lone CR; the parser sees one line and throws. *)
Lemma parse_fails_counterexample :
  List.length (meaningfulLinesAsWritten Sample.macText) = 3
  /\ parseCSV Sample.macText = Throw tooFewLines.
Proof. split; vm_compute; reflexivity. Qed.


(** ** Cells *)

Lemma isChar_eq n c : (n < 256)%N -> Num.isChar n c = true -> c = ascii_of_N n.
Proof.
  unfold Num.isChar, Char.code. intros Hn E. apply N.eqb_eq in E.
  rewrite <- E. symmetry. apply ascii_N_embedding.
Qed.

Lemma trimEnd_idem s : Str.trimEnd (Str.trimEnd s) = Str.trimEnd s.
Proof.
  induction s as [|c t IH]; [reflexivity|].
  cbn [Str.trimEnd].
  destruct (Char.isWhiteSpace c && Str.isEmpty (Str.trimEnd t)) eqn:E; [reflexivity|].
  cbn [Str.trimEnd]. rewrite IH, E. reflexivity.
Qed.

Lemma trimStart_trimEnd s :
  Str.trimStart (Str.trimEnd (Str.trimStart s)) = Str.trimEnd (Str.trimStart s).
Proof.
  induction s as [|c t IH]; [reflexivity|].
  cbn [Str.trimStart]. destruct (Char.isWhiteSpace c) eqn:Hc; [exact IH|].
  cbn [Str.trimEnd]. rewrite Hc. cbn [andb Str.trimStart]. rewrite Hc. reflexivity.
Qed.

Lemma trimStart_trim s : Str.trimStart (Str.trim s) = Str.trim s.
Proof. apply trimStart_trimEnd. Qed.

Lemma trim_idem s : Str.trim (Str.trim s) = Str.trim s.
Proof.
  unfold Str.trim at 1. rewrite trimStart_trim. unfold Str.trim.
  apply trimEnd_idem.
Qed.

Lemma ofExact_notNaN q : Num.isNaN (Num.ofExact q) = false.
Proof. unfold Num.ofExact, Num.zero. split_ifs; reflexivity. Qed.




Lemma parseRadix_notNaN s n : Num.parseRadix s = Some n -> Num.isNaN n = false.
Proof.
  unfold Num.parseRadix.
  destruct s as [|z [|r ds]]; try discriminate.
  split_ifs; try discriminate; intros [= <-]; apply ofExact_notNaN.
Qed.

Lemma parseRadix_parseFloat s n :
  Num.parseRadix s = Some n -> Num.parseFloat s = Num.zero.
Proof.
  unfold Num.parseRadix.
  destruct s as [|z [|r ds]]; try discriminate.
  destruct (Num.isChar 48 z) eqn:Hz; [|discriminate].
  apply isChar_eq in Hz; [|reflexivity]. subst z.
  destruct (negb (Str.isEmpty ds)); [|discriminate]. cbn [andb].
  destruct (Num.isChar 120 r) eqn:H1;
    [apply isChar_eq in H1; [subst r; intros _; reflexivity|reflexivity]|].
  destruct (Num.isChar 88 r) eqn:H2;
    [apply isChar_eq in H2; [subst r; intros _; reflexivity|reflexivity]|].
  destruct (Num.isChar 111 r) eqn:H3;
    [apply isChar_eq in H3; [subst r; intros _; reflexivity|reflexivity]|].
  destruct (Num.isChar 79 r) eqn:H4;
    [apply isChar_eq in H4; [subst r; intros _; reflexivity|reflexivity]|].
  destruct (Num.isChar 98 r) eqn:H5;
    [apply isChar_eq in H5; [subst r; intros _; reflexivity|reflexivity]|].
  destruct (Num.isChar 66 r) eqn:H6;
    [apply isChar_eq in H6; [subst r; intros _; reflexivity|reflexivity]|].
  discriminate.
Qed.

Lemma Qred_zero q : Qeq_bool (Qred q) 0 = true -> Qred q = 0%Q.
Proof.
  intros E. apply Qeq_bool_iff in E. apply Qred_complete in E.
  rewrite Qred_involutive in E. exact E.
Qed.

Lemma ofExact_zero q : Num.isZero (Num.ofExact q) = true -> Num.ofExact q = Num.zero.
Proof.
  unfold Num.ofExact, Num.zero. split_ifs; try discriminate; try reflexivity.
  cbn. intros E. rewrite (Qred_zero _ E). reflexivity.
Qed.

Lemma applySign_zero b n :
  (Num.isZero n = true -> n = Num.zero) ->
  Num.isZero (Num.applySign b n) = true -> Num.applySign b n = Num.zero.
Proof.
  destruct b; [|exact (fun X => X)].
  destruct n as [| | |q]; cbn; try discriminate.
  intros _ E. rewrite (Qred_zero _ E). reflexivity.
Qed.

Lemma parseUnsignedDecimal_zero s n rest :
  Num.parseUnsignedDecimal s = Some (n, rest) ->
  Num.isZero n = true -> n = Num.zero.
Proof.
  unfold Num.parseUnsignedDecimal, Num.decimalValue.
  destruct (String.prefix "Infinity" s); [intros [= <- _]; discriminate|].
  destruct (Num.span Char.isDigit s) as [intPart r1].
  destruct r1 as [|c r2].
  - destruct (Str.isEmpty intPart); [discriminate|].
    intros [= <- _]. apply ofExact_zero.
  - destruct (Num.isChar 46 c).
    + destruct (Num.span Char.isDigit r2) as [fracPart r3].
      destruct (Str.isEmpty intPart && Str.isEmpty fracPart); [discriminate|].
      destruct (Num.parseExponent r3) as [e r4].
      intros [= <- _]. apply ofExact_zero.
    + destruct (Str.isEmpty intPart); [discriminate|].
      destruct (Num.parseExponent (String c r2)) as [e r4].
      intros [= <- _]. apply ofExact_zero.
Qed.

Lemma parseDecimalPrefix_zero s n rest :
  Num.parseDecimalPrefix s = Some (n, rest) ->
  Num.isZero n = true -> n = Num.zero.
Proof.
  unfold Num.parseDecimalPrefix.
  destruct (Num.parseSign s) as [negative t].
  destruct (Num.parseUnsignedDecimal t) as [[n0 r]|] eqn:E; [|discriminate].
  intros [= <- _]. apply applySign_zero.
  exact (parseUnsignedDecimal_zero _ _ _ E).
Qed.

Lemma isEmpty_true s : Str.isEmpty s = true -> s = EmptyString.
Proof. destruct s; [reflexivity|discriminate]. Qed.

Lemma eqb_empty s : String.eqb s EmptyString = Str.isEmpty s.
Proof. destruct s; reflexivity. Qed.

Lemma convertCell_text cell :
  convertCell cell =
  let t := cellText cell in
  if Str.truthy t && negb (Num.isNaN (Num.ofString t))
     && negb (String.eqb t EmptyString)
  then
    let num := Num.parseFloat t in
    if negb (Num.isNaN num) && Num.isFinite num then VNumber num else VString t
  else VString t.
Proof.
  unfold convertCell, cellText.
  destruct cell as [[|c s]|]; reflexivity.
Qed.

Lemma buildRow_other headers cells h : forall index row,
  h ∉ headers -> buildRow headers index cells row !! h = row !! h.
Proof.
  induction headers as [|header rest IH]; intros index row Hh; cbn [buildRow].
  - reflexivity.
  - apply not_elem_of_cons in Hh as [Hne Hrest].
    rewrite IH by exact Hrest. apply lookup_insert_ne. congruence.
Qed.

(** The cell stored under a header is the converted cell of the last
    column of that name. *)
Lemma buildRow_lookup headers cells h : forall start row index,
  headers !! index = Some h ->
  h ∉ drop (S index) headers ->
  buildRow headers start cells row !! h
  = Some (convertCell (cells !! (start + index))).
Proof.
  induction headers as [|header rest IH]; intros start row index Hi Hlast.
  - discriminate.
  - cbn [buildRow]. destruct index as [|index].
    + injection Hi as ->. cbn in Hlast. rewrite drop_0 in Hlast.
      rewrite buildRow_other by exact Hlast.
      rewrite lookup_insert_eq, Nat.add_0_r. reflexivity.
    + cbn in Hi, Hlast. rewrite (IH (S start) _ index Hi Hlast).
      do 3 f_equal. lia.
Qed.

Lemma buildData_filter headers rows :
  buildData headers rows
  = List.filter hasLenderName
      (List.map (fun cells => buildRow headers 0 cells ∅) rows).
Proof.
  induction rows as [|cells rest IH]; [reflexivity|].
  cbn [buildData List.map List.filter]. rewrite IH. reflexivity.
Qed.


(** A non-empty trimmed text that converts to zero is stored as the
    number zero. *)
Lemma convertCell_zero s :
  Str.trim s <> EmptyString ->
  Num.isZero (Num.ofString (Str.trim s)) = true ->
  convertCell (Some s) = VNumber Num.zero.
Proof.
  intros Hne Hzero. rewrite convertCell_text. cbn zeta.
  change (cellText (Some s)) with (Str.trim s).
  assert (Str.trim (Str.trim s) = Str.trim s) as Htrim by apply trim_idem.
  assert (Str.trimStart (Str.trim s) = Str.trim s) as Hstart
    by apply trimStart_trim.
  set (t := Str.trim s) in *.
  rewrite eqb_empty. unfold Str.truthy, Num.parseFloat.
  unfold Num.ofString in *. rewrite Htrim in *. rewrite Hstart.
  destruct (Str.isEmpty t) eqn:Ht.
  { apply isEmpty_true in Ht. contradiction. }
  cbn [negb andb].
  destruct (Num.parseRadix t) as [n|] eqn:Hr.
  { rewrite (parseRadix_notNaN _ _ Hr). cbn [negb andb].
    pose proof (parseRadix_parseFloat _ _ Hr) as Hz.
    unfold Num.parseFloat in Hz. rewrite Hstart in Hz. rewrite Hz.
    reflexivity. }
  destruct (Num.parseDecimalPrefix t) as [[n rest]|] eqn:Hd; [|discriminate].
  destruct (Str.isEmpty rest); [|discriminate].
  rewrite (parseDecimalPrefix_zero _ _ _ Hd Hzero). reflexivity.
Qed.

(** C10: when the cell under "Lender Name" trims to a non-empty text that
    parses entirely as the number 0, the parser stores the number 0 for
    it and drops the row; the rows it keeps are exactly those whose
    stored name is truthy and, as a string, trims to a non-empty one. *)
Theorem zero_name_discarded (headers cells : list string)
    (rest : list (list string)) (index : nat) (s : string) :
  headers !! index = Some "Lender Name" ->
  "Lender Name" ∉ drop (S index) headers ->
  cells !! index = Some s ->
  Str.trim s <> EmptyString ->
  Num.isZero (Num.ofString (Str.trim s)) = true ->
  getProp (buildRow headers 0 cells ∅) "Lender Name" = VNumber Num.zero
  /\ buildData headers (cells :: rest) = buildData headers rest
  /\ (forall rows,
        buildData headers rows
        = List.filter
            (fun row =>
               Val.truthy (getProp row "Lender Name")
               && Str.truthy
                    (Str.trim (Val.toString (getProp row "Lender Name"))))
            (List.map (fun cells => buildRow headers 0 cells ∅) rows)).
Proof.
  intros Hi Hlast Hcell Hne Hzero.
  assert (getProp (buildRow headers 0 cells ∅) "Lender Name" = VNumber Num.zero)
    as Hget.
  { unfold getProp.
    rewrite (buildRow_lookup headers cells _ 0 ∅ index Hi Hlast).
    cbn [Nat.add default]. rewrite Hcell. apply convertCell_zero; assumption. }
  split; [exact Hget|]. split.
  - cbn [buildData]. unfold hasLenderName. rewrite Hget. reflexivity.
  - intros rows. apply buildData_filter.
Qed.

(** C10 at the row [0,1,5] under the headers [Lender Name,pos_min,pos_max]. *)
Lemma zero_name_discarded_witness :
  Sample.zeroHeaders !! 0 = Some "Lender Name"
  /\ ("Lender Name" ∉ drop 1 Sample.zeroHeaders)
  /\ Sample.zeroCells !! 0 = Some "0"
  /\ Str.trim "0" <> EmptyString
  /\ Num.isZero (Num.ofString (Str.trim "0")) = true
  /\ getProp (buildRow Sample.zeroHeaders 0 Sample.zeroCells ∅) "Lender Name"
     = VNumber Num.zero
  /\ buildData Sample.zeroHeaders [Sample.zeroCells] = [].
Proof.
  assert (Sample.zeroHeaders !! 0 = Some "Lender Name") as H1 by reflexivity.
  assert ("Lender Name" ∉ drop 1 Sample.zeroHeaders) as H2
    by (apply (bool_decide_unpack _); vm_compute; exact I).
  assert (Sample.zeroCells !! 0 = Some "0") as H3 by reflexivity.
  assert (Str.trim "0" <> EmptyString) as H4 by discriminate.
  assert (Num.isZero (Num.ofString (Str.trim "0")) = true) as H5 by reflexivity.
  destruct (zero_name_discarded Sample.zeroHeaders Sample.zeroCells [] 0 "0"
              H1 H2 H3 H4 H5) as (R1 & R2 & _).
  repeat split; assumption.
Defined.

(** ** A run from text to buckets *)

Example pass_on_sample_table :
  exists data,
    parseCSV Sample.lenders = Ok data
    /\ List.length data = 4
    /\ snd (processLenders (H := Sample.host) Sample.trucking3
              {| csvData := Some data; debugMode := false |})
       = DisplayResults [0]
           [NonQualified.make "Lexio Capital"
              "Industry - Trucking 1st-2nd position only"]
           2 [].
Proof. eexists. repeat split; vm_compute; reflexivity. Qed.

(** * Further properties *)

From Stdlib Require Import Sorted.
From Stdlib Require DecimalPos DecimalN.

(** ** Strings *)
Lemma includes_empty s : Str.includes s EmptyString = true.
Proof. destruct s; reflexivity. Qed.

Lemma toLower_whiteSpace c : Char.isWhiteSpace (Char.toLower c) = Char.isWhiteSpace c.
Proof. destruct c as [[] [] [] [] [] [] [] []]; reflexivity. Qed.

Lemma toLower_idem c : Char.toLower (Char.toLower c) = Char.toLower c.
Proof. destruct c as [[] [] [] [] [] [] [] []]; reflexivity. Qed.

Lemma toLowerCase_idem s : Str.toLowerCase (Str.toLowerCase s) = Str.toLowerCase s.
Proof.
  induction s as [|c t IH]; [reflexivity|].
  cbn [Str.toLowerCase Str.map]. rewrite toLower_idem.
  f_equal. exact IH.
Qed.

Lemma toLowerCase_isEmpty s : Str.isEmpty (Str.toLowerCase s) = Str.isEmpty s.
Proof. destruct s; reflexivity. Qed.

Lemma toLowerCase_trimStart s :
  Str.toLowerCase (Str.trimStart s) = Str.trimStart (Str.toLowerCase s).
Proof.
  induction s as [|c t IH]; [reflexivity|].
  cbn [Str.trimStart Str.toLowerCase Str.map]. rewrite toLower_whiteSpace.
  destruct (Char.isWhiteSpace c); [exact IH|reflexivity].
Qed.

Lemma toLowerCase_trimEnd s :
  Str.toLowerCase (Str.trimEnd s) = Str.trimEnd (Str.toLowerCase s).
Proof.
  induction s as [|c t IH]; [reflexivity|].
  cbn [Str.trimEnd Str.toLowerCase Str.map]. fold (Str.toLowerCase t).
  rewrite toLower_whiteSpace, <- IH, toLowerCase_isEmpty.
  destruct (Char.isWhiteSpace c && Str.isEmpty (Str.trimEnd t)); reflexivity.
Qed.

Lemma toLowerCase_trim s : Str.toLowerCase (Str.trim s) = Str.trim (Str.toLowerCase s).
Proof. unfold Str.trim. rewrite toLowerCase_trimEnd, toLowerCase_trimStart. reflexivity. Qed.

(** X1: [normalizeState] does not see letter case or surrounding white
    space: trimming or lowercasing its argument changes nothing. *)
Theorem normalizeState_insensitive (s : string) :
  normalizeState (Str.trim s) = normalizeState s
  /\ normalizeState (Str.toLowerCase s) = normalizeState s.
Proof.
  split.
  - unfold normalizeState, Str.truthy.
    destruct (Str.isEmpty s) eqn:Hs.
    { apply isEmpty_true in Hs. subst s. reflexivity. }
    cbn [negb]. rewrite toLowerCase_trim, trim_idem.
    destruct (Str.isEmpty (Str.trim s)) eqn:Ht; [|reflexivity].
    cbn [negb]. apply isEmpty_true in Ht.
    rewrite <- toLowerCase_trim, Ht. reflexivity.
  - unfold normalizeState, Str.truthy.
    rewrite toLowerCase_isEmpty, toLowerCase_idem. reflexivity.
Qed.

(** ** Names to codes and back *)
(** X2: every full name of the table is normalised to its code, and the
    full name [getFullStateName] gives for that code is the name again,
    up to letter case. *)
Theorem state_names_round_trip (name code : string) :
  (name, code) ∈ stateList ->
  normalizeState name = NString code
  /\ exists full, getFullStateName code = Ok full /\ Str.toLowerCase full = name.
Proof.
  intros Hin.
  assert (forallb nameRoundTrips stateList = true) as Hall by (vm_compute; reflexivity).
  rewrite forallb_forall in Hall. apply list_elem_of_In in Hin.
  specialize (Hall _ Hin). unfold nameRoundTrips in Hall. cbn [fst snd] in Hall.
  destruct (normalizeState name) as [code'|]; [|discriminate].
  apply andb_true_iff in Hall as [Hc Hn]. apply String.eqb_eq in Hc. subst code'.
  split; [reflexivity|].
  destruct (getFullStateName code) as [full|]; [|discriminate].
  apply String.eqb_eq in Hn. exists full. split; [reflexivity|exact Hn].
Qed.

(** ** Inclusive position bounds *)
Lemma lt_finite' (x y : Q) : Num.lt (Finite x) (Finite y) = false <-> (y <= x)%Q.
Proof.
  cbn. rewrite negb_false_iff. apply Qle_bool_iff.
Qed.

(** X3: with finite bounds the position test passes exactly when the
    requested position lies between them, both ends included; bounds in
    the wrong order block every position. *)
Theorem position_bounds_inclusive (posMin posMax : Q) (c : criteria) :
  (positionRule (Finite posMin) (Finite posMax) c = None
   <-> (posMin <= inject_Z (requestedPosition c) <= posMax)%Q)
  /\ ((posMax < posMin)%Q ->
      positionRule (Finite posMin) (Finite posMax) c <> None).
Proof.
  assert (positionRule (Finite posMin) (Finite posMax) c = None
          <-> (posMin <= inject_Z (requestedPosition c) <= posMax)%Q) as Hiff.
  { unfold positionRule, Num.gt, Num.ofZ. split.
    - destruct (Num.lt (Finite (inject_Z (requestedPosition c))) (Finite posMin))
        eqn:E1; [discriminate|].
      destruct (Num.lt (Finite posMax) (Finite (inject_Z (requestedPosition c))))
        eqn:E2; [discriminate|].
      intros _. split; apply lt_finite'; assumption.
    - intros [H1 H2]. apply lt_finite' in H1, H2. rewrite H1, H2. reflexivity. }
  split; [exact Hiff|].
  intros Hlt Hnone. apply Hiff in Hnone as [H1 H2].
  exact (Qlt_not_le _ _ Hlt (Qle_trans _ _ _ H1 H2)).
Qed.

(** ** Monotone minimum requirements *)
Lemma lt_ofZ_mono (a b : Z) (m : number) :
  (a <= b)%Z -> Num.lt (Num.ofZ a) m = false -> Num.lt (Num.ofZ b) m = false.
Proof.
  intros Hab. destruct m as [| | |q]; cbn; try congruence.
  rewrite !negb_false_iff. intros E. apply Qle_bool_iff in E. apply Qle_bool_iff.
  eapply Qle_trans; [exact E|]. rewrite <- Zle_Qle. exact Hab.
Qed.

Lemma clause_mono (n : bool) (a b : Z) (m : number) :
  (a <= b)%Z ->
  negb n && Num.lt (Num.ofZ a) m = false ->
  negb n && Num.lt (Num.ofZ b) m = false.
Proof.
  intros Hab. destruct n; cbn [negb andb]; [reflexivity|].
  apply lt_ofZ_mono. exact Hab.
Qed.

(** X4: a merchant who meets the minimum requirements of a lender still
    meets them with a longer time in business, a higher revenue and a
    higher score. *)
Theorem minimum_requirements_monotone `{Host} (l : lender) (c c' : criteria) :
  (tib c <= tib c')%Z ->
  (monthlyRevenue c <= monthlyRevenue c')%Z ->
  (fico c <= fico c')%Z ->
  checkMinimumRequirements l c = None ->
  checkMinimumRequirements l c' = None.
Proof.
  intros Ht Hr Hf.
  unfold checkMinimumRequirements, checkMinTib, checkMinRevenue, checkMinFico.
  destruct (negb (Num.isNaN (Val.parseFloat (getProp l "Min_TIB_Months")))
            && Num.lt (Num.ofZ (tib c)) _) eqn:E1; [discriminate|].
  destruct (negb (Num.isNaN (Val.parseFloat (getProp l "Min_Monthly_Revenue")))
            && Num.lt (Num.ofZ (monthlyRevenue c)) _) eqn:E2; [discriminate|].
  destruct (negb (Num.isNaN (Val.parseFloat (getProp l "Min_FICO")))
            && Num.lt (Num.ofZ (fico c)) _) eqn:E3; [discriminate|].
  intros _.
  rewrite (clause_mono _ _ _ _ Ht E1), (clause_mono _ _ _ _ Hr E2),
    (clause_mono _ _ _ _ Hf E3).
  reflexivity.
Qed.

(** ** Industry keywords *)
Lemma firstKeywordHit_exists keywords prohibited :
  firstKeywordHit keywords prohibited = true <->
  Str.includes prohibited "case by case" = false
  /\ exists keyword, keyword ∈ keywords
       /\ (3 < Str.length keyword)%nat
       /\ Str.includes prohibited keyword = true.
Proof.
  induction keywords as [|k rest IH]; cbn [firstKeywordHit].
  - split; [discriminate|]. intros (_ & k & Hk & _). inversion Hk.
  - destruct ((3 <? Str.length k)%nat && Str.includes prohibited k
              && negb (Str.includes prohibited "case by case")) eqn:E.
    + split; [intros _|reflexivity].
      apply andb_true_iff in E as [E E3]. apply andb_true_iff in E as [E1 E2].
      apply negb_true_iff in E3. apply Nat.ltb_lt in E1.
      split; [exact E3|]. exists k. repeat split; [left|lia|exact E2].
    + rewrite IH. split.
      * intros (Hc & k' & Hk' & Hlen & Hinc). split; [exact Hc|].
        exists k'. repeat split; [right; exact Hk'|lia|exact Hinc].
      * intros (Hc & k' & Hk' & Hlen & Hinc). split; [exact Hc|].
        exists k'. repeat split; try assumption.
        apply elem_of_cons in Hk' as [->|Hk']; [|exact Hk'].
        exfalso. apply Nat.ltb_lt in Hlen.
        rewrite Hlen, Hinc, Hc in E. discriminate.
Qed.

(** X5: the industry check blocks exactly when the prohibited text does
    not contain "case by case" and contains one of the merchant's
    industry keywords of more than 3 characters; the reason is then the
    prohibited text as it stands in the row. *)
Theorem industry_block_iff (l : lender) (c : criteria) :
  (checkIndustryRestrictions l c
   = Some ("Industry - " +:+ Val.toString (getProp l "Prohibited_Industries"))
   <-> Str.includes (prohibitedText l) "case by case" = false
       /\ exists keyword, keyword ∈ industryKeywords c
            /\ (3 < Str.length keyword)%nat
            /\ Str.includes (prohibitedText l) keyword = true)
  /\ (checkIndustryRestrictions l c = None
      \/ checkIndustryRestrictions l c
         = Some ("Industry - " +:+ Val.toString (getProp l "Prohibited_Industries"))).
Proof.
  unfold checkIndustryRestrictions. fold (prohibitedText l). fold (industryKeywords c).
  pose proof (firstKeywordHit_exists (industryKeywords c) (prohibitedText l)) as Hk.
  destruct (Str.truthy (prohibitedText l)) eqn:Ht; cbn [negb].
  - destruct (firstKeywordHit (industryKeywords c) (prohibitedText l)).
    + split; [|right; reflexivity]. split; [intros _; apply Hk; reflexivity|reflexivity].
    + split; [|left; reflexivity]. split; [discriminate|].
      intros X. apply Hk in X. discriminate.
  - split; [|left; reflexivity]. split; [discriminate|].
    intros (_ & k & _ & Hlen & Hinc). exfalso.
    unfold Str.truthy in Ht. apply negb_false_iff in Ht. apply isEmpty_true in Ht.
    rewrite Ht in Hinc. destruct k; [cbn in Hlen; lia|discriminate].
Qed.

(** ** State check on unknown states *)

(** X6: for a merchant state that is blank or is not a known code, the
    state check is a verbatim, case-sensitive substring test of the
    trimmed state against the restriction text, unless the state,
    trimmed and lowercased, names a property that [reverseStateMap]
    inherits: then the check throws for every row with restriction
    text.  A blank state is found in every text. *)
Theorem state_check_verbatim (l : lender) (c : criteria) :
  (Str.trim (state c) = EmptyString
   \/ tableGet reverseStateMap (stateKey c) = Missing ->
   checkStateRestrictions l c
   = (if Str.isEmpty (restrictionText l) then Ok None
      else if Str.includes (restrictionText l) (Str.trim (state c))
      then Ok (Some ("State - " +:+ restrictionText l))
      else Ok None))
  /\ (Str.trim (state c) <> EmptyString ->
      tableGet reverseStateMap (stateKey c) = Inherited ->
      checkStateRestrictions l c
      = (if Str.isEmpty (restrictionText l) then Ok None
         else Throw (TypeError "reverseStateMap[lower].split is not a function")))
  /\ (Str.trim (state c) = EmptyString ->
      Str.includes (restrictionText l) (Str.trim (state c)) = true).
Proof.
  split; [|split; [|intros ->; apply includes_empty]].
  - intros Hkey.
    unfold checkStateRestrictions, getFullStateName.
    fold (restrictionText l). fold (stateKey c). unfold Str.truthy.
    destruct (Str.isEmpty (restrictionText l)); cbn [negb]; [reflexivity|].
    destruct (Str.isEmpty (Str.trim (state c))) eqn:Hs; cbn [negb].
    + apply isEmpty_true in Hs. rewrite Hs, includes_empty. reflexivity.
    + destruct Hkey as [Hblank|Hmiss]; [rewrite Hblank in Hs; discriminate|].
      rewrite Hmiss, orb_diag. reflexivity.
  - intros Hne Hinh.
    unfold checkStateRestrictions, getFullStateName.
    fold (restrictionText l). fold (stateKey c). unfold Str.truthy.
    destruct (Str.isEmpty (restrictionText l)); cbn [negb]; [reflexivity|].
    destruct (Str.isEmpty (Str.trim (state c))) eqn:Hs; cbn [negb].
    + apply isEmpty_true in Hs. contradiction.
    + rewrite Hinh. reflexivity.
Qed.

(** ** Plain lines *)
Lemma splitAt_nonempty sep s cur : Str.splitAt sep s cur <> [].
Proof.
  revert cur. induction s as [|c t IH]; intros cur; cbn; [discriminate|].
  destruct (sep c); [discriminate|apply IH].
Qed.

Lemma append_cons a s t : String a s +:+ t = String a (s +:+ t).
Proof. reflexivity. Qed.

Lemma append_snoc cur c rest :
  (Str.snoc cur c +:+ rest) = (cur +:+ String c rest).
Proof.
  unfold Str.snoc. induction cur as [|a cur IH]; [reflexivity|].
  rewrite !append_cons. f_equal. exact IH.
Qed.

Lemma append_empty s : s +:+ EmptyString = s.
Proof.
  induction s as [|a s IH]; [reflexivity|].
  rewrite append_cons. f_equal. exact IH.
Qed.

Lemma parseLine_prefix before : forall tail row cur,
  noQuotes before = true ->
  parseLine (before +:+ tail) row cur false
  = parseLine tail
      (row ++ List.map Str.trim (removelast (Str.splitAt isComma before cur)))%list
      (List.last (Str.splitAt isComma before cur) EmptyString) false.
Proof.
  induction before as [|c t IH]; intros tail row cur Hq.
  - cbn. rewrite app_nil_r. reflexivity.
  - cbn [noQuotes Str.all] in Hq. apply andb_true_iff in Hq as [Hc Ht].
    apply negb_true_iff in Hc.
    change (String c t +:+ tail) with (String c (t +:+ tail)).
    cbn [parseLine Str.splitAt]. rewrite Hc.
    change (Char.eqb c Char.comma) with (isComma c).
    destruct (isComma c); cbn [andb negb].
    + rewrite (IH _ _ _ Ht).
      pose proof (splitAt_nonempty isComma t EmptyString) as Hne.
      destruct (Str.splitAt isComma t EmptyString) as [|p ps];
        [contradiction|].
      cbn [removelast List.last List.map]. rewrite <- app_assoc. reflexivity.
    + apply (IH _ _ _ Ht).
Qed.

Lemma parseLine_open rest : forall row cur,
  noQuotes rest = true ->
  parseLine rest row cur true = (row ++ [Str.trim (cur +:+ rest)])%list.
Proof.
  induction rest as [|c t IH]; intros row cur Hq.
  - cbn [parseLine]. rewrite append_empty. reflexivity.
  - cbn [noQuotes Str.all] in Hq. apply andb_true_iff in Hq as [Hc Ht].
    apply negb_true_iff in Hc. cbn [parseLine]. rewrite Hc.
    rewrite andb_false_r. rewrite (IH _ _ Ht), append_snoc. reflexivity.
Qed.

(** X7: a line without quotes splits at its commas into trimmed fields;
    after a quote that is never closed the rest of the line, commas
    included, stays in the field that was open. *)
Theorem plain_and_open_fields (before rest : string) :
  noQuotes before = true ->
  noQuotes rest = true ->
  fields before = List.map Str.trim (Str.splitAt isComma before EmptyString)
  /\ fields (before +:+ String Char.quote rest)
     = (List.map Str.trim (removelast (Str.splitAt isComma before EmptyString))
        ++ [Str.trim (List.last (Str.splitAt isComma before EmptyString) EmptyString
                      +:+ rest)])%list.
Proof.
  intros Hb Hr. unfold fields. split.
  - pose proof (parseLine_prefix before EmptyString [] EmptyString Hb) as E.
    rewrite append_empty in E. rewrite E. cbn [parseLine app].
    pose proof (splitAt_nonempty isComma before EmptyString) as Hne.
    rewrite (app_removelast_last EmptyString Hne) at 3.
    rewrite List.map_app. reflexivity.
  - rewrite (parseLine_prefix before _ [] EmptyString Hb). cbn [app].
    cbn [parseLine]. change (Char.eqb Char.quote Char.quote) with true. cbn iota.
    destruct rest as [|c t]; cbn [andb negb]; apply (parseLine_open _ _ _ Hr).
Qed.

(** ** Shape of parsed rows *)
Lemma parseCSV_inv text data :
  parseCSV text = Ok data ->
  exists header lines,
    meaningfulLines text = header :: lines
    /\ lines <> []
    /\ data = buildData (headersOf text) (List.map fields lines).
Proof.
  unfold parseCSV, parseBody, headersOf. rewrite nonBlankLines_meaningful.
  destruct (meaningfulLines text) as [|header [|l lines]]; cbn; try discriminate.
  intros [= <-]. exists header, (l :: lines). repeat split. discriminate.
Qed.

Lemma parseCSV_lines text :
  match parseCSV text with
  | Ok _ => 2 <= List.length (meaningfulLines text)
  | Throw _ => List.length (meaningfulLines text) < 2
  end.
Proof.
  unfold parseCSV, parseBody. rewrite nonBlankLines_meaningful.
  destruct (Nat.ltb_spec (List.length (meaningfulLines text)) 2) as [Hlt|Hge];
    [exact Hlt|].
  destruct (List.map fields (meaningfulLines text)); exact Hge.
Qed.

Lemma convertCell_storable cell : storable (convertCell cell) = true.
Proof.
  rewrite convertCell_text. cbn zeta.
  destruct (_ && _ && _); [|reflexivity].
  destruct (Num.parseFloat (cellText cell)); reflexivity.
Qed.

Lemma buildRow_dom headers cells : forall index (row : lender),
  dom (buildRow headers index cells row) = list_to_set headers ∪ dom row.
Proof.
  induction headers as [|h rest IH]; intros index row; cbn [buildRow list_to_set].
  - set_solver.
  - rewrite IH, dom_insert_L. set_solver.
Qed.

Lemma buildRow_storable headers cells : forall index (row : lender),
  map_Forall (fun _ v => storable v = true) row ->
  map_Forall (fun _ v => storable v = true) (buildRow headers index cells row).
Proof.
  induction headers as [|h rest IH]; intros index row Hrow; cbn [buildRow].
  - exact Hrow.
  - apply IH. apply map_Forall_insert_2; [apply convertCell_storable|exact Hrow].
Qed.

Lemma buildData_elem headers rows row :
  row ∈ buildData headers rows ->
  hasLenderName row = true
  /\ exists cells, cells ∈ rows /\ row = buildRow headers 0 cells ∅.
Proof.
  rewrite buildData_filter. intros Hin. apply list_elem_of_In in Hin.
  apply filter_In in Hin as [Hin Hname]. split; [exact Hname|].
  apply in_map_iff in Hin as (cells & <- & Hc).
  exists cells. split; [apply list_elem_of_In; exact Hc|reflexivity].
Qed.

(** X8: when no column is named [__proto__], every record the parser
    returns has exactly the column names of the header line as its keys,
    and each of its cells is a string or a finite number. *)
Theorem parsed_rows_columns (text : string) (data : list lender) (row : lender) :
  "__proto__" ∉ headersOf text ->
  parseCSV text = Ok data ->
  row ∈ data ->
  dom row = list_to_set (headersOf text)
  /\ map_Forall (fun _ v => storable v = true) row.
Proof.
  intros _ Hparse Hrow.
  destruct (parseCSV_inv _ _ Hparse) as (header & lines & _ & _ & ->).
  apply buildData_elem in Hrow as (_ & cells & _ & ->). split.
  - rewrite buildRow_dom. set_solver.
  - apply buildRow_storable. apply map_Forall_empty.
Qed.

Lemma hasLenderName_name row :
  hasLenderName row = true ->
  lenderNameOf row <> EmptyString /\ is_Some (row !! "Lender Name").
Proof.
  unfold hasLenderName, lenderNameOf, Val.orElse, getProp.
  intros E. apply andb_true_iff in E as [Ht Hn]. rewrite Ht. split.
  - intros X. rewrite X in Hn. discriminate.
  - destruct (row !! "Lender Name"); [eexists; reflexivity|discriminate].
Qed.

(** X9: the parser returns fewer records than the text has non-blank
    lines, each with a lender name that the pass reads as non-blank, and
    none at all when no column is named "Lender Name". *)
Theorem parsed_rows_named (text : string) (data : list lender) :
  parseCSV text = Ok data ->
  List.length data < List.length (meaningfulLines text)
  /\ (forall row, row ∈ data -> lenderNameOf row <> EmptyString)
  /\ ("Lender Name" ∉ headersOf text -> data = []).
Proof.
  intros Hparse.
  destruct (parseCSV_inv _ _ Hparse) as (header & lines & Hm & _ & ->).
  split; [|split].
  - rewrite Hm, buildData_filter. cbn [List.length].
    apply Nat.lt_succ_r.
    etransitivity; [apply List.filter_length_le|].
    rewrite !List.length_map. reflexivity.
  - intros row Hrow. apply buildData_elem in Hrow as (Hname & _).
    apply (hasLenderName_name _ Hname).
  - intros Hno. destruct (buildData _ _) as [|row rest] eqn:E; [reflexivity|].
    exfalso. apply Hno.
    assert (row ∈ buildData (headersOf text) (List.map fields lines)) as Hrow
      by (rewrite E; left).
    pose proof (buildData_elem _ _ _ Hrow) as (Hname & cells & _ & Hr).
    apply hasLenderName_name in Hname as [_ Hkey].
    apply elem_of_dom in Hkey. rewrite Hr, buildRow_dom in Hkey. set_solver.
Qed.

(** ** Short and long rows *)
Lemma buildRow_agree headers cells cells' : forall start (row : lender),
  (forall k, start <= k < start + List.length headers -> cells !! k = cells' !! k) ->
  buildRow headers start cells row = buildRow headers start cells' row.
Proof.
  induction headers as [|h rest IH]; intros start row Hk; cbn [buildRow].
  - reflexivity.
  - cbn [List.length] in Hk. rewrite (Hk start) by lia.
    apply IH. intros k Hr. apply Hk. lia.
Qed.

(** X10: a row shorter than the header gets the empty string in the
    columns it lacks, a column named [__proto__] apart, and cells beyond
    the last header are dropped. *)
Theorem ragged_rows (headers cells : list string) :
  (forall h index,
     h <> "__proto__" ->
     headers !! index = Some h ->
     h ∉ drop (S index) headers ->
     List.length cells <= index ->
     buildRow headers 0 cells ∅ !! h = Some (VString EmptyString))
  /\ (forall extra,
        List.length headers <= List.length cells ->
        buildRow headers 0 (cells ++ extra)%list ∅ = buildRow headers 0 cells ∅).
Proof.
  split.
  - intros h index _ Hi Hlast Hshort.
    rewrite (buildRow_lookup headers cells h 0 ∅ index Hi Hlast).
    cbn [Nat.add]. rewrite (lookup_ge_None_2 cells index) by lia. reflexivity.
  - intros extra Hlen. apply buildRow_agree. intros k Hk.
    apply lookup_app_l. lia.
Qed.

(** ** Order of the results *)
Section Order.
Context `{Host}.

Lemma visitAll_lists c data : forall index st,
  qualifiedLenders (visitAll (callback c) data index st)
  = (qualifiedLenders st ++ qualifiedRefs c data index)%list
  /\ nonQualifiedLenders (visitAll (callback c) data index st)
     = (nonQualifiedLenders st ++ omap (blockedEntry c) data)%list.
Proof.
  induction data as [|l data IH]; intros index st; cbn [visitAll qualifiedRefs].
  - cbn. rewrite !app_nil_r. split; reflexivity.
  - destruct (IH (S index) (callback c l index st)) as [Eq Enq].
    rewrite Eq, Enq, callback_classify. clear Eq Enq.
    change (omap (blockedEntry c) (l :: data))
      with (match blockedEntry c l with
            | Some y => y :: omap (blockedEntry c) data
            | None => omap (blockedEntry c) data
            end).
    change (blockedEntry c l)
      with (match classify c l with
            | NonQualified lenderName blockingRule =>
                Some (NonQualified.make lenderName blockingRule)
            | _ => None
            end).
    destruct (classify c l) as [|n r|[e|]]; cbn [record snd pushQualified
      pushNonQualified incAutoDropped pushError qualifiedLenders
      nonQualifiedLenders]; rewrite <- ?app_assoc; split; reflexivity.
Qed.

Lemma qualifiedRefs_elem c data : forall index r,
  r ∈ qualifiedRefs c data index <->
  exists i l, r = index + i /\ data !! i = Some l /\ classify c l = Qualified.
Proof.
  induction data as [|l data IH]; intros index r; cbn [qualifiedRefs].
  - split; [intros X; inversion X|intros (i & l & _ & X & _); discriminate].
  - assert (r ∈ qualifiedRefs c data (S index) <->
            exists i l', r = index + S i /\ data !! i = Some l'
                         /\ classify c l' = Qualified) as IH'.
    { rewrite IH. split; intros (i & l' & -> & X); exists i, l';
        (split; [lia|exact X]). }
    destruct (classify c l) eqn:Hc.
    + rewrite elem_of_cons, IH'. split.
      * intros [->|(i & l' & -> & X)].
        -- exists 0, l. repeat split; [lia|exact Hc].
        -- exists (S i), l'. split; [reflexivity|exact X].
      * intros ([|i] & l' & -> & Hl & Hq).
        -- left. lia.
        -- right. exists i, l'. repeat split; assumption.
    + rewrite IH'. split.
      * intros (i & l' & -> & X). exists (S i), l'. split; [reflexivity|exact X].
      * intros ([|i] & l' & -> & Hl & Hq).
        -- cbn in Hl. injection Hl as <-. congruence.
        -- exists i, l'. repeat split; assumption.
    + rewrite IH'. split.
      * intros (i & l' & -> & X). exists (S i), l'. split; [reflexivity|exact X].
      * intros ([|i] & l' & -> & Hl & Hq).
        -- cbn in Hl. injection Hl as <-. congruence.
        -- exists i, l'. repeat split; assumption.
Qed.

Lemma qualifiedRefs_sorted c data : forall index,
  StronglySorted lt (qualifiedRefs c data index).
Proof.
  induction data as [|l data IH]; intros index; cbn [qualifiedRefs].
  - constructor.
  - destruct (classify c l); try apply IH.
    constructor; [apply IH|].
    apply Forall_forall. intros r Hr.
    apply qualifiedRefs_elem in Hr as (i & l' & -> & _). lia.
Qed.

(** X11: the pass hands over the references of exactly the rows it
    classifies as qualified, in ascending order, and the non-qualified
    entries in the order of their rows. *)
Theorem results_in_input_order (c : criteria) (g : globals) :
  match csvData g, snd (processLenders c g) with
  | Some data, DisplayResults qualified nonQualified _ _ =>
      (forall r, r ∈ qualified <->
                 exists l, data !! r = Some l /\ classify c l = Qualified)
      /\ StronglySorted lt qualified
      /\ nonQualified = omap (blockedEntry c) data
  | _, _ => True
  end.
Proof.
  unfold processLenders. destruct (csvData g) as [data|]; [|exact I].
  destruct data as [|l data]; cbn [List.length Nat.eqb snd]; [exact I|].
  change (S (List.length data)) with (List.length (l :: data)).
  rewrite forEach_whole.
  destruct (visitAll_lists c (l :: data) 0 (initial (l :: data))) as [Eq Enq].
  rewrite Eq, Enq. cbn [initial qualifiedLenders nonQualifiedLenders app].
  split; [|split; [apply qualifiedRefs_sorted|reflexivity]].
  intros r. rewrite qualifiedRefs_elem. split.
  - intros (i & l' & -> & X). exists l'. exact X.
  - intros (l' & X). exists r, l'. split; [reflexivity|exact X].
Qed.

(** ** Diagnostics *)
Lemma classify_fault c l e :
  classify c l = AutoDropped (Some e) ->
  tableGet reverseStateMap (stateKey c) = Inherited.
Proof.
  unfold classify. destruct (structurallyInvalid l); [discriminate|].
  destruct (firstObjection ruleChain l c) as [[r|]|e'] eqn:E; try discriminate.
  intros _.
  assert (exists e0, firstObjection ruleChain l c = Throw e0) as X
    by (exists e'; exact E).
  apply checkStateRestrictions_chain in X as (_ & _ & X).
  apply checkStateRestrictions_throws in X as (_ & _ & X). exact X.
Qed.

Lemma visitAll_errors c data : forall index st,
  List.length (processingErrors st) <= autoDroppedCount st ->
  List.length (processingErrors (visitAll (callback c) data index st))
  <= autoDroppedCount (visitAll (callback c) data index st).
Proof.
  induction data as [|l data IH]; intros index st Hst; cbn [visitAll];
    [exact Hst|].
  apply IH. rewrite callback_classify.
  destruct (classify c l) as [|n r|[e|]]; cbn; rewrite ?length_app; cbn; lia.
Qed.

Lemma visitAll_quiet c data :
  tableGet reverseStateMap (stateKey c) <> Inherited ->
  forall index st,
    processingErrors (visitAll (callback c) data index st) = processingErrors st.
Proof.
  intros Hkey. induction data as [|l data IH]; intros index st; cbn [visitAll];
    [reflexivity|].
  rewrite IH, callback_classify.
  destruct (classify c l) as [|n r|[e|]] eqn:Hc; try reflexivity.
  exfalso. exact (Hkey (classify_fault _ _ _ Hc)).
Qed.

(** X12: there are never more diagnostics than auto-dropped rows, and
    none at all unless the merchant's state names a property that
    [reverseStateMap] inherits. *)
Theorem diagnostics_only_for_inherited_state (c : criteria) (g : globals) :
  match snd (processLenders c g) with
  | DisplayResults _ _ autoDropped errors =>
      List.length errors <= autoDropped
      /\ (tableGet reverseStateMap (stateKey c) <> Inherited -> errors = [])
  | DisplayError _ => True
  end.
Proof.
  unfold processLenders. destruct (csvData g) as [data|]; [|exact I].
  destruct data as [|l data]; cbn [List.length Nat.eqb snd]; [exact I|].
  change (S (List.length data)) with (List.length (l :: data)).
  rewrite forEach_whole. split.
  - apply visitAll_errors. cbn. lia.
  - intros Hkey. rewrite (visitAll_quiet c _ Hkey). reflexivity.
Qed.

End Order.

(** ** Validated criteria *)
Lemma ofExact_integer z :
  Num.ofExact (inject_Z z) = PosInf \/ Num.ofExact (inject_Z z) = NegInf
  \/ exists z', Num.ofExact (inject_Z z) = Num.ofZ z'.
Proof.
  unfold Num.ofExact.
  destruct (Qle_bool Num.overflowBound (Qabs (inject_Z z)));
    [destruct (Qle_bool 0 (inject_Z z)); auto|].
  right; right.
  destruct (Qle_bool (Qabs (inject_Z z)) Num.underflowBound).
  - exists 0%Z. reflexivity.
  - destruct (round64_whole z) as [z' Hz]. exists z'. rewrite Hz. reflexivity.
Qed.

Lemma applySign_integer b z :
  exists z', Num.applySign b (Num.ofZ z) = Num.ofZ z'.
Proof.
  destruct b; [|exists z; reflexivity].
  exists (- z)%Z. unfold Num.applySign, Num.ofZ. f_equal.
  apply (Qred_inject (- z)).
Qed.

Lemma parseInt_shape s :
  parseInt s = NaN \/ parseInt s = PosInf \/ parseInt s = NegInf
  \/ exists z, parseInt s = Num.ofZ z.
Proof.
  unfold parseInt.
  destruct (Num.parseSign (Str.trimStart s)) as [negative t1].
  destruct (match t1 with
            | String z (String x rest) =>
                if Num.isChar 48 z && (Num.isChar 120 x || Num.isChar 88 x)
                then (16%Z, rest) else (10%Z, t1)
            | _ => (10%Z, t1)
            end) as [radix t2].
  destruct (Num.span _ t2) as [ds rest].
  destruct (Str.isEmpty ds); [left; reflexivity|]. right.
  destruct (ofExact_integer (Num.digitsValue radix ds 0)) as [E|[E|[z E]]];
    rewrite E.
  - destruct negative; cbn; auto.
  - destruct negative; cbn; auto.
  - right; right. apply applySign_integer.
Qed.

Lemma ofZ_le a b : Num.lt (Num.ofZ a) (Num.ofZ b) = false <-> (b <= a)%Z.
Proof. unfold Num.ofZ. rewrite lt_finite', <- Zle_Qle. reflexivity. Qed.

Lemma bounded_inRange s lo hi :
  Num.isNaN (parseInt s) || Num.lt (parseInt s) (Num.ofZ lo)
  || Num.gt (parseInt s) (Num.ofZ hi) = false ->
  inRange lo hi (parseInt s).
Proof.
  destruct (parseInt_shape s) as [E|[E|[E|[z E]]]]; rewrite E; try discriminate.
  intros X. apply orb_false_iff in X as [X Hhi]. apply orb_false_iff in X as [_ Hlo].
  unfold Num.gt in Hhi. apply ofZ_le in Hlo, Hhi.
  exists z. split; [reflexivity|lia].
Qed.

Lemma bounded_atLeast s lo :
  Num.isNaN (parseInt s) || Num.lt (parseInt s) (Num.ofZ lo) = false ->
  atLeast lo (parseInt s).
Proof.
  destruct (parseInt_shape s) as [E|[E|[E|[z E]]]]; rewrite E; try discriminate.
  - intros _. left. reflexivity.
  - intros X. apply orb_false_iff in X as [_ Hlo]. apply ofZ_le in Hlo.
    right. exists z. split; [reflexivity|exact Hlo].
Qed.

(** X13: when the click handler lets the pass start, the position is an
    integer from 1 to 10, the score an integer from 300 to 850, and time
    in business and revenue are non-negative integers or infinite; state
    and industry are the trimmed fields. *)
Theorem validated_criteria (f : Form.t) (m : Merchant.t) :
  onProcessClick f = Started m ->
  m = merchantCriteria f
  /\ inRange 1 10 (Merchant.requestedPosition m)
  /\ atLeast 0 (Merchant.tib m)
  /\ atLeast 0 (Merchant.monthlyRevenue m)
  /\ inRange 300 850 (Merchant.fico m)
  /\ (Merchant.tib m <> PosInf -> Merchant.monthlyRevenue m <> PosInf ->
      exists c, criteriaOf m = Some c
        /\ (1 <= requestedPosition c <= 10)%Z /\ (0 <= tib c)%Z
        /\ (0 <= monthlyRevenue c)%Z /\ (300 <= fico c <= 850)%Z
        /\ state c = Str.trim (Form.state f)
        /\ industry c = Str.trim (Form.industry f)
        /\ isSoleProp c = Form.soleProp f).
Proof.
  unfold onProcessClick, validateInputs. cbn zeta.
  destruct (_ || _ || _) eqn:E1; [discriminate|].
  destruct (_ || _) eqn:E2 in |- *; [discriminate|].
  destruct (_ || _) eqn:E3 in |- *; [discriminate|].
  destruct (_ || _ || _) eqn:E4 in |- *; [discriminate|].
  intros [= <-]. cbn [merchantCriteria Merchant.requestedPosition Merchant.tib
    Merchant.monthlyRevenue Merchant.fico] in *.
  pose proof (bounded_inRange _ _ _ E1) as Hp.
  pose proof (bounded_atLeast _ _ E2) as Ht.
  pose proof (bounded_atLeast _ _ E3) as Hr.
  pose proof (bounded_inRange _ _ _ E4) as Hf.
  repeat (split; [assumption || reflexivity|]).
  intros Htf Hrf. unfold criteriaOf.
  cbn [merchantCriteria Merchant.requestedPosition Merchant.tib
    Merchant.monthlyRevenue Merchant.fico Merchant.state Merchant.industry
    Merchant.isSoleProp].
  destruct Hp as (p & -> & Hp), Hf as (s & -> & Hf).
  destruct Ht as [Ht|(t & Ht & Ht')]; [contradiction|].
  destruct Hr as [Hr|(r & Hr & Hr')]; [contradiction|].
  rewrite Ht, Hr. cbn. eexists. split; [reflexivity|]. cbn.
  repeat split; lia.
Qed.

(** ** File load *)
(** X14: after a file is chosen the data is the parse of its text when
    the name ends in .csv (in any letter case) and the text has two
    non-blank lines; otherwise no data is loaded, whatever was loaded
    before.  The debug flag is untouched. *)
Theorem file_load_effect (chosen : option file) (g : globals) :
  debugMode (fst (onFileChange chosen g)) = debugMode g
  /\ (forall data,
        csvData (fst (onFileChange chosen g)) = Some data <->
        exists f, chosen = Some f
          /\ endsWith (Str.toLowerCase (fileName f)) ".csv" = true
          /\ parseCSV (fileText f) = Ok data)
  /\ (csvData (fst (onFileChange chosen g)) = None <->
      match chosen with
      | Some f =>
          endsWith (Str.toLowerCase (fileName f)) ".csv" = false
          \/ List.length (meaningfulLines (fileText f)) < 2
      | None => True
      end).
Proof.
  unfold onFileChange. destruct chosen as [f|].
  - destruct (endsWith (Str.toLowerCase (fileName f)) ".csv") eqn:Hn; cbn [negb].
    + pose proof (parseCSV_lines (fileText f)) as Hlines.
      destruct (parseCSV (fileText f)) as [data|e] eqn:Hp; cbn.
      * split; [reflexivity|]. split.
        -- intros d. split.
           ++ intros [= <-]. exists f.
              split; [reflexivity|]. split; [exact Hn|exact Hp].
           ++ intros (f' & [= <-] & _ & E). rewrite Hp in E. injection E as ->.
              reflexivity.
        -- split; [discriminate|]. intros [X|X]; [discriminate|].
           exfalso. lia.
      * split; [reflexivity|]. split.
        -- intros d. split; [discriminate|].
           intros (f' & [= <-] & _ & E). rewrite Hp in E. discriminate.
        -- split; [|reflexivity]. intros _. right. exact Hlines.
    + cbn. split; [reflexivity|]. split.
      * intros d. split; [discriminate|].
        intros (f' & [= <-] & E & _). congruence.
      * split; [intros _; left; reflexivity|reflexivity].
  - cbn. split; [reflexivity|]. split.
    + intros d. split; [discriminate|]. intros (f' & E & _). discriminate.
    + split; reflexivity.
Qed.

Section Empty.
Context `{Host}.

(** X15: a .csv file whose rows all lack a lender name is reported as
    loaded with 0 lenders and enables the process button of a filled
    form, and the pass then reports that no data is loaded. *)
Theorem empty_table_enables_button (f : file) (form : Form.t) (g : globals)
    (c : criteria) :
  endsWith (Str.toLowerCase (fileName f)) ".csv" = true ->
  parseCSV (fileText f) = Ok [] ->
  isFormValid form = true ->
  snd (onFileChange (Some f) g)
  = Some {| className := "status success";
            mark := CheckMark;
            wording := "Loaded 0 lenders successfully" |}
  /\ updateProcessButton (fst (onFileChange (Some f) g)) form = false
  /\ snd (processLenders c (fst (onFileChange (Some f) g)))
     = DisplayError "No CSV data loaded".
Proof.
  intros Hn Hp Hv. unfold onFileChange. rewrite Hn, Hp. cbn [negb fst snd].
  unfold updateProcessButton. cbn [csvData]. rewrite Hv.
  repeat split.
Qed.
End Empty.

(** ** Tier groups *)
Lemma groupByTier_spec rows qualified : forall acc,
  (forall t, is_Some (acc !! t) -> t ∉ objectPrototypeNames) ->
  match groupByTier rows qualified acc with
  | Ok groups =>
      Forall (fun r => tierAt rows r ∉ objectPrototypeNames) qualified
      /\ forall t, groups !! t
                   = joined (acc !! t) (filter (fun r => tierAt rows r = t) qualified)
  | Throw e =>
      e = TypeError "tierGroups[tier].push is not a function"
      /\ Exists (fun r => tierAt rows r ∈ objectPrototypeNames) qualified
  end.
Proof.
  induction qualified as [|r rest IH]; intros acc Hacc; cbn [groupByTier].
  - split; [constructor|]. intros t. cbn. destruct (acc !! t); cbn;
      rewrite ?app_nil_r; reflexivity.
  - fold (tierAt rows r). unfold groupGet.
    destruct (acc !! tierAt rows r) as [group|] eqn:Hg.
    + assert (tierAt rows r ∉ objectPrototypeNames) as Hr
        by (apply Hacc; eexists; exact Hg).
      specialize (IH (<[tierAt rows r := (group ++ [r])%list]> acc)).
      destruct (groupByTier rows rest _) as [groups|e].
      * destruct IH as [Hall Hgroups].
        { intros t [x Hx]. destruct (decide (tierAt rows r = t)) as [<-|Hne];
            [exact Hr|].
          rewrite lookup_insert_ne in Hx by exact Hne. apply Hacc. eexists; exact Hx. }
        split; [constructor; assumption|].
        intros t. rewrite Hgroups, filter_cons.
        destruct (decide (tierAt rows r = t)) as [<-|Hne].
        -- rewrite lookup_insert_eq, Hg. cbn. rewrite <- app_assoc.
           destruct (filter _ rest); reflexivity.
        -- rewrite lookup_insert_ne by exact Hne. reflexivity.
      * destruct IH as [He Hex].
        { intros t [x Hx]. destruct (decide (tierAt rows r = t)) as [<-|Hne];
            [exact Hr|].
          rewrite lookup_insert_ne in Hx by exact Hne. apply Hacc. eexists; exact Hx. }
        split; [exact He|]. right. exact Hex.
    + destruct (bool_decide (tierAt rows r ∈ objectPrototypeNames)) eqn:Hb.
      * apply bool_decide_eq_true in Hb. split; [reflexivity|]. left. exact Hb.
      * apply bool_decide_eq_false in Hb.
        specialize (IH (<[tierAt rows r := [r]]> acc)).
        destruct (groupByTier rows rest _) as [groups|e].
        -- destruct IH as [Hall Hgroups].
           { intros t [x Hx]. destruct (decide (tierAt rows r = t)) as [<-|Hne];
               [exact Hb|].
             rewrite lookup_insert_ne in Hx by exact Hne. apply Hacc. eexists; exact Hx. }
           split; [constructor; assumption|].
           intros t. rewrite Hgroups, filter_cons.
           destruct (decide (tierAt rows r = t)) as [<-|Hne].
           ++ rewrite lookup_insert_eq, Hg. cbn. destruct (filter _ rest); reflexivity.
           ++ rewrite lookup_insert_ne by exact Hne. reflexivity.
        -- destruct IH as [He Hex].
           { intros t [x Hx]. destruct (decide (tierAt rows r = t)) as [<-|Hne];
               [exact Hb|].
             rewrite lookup_insert_ne in Hx by exact Hne. apply Hacc. eexists; exact Hx. }
           split; [exact He|]. right. exact Hex.
Qed.

(** X16: the grouping loop of [displayResults] files each qualified
    reference under its tier label, in order; it throws a TypeError
    exactly when some label names a property inherited from
    [Object.prototype]. *)
Theorem tier_groups (rows : list lender) (qualified : list ref) :
  match groupByTier rows qualified ∅ with
  | Ok groups =>
      Forall (fun r => tierAt rows r ∉ objectPrototypeNames) qualified
      /\ forall t,
           groups !! t
           = match filter (fun r => tierAt rows r = t) qualified with
             | [] => None
             | members => Some members
             end
  | Throw e =>
      e = TypeError "tierGroups[tier].push is not a function"
      /\ Exists (fun r => tierAt rows r ∈ objectPrototypeNames) qualified
  end.
Proof.
  pose proof (groupByTier_spec rows qualified ∅) as Hspec.
  destruct (groupByTier rows qualified ∅) as [groups|e].
  - destruct Hspec as [Hall Hgroups].
    { intros t [x Hx]. rewrite lookup_empty in Hx. discriminate. }
    split; [exact Hall|]. intros t. rewrite Hgroups, lookup_empty.
    destruct (filter _ qualified); reflexivity.
  - apply Hspec. intros t [x Hx]. rewrite lookup_empty in Hx. discriminate.
Qed.

(** ** Quoted lines *)
Lemma snoc_append cur c : Str.snoc cur c = cur +:+ String c EmptyString.
Proof. reflexivity. Qed.

Lemma append_assoc' (a b c : string) : (a +:+ b) +:+ c = a +:+ (b +:+ c).
Proof.
  induction a as [|x a IH]; [reflexivity|].
  rewrite !append_cons. f_equal. exact IH.
Qed.

Lemma parseLine_quoted s : forall tail row cur,
  startsWithQuote tail = false ->
  parseLine (escapeQuotes s +:+ String Char.quote tail) row cur true
  = parseLine tail row (cur +:+ s) false.
Proof.
  induction s as [|c t IH]; intros tail row cur Htail.
  - rewrite append_empty.
    change (escapeQuotes EmptyString +:+ String Char.quote tail)
      with (String Char.quote tail).
    cbn [parseLine]. change (Char.eqb Char.quote Char.quote) with true. cbn iota.
    destruct tail as [|c t]; [reflexivity|].
    cbn [startsWithQuote] in Htail. rewrite Htail. reflexivity.
  - cbn [escapeQuotes]. destruct (Char.eqb c Char.quote) eqn:Hc.
    + rewrite !append_cons. cbn [parseLine].
      change (Char.eqb Char.quote Char.quote) with true. cbn iota. cbn [andb].
      rewrite (IH _ _ _ Htail). f_equal.
      unfold Char.eqb in Hc. apply Ascii.eqb_eq in Hc. subst c.
      rewrite snoc_append, append_assoc'. reflexivity.
    + rewrite append_cons. cbn [parseLine]. rewrite Hc.
      rewrite andb_false_r.
      rewrite (IH _ _ _ Htail). f_equal.
      rewrite snoc_append, append_assoc'. reflexivity.
Qed.

Lemma parseLine_quoteLine cells : forall row,
  cells <> [] ->
  parseLine (quoteLine cells) row EmptyString false
  = (row ++ List.map Str.trim cells)%list.
Proof.
  induction cells as [|s rest IH]; intros row Hne; [contradiction|].
  unfold quoteLine. cbn [List.map Str.join].
  destruct rest as [|s' rest'].
  - cbn [List.map]. unfold quoteField. cbn [parseLine].
    change (Char.eqb Char.quote Char.quote) with true. cbn iota.
    assert (parseLine (escapeQuotes s +:+ String Char.quote EmptyString) row
              EmptyString true = (row ++ [Str.trim s])%list) as E.
    { rewrite parseLine_quoted by reflexivity. reflexivity. }
    destruct (escapeQuotes s +:+ String Char.quote EmptyString) eqn:Hq; exact E.
  - cbn [List.map]. fold (quoteLine (s' :: rest')) in *.
    change (match List.map quoteField rest' with
            | [] => quoteField s'
            | _ :: _ => quoteField s' +:+ String Char.comma EmptyString
                        +:+ Str.join (String Char.comma EmptyString)
                              (List.map quoteField rest')
            end) with (quoteLine (s' :: rest')).
    unfold quoteField at 1.
    rewrite append_cons, append_assoc'.
    change (String Char.quote EmptyString +:+ String Char.comma EmptyString
            +:+ quoteLine (s' :: rest'))
      with (String Char.quote (String Char.comma (quoteLine (s' :: rest')))).
    cbn [parseLine]. change (Char.eqb Char.quote Char.quote) with true. cbn iota.
    assert (parseLine (escapeQuotes s +:+ String Char.quote
                         (String Char.comma (quoteLine (s' :: rest'))))
              row EmptyString true
            = ((row ++ [Str.trim s]) ++ List.map Str.trim (s' :: rest'))%list) as E.
    { rewrite parseLine_quoted by reflexivity.
      cbn [parseLine]. change (Char.eqb Char.comma Char.quote) with false.
      cbn iota. change (Char.eqb Char.comma Char.comma) with true. cbn [andb negb].
      apply IH. discriminate. }
    rewrite <- app_assoc in E.
    destruct (escapeQuotes s +:+ _) eqn:Hq in E |- *; exact E.
Qed.

(** X17: a line written with every field between quotes, the quotes of
    a field doubled, is read back as the fields themselves, trimmed:
    commas and quotes inside the fields are kept. *)
Theorem quoted_line_round_trip (cells : list string) :
  cells <> [] -> fields (quoteLine cells) = List.map Str.trim cells.
Proof. intros Hne. unfold fields. rewrite (parseLine_quoteLine cells [] Hne). reflexivity. Qed.

(** ** Whole-number cells *)
Lemma digitsValue_uint d : forall acc,
  Num.digitsValue 10 (NilEmpty.string_of_uint d) acc = uval d acc.
Proof. induction d; intros acc; cbn [NilEmpty.string_of_uint Num.digitsValue uval]; try reflexivity; apply IHd. Qed.

Lemma uval_acc d : forall acc, uval d (Zpos acc) = Zpos (Pos.of_uint_acc d acc).
Proof.
  induction d; intros acc; cbn [uval Pos.of_uint_acc]; try reflexivity;
    rewrite <- IHd; f_equal; lia.
Qed.

Lemma uval_0 d : uval d 0 = Z.of_N (Pos.of_uint d).
Proof.
  induction d; cbn [uval Pos.of_uint Z.of_N]; try reflexivity; try exact IHd;
    rewrite <- uval_acc; reflexivity.
Qed.

Lemma all_digits_uint d : Str.all Char.isDigit (NilEmpty.string_of_uint d) = true.
Proof. induction d; cbn [NilEmpty.string_of_uint Str.all]; try reflexivity; exact IHd. Qed.

Lemma to_uint_nonnil n : N.to_uint n <> Decimal.Nil.
Proof.
  destruct n as [|p]; [discriminate|]. apply DecimalPos.Unsigned.to_uint_nonnil.
Qed.

Lemma digitsOfZ_string z :
  Num.digitsOfZ z = NilEmpty.string_of_uint (N.to_uint (Z.to_N z)).
Proof.
  unfold Num.digitsOfZ, NilZero.string_of_uint.
  pose proof (to_uint_nonnil (Z.to_N z)) as Hn.
  destruct (N.to_uint (Z.to_N z)); [contradiction|reflexivity..].
Qed.

Lemma digitsOfZ_value z : (0 <= z)%Z -> Num.digitsValue 10 (Num.digitsOfZ z) 0 = z.
Proof.
  intros Hz. rewrite digitsOfZ_string, digitsValue_uint, uval_0.
  change (Pos.of_uint (N.to_uint (Z.to_N z))) with (N.of_uint (N.to_uint (Z.to_N z))).
  rewrite DecimalN.Unsigned.of_to. lia.
Qed.

Lemma digitsOfZ_digits z : Str.all Char.isDigit (Num.digitsOfZ z) = true.
Proof. rewrite digitsOfZ_string. apply all_digits_uint. Qed.

Lemma digit_code c : Char.isDigit c = true -> (48 <= Char.code c <= 57)%N.
Proof.
  unfold Char.isDigit, Char.between. intros H.
  apply andb_true_iff in H as [H1 H2].
  apply N.leb_le in H1, H2. lia.
Qed.

Lemma digit_notSpace c : Char.isDigit c = true -> Char.isWhiteSpace c = false.
Proof.
  intros H. apply digit_code in H. unfold Char.isWhiteSpace, Char.between.
  repeat (apply orb_false_iff; split).
  - apply andb_false_iff. right. apply N.leb_gt. lia.
  - apply N.eqb_neq. lia.
  - apply N.eqb_neq. lia.
Qed.

Lemma digit_notChar n c : Char.isDigit c = true -> (n < 48 \/ 57 < n)%N -> Num.isChar n c = false.
Proof. intros H Hn. apply digit_code in H. unfold Num.isChar. apply N.eqb_neq. lia. Qed.

Lemma digits_trimStart s : Str.all Char.isDigit s = true -> Str.trimStart s = s.
Proof.
  destruct s as [|c t]; [reflexivity|]. cbn [Str.all Str.trimStart]. intros H.
  apply andb_true_iff in H as [Hc _]. rewrite (digit_notSpace _ Hc). reflexivity.
Qed.

Lemma digits_trimEnd s : Str.all Char.isDigit s = true -> Str.trimEnd s = s.
Proof.
  induction s as [|c t IH]; [reflexivity|]. cbn [Str.all Str.trimEnd]. intros H.
  apply andb_true_iff in H as [Hc Ht]. rewrite (digit_notSpace _ Hc), (IH Ht). reflexivity.
Qed.

Lemma digits_trim s : Str.all Char.isDigit s = true -> Str.trim s = s.
Proof. intros H. unfold Str.trim. rewrite (digits_trimStart _ H). apply digits_trimEnd, H. Qed.

Lemma digits_span s : Str.all Char.isDigit s = true -> Num.span Char.isDigit s = (s, EmptyString).
Proof.
  induction s as [|c t IH]; [reflexivity|]. cbn [Str.all Num.span]. intros H.
  apply andb_true_iff in H as [Hc Ht]. rewrite Hc, (IH Ht). reflexivity.
Qed.

Lemma digits_parseDecimalPrefix s :
  Str.all Char.isDigit s = true -> Str.isEmpty s = false ->
  Num.parseDecimalPrefix s =
  Some (Num.ofExact (inject_Z (Num.digitsValue 10 s 0)), EmptyString).
Proof.
  intros Hall Hne. unfold Num.parseDecimalPrefix.
  assert (Num.parseSign s = (false, s)) as ->.
  { destruct s as [|c t]; [discriminate|]. cbn [Str.all] in Hall.
    apply andb_true_iff in Hall as [Hc _]. cbn [Num.parseSign].
    rewrite !(digit_notChar _ _ Hc) by lia. reflexivity. }
  unfold Num.parseUnsignedDecimal.
  assert (String.prefix "Infinity" s = false) as ->.
  { destruct s as [|c t]; [discriminate|]. cbn [Str.all] in Hall.
    apply andb_true_iff in Hall as [Hc _]. cbn [String.prefix].
    destruct (ascii_dec "I" c) as [<-|]; [discriminate Hc|reflexivity]. }
  rewrite (digits_span _ Hall), Hne.
  unfold Num.decimalValue, Num.scale10, Num.applySign. rewrite append_empty.
  cbn [String.length Z.of_nat Z.sub Z.leb Z.compare Z.opp Z.add].
  rewrite Z.pow_0_r, Z.mul_1_r. reflexivity.
Qed.

Lemma digits_parseRadix s : Str.all Char.isDigit s = true -> Num.parseRadix s = None.
Proof.
  destruct s as [|z [|r ds]]; try reflexivity. cbn [Str.all Num.parseRadix]. intros H.
  apply andb_true_iff in H as [_ H]. apply andb_true_iff in H as [Hr _].
  rewrite !(digit_notChar _ _ Hr) by lia. cbn [orb andb].
  destruct (Num.isChar 48 z && negb (Str.isEmpty ds)); reflexivity.
Qed.

Lemma digits_parseFloat s :
  Str.all Char.isDigit s = true -> Str.isEmpty s = false ->
  Num.parseFloat s = Num.ofExact (inject_Z (Num.digitsValue 10 s 0)).
Proof.
  intros Hall Hne. unfold Num.parseFloat.
  rewrite (digits_trimStart _ Hall), (digits_parseDecimalPrefix _ Hall Hne). reflexivity.
Qed.

Lemma digits_ofString s :
  Str.all Char.isDigit s = true -> Str.isEmpty s = false ->
  Num.ofString s = Num.ofExact (inject_Z (Num.digitsValue 10 s 0)).
Proof.
  intros Hall Hne. unfold Num.ofString.
  rewrite (digits_trim _ Hall), Hne, (digits_parseRadix _ Hall),
    (digits_parseDecimalPrefix _ Hall Hne). reflexivity.
Qed.

Lemma ofExact_safe z :
  (0 <= z <= 2 ^ 53)%Z -> Num.ofExact (inject_Z z) = Num.ofZ z.
Proof.
  intros Hz. unfold Num.ofExact.
  assert (Qle_bool Num.overflowBound (Qabs (inject_Z z)) = false) as ->.
  { apply not_true_is_false. intros H. apply Qle_bool_iff in H.
    unfold Qle, Num.overflowBound in H. cbn [Qnum Qden inject_Z Qabs] in H.
    assert (2 ^ 53 < 2 ^ 1024 - 2 ^ 970)%Z by reflexivity. lia. }
  destruct (Qle_bool (Qabs (inject_Z z)) Num.underflowBound) eqn:E.
  - apply Qle_bool_iff in E. unfold Qle, Num.underflowBound in E. cbn in E.
    assert (z = 0%Z) as -> by lia. reflexivity.
  - rewrite round64_safe by lia. reflexivity.
Qed.

Lemma digitsOfZ_nonempty z : Str.isEmpty (Num.digitsOfZ z) = false.
Proof.
  unfold Num.digitsOfZ, NilZero.string_of_uint.
  pose proof (to_uint_nonnil (Z.to_N z)) as Hn.
  destruct (N.to_uint (Z.to_N z)); [contradiction|reflexivity..].
Qed.

Lemma digitValue_nonneg c : (0 <= Num.digitValue c)%Z.
Proof.
  unfold Num.digitValue.
  destruct (Char.isDigit c); [lia|].
  destruct (Char.between 97 102 c); [lia|].
  destruct (Char.between 65 70 c); lia.
Qed.

Lemma digitsValue_nonneg s : forall acc,
  (0 <= acc)%Z -> (0 <= Num.digitsValue 10 s acc)%Z.
Proof.
  induction s as [|c t IH]; intros acc Hacc; cbn [Num.digitsValue]; [exact Hacc|].
  apply IH. pose proof (digitValue_nonneg c). lia.
Qed.

Lemma convertCell_digits s :
  Str.all Char.isDigit s = true -> Str.isEmpty s = false ->
  (Num.digitsValue 10 s 0 <= 2 ^ 53)%Z ->
  convertCell (Some s) = VNumber (Num.ofZ (Num.digitsValue 10 s 0)).
Proof.
  intros Hall Hne Hle.
  pose proof (digitsValue_nonneg s 0 ltac:(lia)) as H0.
  rewrite convertCell_text. unfold cellText. cbn [default from_option id].
  rewrite (digits_trim _ Hall). cbn zeta.
  unfold Str.truthy. rewrite Hne, eqb_empty, Hne.
  rewrite (digits_ofString _ Hall Hne), (digits_parseFloat _ Hall Hne).
  rewrite ofExact_safe by lia. reflexivity.
Qed.

Lemma toString_safe z :
  (0 <= z <= 2 ^ 53)%Z -> Num.toString (Num.ofZ z) = Num.digitsOfZ z.
Proof.
  intros Hz. unfold Num.toString, Num.ofZ. rewrite Qred_inject.
  destruct (Qeq_bool (inject_Z z) 0) eqn:E0.
  { apply Qeq_bool_iff in E0. unfold Qeq in E0. cbn in E0.
    assert (z = 0%Z) as -> by lia. reflexivity. }
  assert (Qle_bool 0 (inject_Z z) = true) as ->.
  { apply Qle_bool_iff. unfold Qle. cbn. lia. }
  cbn [Qnum Qden inject_Z]. rewrite Z.abs_eq by lia.
  change (1 =? 1)%Z with true.
  destruct (Z.leb_spec z (2 ^ 53)); [reflexivity|lia].
Qed.

Lemma parseFloat_safe z :
  (0 <= z <= 2 ^ 53)%Z -> Num.parseFloat (Num.digitsOfZ z) = Num.ofZ z.
Proof.
  intros Hz.
  rewrite (digits_parseFloat _ (digitsOfZ_digits z) (digitsOfZ_nonempty z)).
  rewrite digitsOfZ_value by lia. apply ofExact_safe, Hz.
Qed.

(** X18: a cell of decimal digits whose value [n] is at most 2^53 (the
    range in which binary64 holds every whole number exactly) is stored
    as the number [n]; the engine prints it as the decimal numeral of
    [n], without leading zeros, and reads [n] back from it, and parsing
    the printed text again stores the same value. *)
Theorem integer_cell_round_trip (s : string) :
  Str.all Char.isDigit s = true -> Str.isEmpty s = false ->
  (Num.digitsValue 10 s 0 <= 2 ^ 53)%Z ->
  let n := Num.digitsValue 10 s 0 in
  convertCell (Some s) = VNumber (Num.ofZ n)
  /\ Val.toString (convertCell (Some s)) = Num.digitsOfZ n
  /\ Val.parseFloat (convertCell (Some s)) = Num.ofZ n
  /\ convertCell (Some (Val.toString (convertCell (Some s)))) = convertCell (Some s).
Proof.
  intros Hall Hne Hle n.
  pose proof (digitsValue_nonneg s 0 ltac:(lia)) as H0. fold n in H0, Hle.
  pose proof (convertCell_digits s Hall Hne Hle) as E. fold n in E.
  rewrite E. unfold Val.parseFloat. cbn [Val.toString].
  rewrite toString_safe by lia. rewrite parseFloat_safe by lia.
  repeat split.
  rewrite (convertCell_digits _ (digitsOfZ_digits n) (digitsOfZ_nonempty n));
    rewrite digitsOfZ_value by lia; [reflexivity|exact Hle].
Qed.

Section Named.
Context `{Host}.

(** X19: a row whose name cell is a numeral of decimal digits, of value
    at most 2^53, is dropped by the engine without any rule check,
    whatever its other columns hold. *)
Theorem numeric_name_dropped (s : string) (l : lender) (c : criteria)
    (index : ref) (st : pass) :
  Str.all Char.isDigit s = true -> Str.isEmpty s = false ->
  (Num.digitsValue 10 s 0 <= 2 ^ 53)%Z ->
  l !! "Lender Name" = Some (convertCell (Some s)) ->
  classify c l = AutoDropped None
  /\ callback c l index st = snd (incAutoDropped st).
Proof.
  intros Hall Hne Hle Hname.
  pose proof (digitsValue_nonneg s 0 ltac:(lia)) as H0.
  assert (invalidName (lenderNameOf l) = true) as Hinv.
  { unfold lenderNameOf, getProp. rewrite Hname. cbn [default from_option id].
    rewrite (convertCell_digits s Hall Hne Hle).
    unfold Val.orElse. cbn [Val.truthy].
    destruct (Num.truthy (Num.ofZ (Num.digitsValue 10 s 0))) eqn:Ht.
    - cbn [Val.toString]. rewrite toString_safe by lia.
      rewrite (digits_trim _ (digitsOfZ_digits _)).
      unfold invalidName, Str.allDigits, Str.truthy.
      rewrite digitsOfZ_nonempty, digitsOfZ_digits. cbn [negb andb orb].
      rewrite !orb_true_r. reflexivity.
    - reflexivity. }
  assert (classify c l = AutoDropped None) as Hk.
  { unfold classify, structurallyInvalid. rewrite Hinv. reflexivity. }
  split; [exact Hk|]. rewrite callback_classify, Hk. reflexivity.
Qed.
End Named.

(** ** The sole-proprietor box *)
Lemma checkCustomRestrictions_entity l c :
  checkCustomRestrictions l c = None ->
  checkCustomRestrictions l (withSoleProp false c) = None.
Proof.
  unfold checkCustomRestrictions.
  cbn [withSoleProp requestedPosition tib state industry isSoleProp].
  rewrite andb_false_r. cbn [andb].
  repeat match goal with
         | |- context [if ?b then _ else _] => destruct b; try discriminate
         end; reflexivity.
Qed.

Section Flag.
Context `{Host}.

(** X20: the sole-proprietor box only ever adds objections: a lender
    that qualifies for a merchant still qualifies for the same merchant
    with the box cleared, and the pass treats the row alike. *)
Theorem sole_prop_flag_only_objects (c : criteria) (l : lender) (index : ref)
    (st : pass) :
  classify c l = Qualified ->
  classify (withSoleProp false c) l = Qualified
  /\ callback (withSoleProp false c) l index st = callback c l index st.
Proof.
  intros Hq.
  assert (classify (withSoleProp false c) l = Qualified) as Hq'.
  { revert Hq. unfold classify.
    destruct (structurallyInvalid l); [discriminate|].
    unfold ruleChain, firstObjection, pureCheck, solePropCheck.
    change (positionCheck l (withSoleProp false c)) with (positionCheck l c).
    change (checkStateRestrictions l (withSoleProp false c))
      with (checkStateRestrictions l c).
    change (checkIndustryRestrictions l (withSoleProp false c))
      with (checkIndustryRestrictions l c).
    change (checkMinimumRequirements l (withSoleProp false c))
      with (checkMinimumRequirements l c).
    cbn [withSoleProp isSoleProp].
    destruct (positionCheck l c) as [[r|]|e]; try discriminate.
    destruct (checkCustomRestrictions l c) as [r|] eqn:Hc; [discriminate|].
    rewrite (checkCustomRestrictions_entity _ _ Hc).
    destruct (checkStateRestrictions l c) as [[r|]|e]; try discriminate.
    destruct (isSoleProp c);
      [destruct (checkSolePropRestrictions l); [discriminate|]|]; exact id. }
  split; [exact Hq'|]. rewrite !callback_classify, Hq, Hq'. reflexivity.
Qed.
End Flag.

(** ** Instances *)

(** X2 at New York. *)
Lemma state_names_round_trip_witness :
  ("new york", "ny") ∈ stateList
  /\ normalizeState "new york" = NString "ny"
  /\ exists full, getFullStateName "ny" = Ok full
                  /\ Str.toLowerCase full = "new york".
Proof.
  assert (("new york", "ny") ∈ stateList) as Hin
    by (apply (bool_decide_unpack _); vm_compute; exact I).
  split; [exact Hin|]. exact (state_names_round_trip "new york" "ny" Hin).
Defined.

(** X4 at a threshold of 700: a score of 680 passes, and so does 700. *)
Lemma minimum_requirements_monotone_witness :
  (tib (Sample.merchant 2 680 "TX" "retail")
   <= tib (Sample.merchant 2 700 "TX" "retail"))%Z
  /\ (monthlyRevenue (Sample.merchant 2 680 "TX" "retail")
      <= monthlyRevenue (Sample.merchant 2 700 "TX" "retail"))%Z
  /\ (fico (Sample.merchant 2 680 "TX" "retail")
      <= fico (Sample.merchant 2 700 "TX" "retail"))%Z
  /\ checkMinimumRequirements (H := Sample.host) Sample.fico700
       (Sample.merchant 2 680 "TX" "retail") = None
  /\ checkMinimumRequirements (H := Sample.host) Sample.fico700
       (Sample.merchant 2 700 "TX" "retail") = None.
Proof.
  assert (checkMinimumRequirements (H := Sample.host) Sample.fico700
            (Sample.merchant 2 680 "TX" "retail") = None) as Hpass
    by (vm_compute; reflexivity).
  split; [cbn; lia|]. split; [cbn; lia|]. split; [cbn; lia|].
  split; [exact Hpass|].
  apply (minimum_requirements_monotone (H := Sample.host) Sample.fico700
           (Sample.merchant 2 680 "TX" "retail")
           (Sample.merchant 2 700 "TX" "retail"));
    [cbn; lia|cbn; lia|cbn; lia|exact Hpass].
Defined.

(** X6 at a lender restricted in "CA, NY": the state check does not
    object to a merchant who writes New York in full, and it throws for
    a merchant whose state field reads "constructor". *)
Lemma state_check_verbatim_witness :
  (Str.trim (state Cases.newYork) = EmptyString
   \/ tableGet reverseStateMap (stateKey Cases.newYork) = Missing)
  /\ checkStateRestrictions Sample.acme Cases.newYork = Ok None
  /\ Str.trim (state Sample.oddState) <> EmptyString
  /\ tableGet reverseStateMap (stateKey Sample.oddState) = Inherited
  /\ checkStateRestrictions Sample.acme Sample.oddState
     = Throw (TypeError "reverseStateMap[lower].split is not a function").
Proof.
  assert (Str.trim (state Cases.newYork) = EmptyString
          \/ tableGet reverseStateMap (stateKey Cases.newYork) = Missing) as Hkey
    by (right; vm_compute; reflexivity).
  assert (Str.trim (state Sample.oddState) <> EmptyString) as Hne
    by (vm_compute; discriminate).
  assert (tableGet reverseStateMap (stateKey Sample.oddState) = Inherited) as Hinh
    by (vm_compute; reflexivity).
  destruct (state_check_verbatim Sample.acme Cases.newYork) as (E1 & _ & _).
  destruct (state_check_verbatim Sample.acme Sample.oddState) as (_ & E2 & _).
  split; [exact Hkey|]. split; [rewrite (E1 Hkey); vm_compute; reflexivity|].
  split; [exact Hne|]. split; [exact Hinh|].
  rewrite (E2 Hne Hinh). vm_compute. reflexivity.
Defined.

(** X7 at the line [a, b] followed by an open quote and [c,d]. *)
Lemma plain_and_open_fields_witness :
  noQuotes "a, b" = true
  /\ noQuotes "c,d" = true
  /\ fields "a, b" = ["a"; "b"]
  /\ fields ("a, b" +:+ String Char.quote "c,d") = ["a"; "bc,d"].
Proof.
  assert (noQuotes "a, b" = true) as H1 by reflexivity.
  assert (noQuotes "c,d" = true) as H2 by reflexivity.
  destruct (plain_and_open_fields "a, b" "c,d" H1 H2) as [E1 E2].
  split; [exact H1|]. split; [exact H2|]. split; [exact E1|exact E2].
Defined.

(** X8 and X9 at the table of [Sample.table]. *)
Lemma parsed_rows_columns_witness :
  ("__proto__" ∉ headersOf Sample.table)
  /\ parseCSV Sample.table = Ok [Cases.tableRow]
  /\ Cases.tableRow ∈ [Cases.tableRow]
  /\ dom Cases.tableRow = list_to_set (headersOf Sample.table)
  /\ map_Forall (fun _ v => storable v = true) Cases.tableRow.
Proof.
  assert ("__proto__" ∉ headersOf Sample.table) as Hh
    by (apply (bool_decide_unpack _); vm_compute; exact I).
  assert (parseCSV Sample.table = Ok [Cases.tableRow]) as Hp
    by (vm_compute; reflexivity).
  assert (Cases.tableRow ∈ [Cases.tableRow]) as Hin by left.
  split; [exact Hh|]. split; [exact Hp|]. split; [exact Hin|].
  exact (parsed_rows_columns Sample.table [Cases.tableRow] Cases.tableRow
           Hh Hp Hin).
Defined.

Lemma parsed_rows_named_witness :
  parseCSV Sample.table = Ok [Cases.tableRow]
  /\ List.length [Cases.tableRow] < List.length (meaningfulLines Sample.table)
  /\ (forall row, row ∈ [Cases.tableRow] -> lenderNameOf row <> EmptyString)
  /\ ("Lender Name" ∉ headersOf Sample.table -> [Cases.tableRow] = []).
Proof.
  assert (parseCSV Sample.table = Ok [Cases.tableRow]) as Hp
    by (vm_compute; reflexivity).
  split; [exact Hp|].
  exact (parsed_rows_named Sample.table [Cases.tableRow] Hp).
Defined.

(** X13 at a filled form. *)
Lemma validated_criteria_witness :
  onProcessClick Cases.form = Started (merchantCriteria Cases.form)
  /\ inRange 1 10 (Merchant.requestedPosition (merchantCriteria Cases.form))
  /\ inRange 300 850 (Merchant.fico (merchantCriteria Cases.form))
  /\ criteriaOf (merchantCriteria Cases.form) = Some Sample.trucking3.
Proof.
  assert (onProcessClick Cases.form = Started (merchantCriteria Cases.form)) as Hc
    by (vm_compute; reflexivity).
  destruct (validated_criteria Cases.form _ Hc) as (_ & Hp & _ & _ & Hf & _).
  split; [exact Hc|]. split; [exact Hp|]. split; [exact Hf|].
  vm_compute. reflexivity.
Defined.

(** X15 at a table whose name column is called Name. *)
Lemma empty_table_enables_button_witness :
  endsWith (Str.toLowerCase (fileName Cases.nameless)) ".csv" = true
  /\ parseCSV (fileText Cases.nameless) = Ok []
  /\ isFormValid Cases.form = true
  /\ updateProcessButton
       (fst (onFileChange (Some Cases.nameless)
               {| csvData := None; debugMode := false |})) Cases.form = false
  /\ snd (processLenders (H := Sample.host) Sample.trucking3
            (fst (onFileChange (Some Cases.nameless)
                    {| csvData := None; debugMode := false |})))
     = DisplayError "No CSV data loaded".
Proof.
  assert (endsWith (Str.toLowerCase (fileName Cases.nameless)) ".csv" = true)
    as H1 by reflexivity.
  assert (parseCSV (fileText Cases.nameless) = Ok []) as H2
    by (vm_compute; reflexivity).
  assert (isFormValid Cases.form = true) as H3 by reflexivity.
  destruct (empty_table_enables_button (H := Sample.host) Cases.nameless
              Cases.form {| csvData := None; debugMode := false |}
              Sample.trucking3 H1 H2 H3) as (_ & E1 & E2).
  split; [exact H1|]. split; [exact H2|]. split; [exact H3|].
  split; [exact E1|exact E2].
Defined.

(** X17 at [Cases.cells]. *)
Lemma quoted_line_round_trip_witness :
  Cases.cells <> []
  /\ fields (quoteLine Cases.cells) = Cases.cells.
Proof.
  assert (Cases.cells <> []) as H1 by discriminate.
  split; [exact H1|]. exact (quoted_line_round_trip Cases.cells H1).
Defined.

(** X18 at the cell 0680. *)
Lemma integer_cell_round_trip_witness :
  Str.all Char.isDigit "0680" = true
  /\ Str.isEmpty "0680" = false
  /\ (Num.digitsValue 10 "0680" 0 <= 2 ^ 53)%Z
  /\ convertCell (Some "0680") = VNumber (Num.ofZ 680)
  /\ Val.toString (convertCell (Some "0680")) = "680".
Proof.
  assert (Str.all Char.isDigit "0680" = true) as H1 by reflexivity.
  assert (Str.isEmpty "0680" = false) as H2 by reflexivity.
  assert (Num.digitsValue 10 "0680" 0 <= 2 ^ 53)%Z as H3
    by (vm_compute; discriminate).
  destruct (integer_cell_round_trip "0680" H1 H2 H3) as (E1 & E2 & _).
  split; [exact H1|]. split; [exact H2|]. split; [exact H3|].
  split; [exact E1|exact E2].
Defined.

(** X19 at the row named 1234. *)
Lemma numeric_name_dropped_witness :
  Str.all Char.isDigit "1234" = true
  /\ Str.isEmpty "1234" = false
  /\ (Num.digitsValue 10 "1234" 0 <= 2 ^ 53)%Z
  /\ Sample.numeric !! "Lender Name" = Some (convertCell (Some "1234"))
  /\ classify (H := Sample.host) Sample.trucking3 Sample.numeric = AutoDropped None.
Proof.
  assert (Str.all Char.isDigit "1234" = true) as H1 by reflexivity.
  assert (Str.isEmpty "1234" = false) as H2 by reflexivity.
  assert (Num.digitsValue 10 "1234" 0 <= 2 ^ 53)%Z as H3
    by (vm_compute; discriminate).
  assert (Sample.numeric !! "Lender Name" = Some (convertCell (Some "1234")))
    as H4 by (vm_compute; reflexivity).
  destruct (numeric_name_dropped (H := Sample.host) "1234" Sample.numeric
              Sample.trucking3 0 (initial []) H1 H2 H3 H4) as (E & _).
  split; [exact H1|]. split; [exact H2|]. split; [exact H3|].
  split; [exact H4|exact E].
Defined.

(** X20 at a lender without restrictions and a sole proprietor. *)
Lemma sole_prop_flag_only_objects_witness :
  classify (H := Sample.host) Cases.soleProp Sample.noFico = Qualified
  /\ classify (H := Sample.host) (withSoleProp false Cases.soleProp) Sample.noFico
     = Qualified.
Proof.
  assert (classify (H := Sample.host) Cases.soleProp Sample.noFico = Qualified)
    as H1 by (vm_compute; reflexivity).
  destruct (sole_prop_flag_only_objects (H := Sample.host) Cases.soleProp
              Sample.noFico 0 (initial []) H1) as (E & _).
  split; [exact H1|exact E].
Defined.
